(** * Job Composer: pane ordering, option retrieval and submission assembly

    A shallow embedding of the three components of the Job Composer front end
    that carry logic: [MultiPaneTextArea] (pane ordering and the snapshot
    handed to the submission assembler), [DynamicRadioGroup] (remote option
    retrieval, selection invalidation, debounced refetch) and [JobComposer]
    (payload assembly and the submission guards). *)

From Stdlib Require Import ZArith List Lia Sorted Permutation DecimalString.
From Stdlib Require Import Ascii.
From stdpp Require Import base list strings gmap.

Set Warnings "-register-all".

Open Scope string_scope.
Open Scope list_scope.
Open Scope Z_scope.

(* ===================================================================== *)
(** * MultiPaneTextArea *)
(* ===================================================================== *)

Module MultiPane.

(** A pane as the editor receives it.  [content] is [None] when the property
    is missing or null; [order] is an integer.  The optional [onChange]
    callback plays no part in ordering or in the snapshot and is left out. *)
Record Pane := mkPane {
  name : string;
  preview_name : string;
  order : Z;
  content : option string
}.

Definition set_order (pane : Pane) (o : Z) : Pane :=
  {| name := name pane; preview_name := preview_name pane;
     order := o; content := content pane |}.

(** [Array.prototype.map] with the element index. *)
Fixpoint mapi_from {A B : Type} (f : A -> nat -> B) (index : nat) (l : list A)
  : list B :=
  match l with
  | [] => []
  | x :: l' => f x index :: mapi_from f (S index) l'
  end.

(** [Array.prototype.sort] with a comparison function.  The language
    standard requires the sort to be stable: elements that compare equal keep
    their relative order.  Each element is inserted in front of the sorted
    remainder of the array, after the elements that must precede it. *)
Fixpoint insert_by {A : Type} (cmp : A -> A -> Z) (x : A) (l : list A)
  : list A :=
  match l with
  | [] => [x]
  | y :: l' => if cmp x y <=? 0 then x :: y :: l' else y :: insert_by cmp x l'
  end.

Definition js_sort {A : Type} (cmp : A -> A -> Z) (l : list A) : list A :=
  fold_right (insert_by cmp) [] l.

Definition zeroOrderIndex : Z := 10000.

Definition normalizePane (pane : Pane) (index : nat) : Pane :=
  if order pane =? 0 then set_order pane (zeroOrderIndex + Z.of_nat index)
  else pane.

Definition compareOrder (a b : Pane) : Z := order a - order b.

Definition isIncluded (pane : Pane) : bool := negb (order pane =? -1).

(** [panes] is [None] when the property is missing or not an array. *)
Definition getSortedPanes (panes : option (list Pane)) : list Pane :=
  match panes with
  | None => []
  | Some ps =>
      List.filter isIncluded
        (js_sort compareOrder (mapi_from normalizePane 0 ps))
  end.

(** The object a pane reference points to: it answers [getAttribute] and
    carries the pane text as [value]. *)
Record PaneElement := mkPaneElement {
  elem_pane_name : string;
  value : string
}.

Definition getAttribute (el : PaneElement) (attr : string) : option string :=
  if String.eqb attr "name" then Some (elem_pane_name el)
  else if String.eqb attr "id" then Some (elem_pane_name el)
  else None.

Record PaneRef := mkPaneRef { current : option PaneElement }.

(** [pane.content || ''] *)
Definition contentOrEmpty (pane : Pane) : string :=
  match content pane with
  | Some s => s
  | None => ""
  end.

Definition getPaneRefs (panes : option (list Pane)) : list PaneRef :=
  map (fun pane =>
         {| current := Some {| elem_pane_name := name pane;
                               value := contentOrEmpty pane |} |})
      (getSortedPanes panes).

(** The normalized zero-order panes, in array order. *)
Fixpoint zeroOrderPanes_from (index : nat) (ps : list Pane) : list Pane :=
  match ps with
  | [] => []
  | p :: ps' =>
      if order p =? 0
      then normalizePane p index :: zeroOrderPanes_from (S index) ps'
      else zeroOrderPanes_from (S index) ps'
  end.

Definition zeroOrderPanes (ps : list Pane) : list Pane :=
  zeroOrderPanes_from 0 ps.

Definition hasNonZeroOrder (pane : Pane) : bool := negb (order pane =? 0).

Definition hasOrder (k : Z) (pane : Pane) : bool := order pane =? k.

Definition order_le (a b : Pane) : Prop := order a <= order b.

(** The zero-order panes close the sorted list, in array order. *)
Definition zero_order_placed_last (ps : list Pane) : Prop :=
  exists front,
    getSortedPanes (Some ps) = front ++ zeroOrderPanes ps.

(** Panes of order below, and not below, a threshold. *)
Definition below (t : Z) (p : Pane) : bool := order p <? t.

Definition atLeast (t : Z) (p : Pane) : bool := negb (order p <? t).

(** ** Some panes *)

Definition paneA : Pane :=
  {| name := "a.txt"; preview_name := "a.txt"; order := 0; content := Some "a" |}.
Definition paneB : Pane :=
  {| name := "b.txt"; preview_name := "b.txt"; order := 20000;
     content := Some "b" |}.
Definition paneHidden : Pane :=
  {| name := "hidden"; preview_name := "hidden"; order := -1;
     content := Some "h" |}.
Definition paneDriver : Pane :=
  {| name := "driver"; preview_name := "driver.sh"; order := 1;
     content := Some "echo hi" |}.

End MultiPane.

(* ===================================================================== *)
(** * The values the components exchange *)
(* ===================================================================== *)

(** Values as the components see them: primitives, files, arrays and plain
    objects.  Files, arrays and objects carry [ref], the identity that [===]
    compares.  Numbers are integers (printed in decimal); strings are
    sequences of bytes of well-formed text.  An object is the list of its own
    properties in enumeration order, used as a map from property names. *)
Module JS.

(** The values the components handle.  [VNumber n] is the Number whose value
    is the integer [n] (see [isNumberValue] below); files, arrays and
    objects carry the identity [ref] that [===] compares. *)
Inductive Value :=
| VUndefined
| VNull
| VBool (b : bool)
| VNumber (n : Z)
| VString (s : string)
| VFile (ref : nat) (filename : string)
| VArray (ref : nat) (items : list Value)
| VObject (ref : nat) (props : list (string * Value)).

(** [!!v] *)
Definition truthy (v : Value) : bool :=
  match v with
  | VUndefined | VNull => false
  | VBool b => b
  | VNumber n => negb (n =? 0)
  | VString s => negb (String.eqb s "")
  | VFile _ _ | VArray _ _ | VObject _ _ => true
  end.

(** [v === undefined || v === null] *)
Definition isNullish (v : Value) : bool :=
  match v with VUndefined | VNull => true | _ => false end.

(** [typeof v] is ['string'], ['number'] or ['boolean']. *)
Definition isPrimitiveForQuery (v : Value) : bool :=
  match v with VString _ | VNumber _ | VBool _ => true | _ => false end.

(** [a === b]: by value for primitives, by identity otherwise. *)
Definition strictEquals (a b : Value) : bool :=
  match a, b with
  | VUndefined, VUndefined => true
  | VNull, VNull => true
  | VBool x, VBool y => Bool.eqb x y
  | VNumber x, VNumber y => x =? y
  | VString x, VString y => String.eqb x y
  | VFile r1 _, VFile r2 _ => Nat.eqb r1 r2
  | VArray r1 _, VArray r2 _ => Nat.eqb r1 r2
  | VObject r1 _, VObject r2 _ => Nat.eqb r1 r2
  | _, _ => false
  end.

(** The decimal text of an integer. *)
Definition decimalText (n : Z) : string :=
  NilZero.string_of_int (Z.to_int n).

(** [VNumber n] stands for the Number whose value is the integer [n].  A
    Number is a double, which holds 53 significant bits: [n] is the value of
    a Number when it is zero or when, [2 ^ e] being the distance from it to
    the next Number, it is a multiple of [2 ^ e] below [2 ^ 1024].  Numbers
    that are not integers are not modelled. *)
Definition isNumberValue (n : Z) : bool :=
  let x := Z.abs n in
  let e := Z.max 0 (Z.log2 x - 52) in
  (x / 2 ^ e * 2 ^ e =? x) && (Z.log2 x <? 1024).

(** Whether the decimal integer [v] reads back as the Number [x], for a
    positive [x]: below [2 ^ 53] only [x] itself does; above, every integer
    does that is nearer to [x] than to the Number before and the Number
    after it, and one that lies half way when the significand of [x] is
    even.  The bounds are taken four times over to stay among integers:
    where [x] is a power of two the Number before it is half as far as the
    one after it. *)
Definition readsBackAs (x v : Z) : bool :=
  let e := Z.log2 x - 52 in
  if e <=? 0 then v =? x
  else
    let m := x / 2 ^ e in
    let low := 4 * x - (if m =? 2 ^ 52 then 2 ^ e else 2 ^ (e + 1)) in
    let high := 4 * x + 2 ^ (e + 1) in
    if Z.even m then (low <=? 4 * v) && (4 * v <=? high)
    else (low <? 4 * v) && (4 * v <? high).

(** The decimal with the fewest significant digits that reads back as [x]:
    the multiple of the highest power of ten, from [10 ^ p] down, that does,
    and of two such multiples the one nearer to [x] (the one with the even
    last digit when both are as near). *)
Fixpoint shortestDecimal (x : Z) (p : nat) : Z * nat :=
  let w := 10 ^ Z.of_nat p in
  let down := x / w * w in
  let up := down + w in
  let okDown := (0 <? down) && readsBackAs x down in
  let okUp := readsBackAs x up in
  let next :=
    match p with
    | O => (x, O)
    | S p' => shortestDecimal x p'
    end in
  if okDown && okUp then
    if x - down <? up - x then (down, p)
    else if up - x <? x - down then (up, p)
    else if Z.even (down / w) then (down, p) else (up, p)
  else if okDown then (down, p)
  else if okUp then (up, p)
  else next.

(** [String(x)] for a positive Number: the shortest decimal that reads back
    as [x], written out in full up to 21 digits and with an exponent
    beyond. *)
Definition positiveToString (x : Z) : string :=
  let (v, p) := shortestDecimal x (String.length (decimalText x)) in
  let text := decimalText v in
  let n := String.length text in
  if (n <=? 21)%nat then text
  else
    match decimalText (v / 10 ^ Z.of_nat p) with
    | String d rest =>
        String d (if String.eqb rest "" then "" else "." +:+ rest)
        +:+ "e+" +:+ decimalText (Z.of_nat n - 1)
    | EmptyString => text
    end.

(** [String(n)] for a Number. *)
Definition numberToString (n : Z) : string :=
  if n =? 0 then "0"
  else if n <? 0 then "-" +:+ positiveToString (- n)
  else positiveToString n.

(** [Array.prototype.join] on strings. *)
Fixpoint join (sep : string) (l : list string) : string :=
  match l with
  | [] => ""
  | [s] => s
  | s :: l' => s +:+ sep +:+ join sep l'
  end.

(** [String(v)] *)
Fixpoint toString (v : Value) : string :=
  match v with
  | VUndefined => "undefined"
  | VNull => "null"
  | VBool true => "true"
  | VBool false => "false"
  | VNumber n => numberToString n
  | VString s => s
  | VFile _ _ => "[object File]"
  | VArray _ items =>
      join "," (map (fun x => if isNullish x then "" else toString x) items)
  | VObject _ _ => "[object Object]"
  end.

(** A hexadecimal digit, in upper or in lower case. *)
Definition hexDigit (upper : bool) (n : N) : ascii :=
  if (n <? 10)%N then ascii_of_N (48 + n)
  else ascii_of_N ((if upper then 55 else 87) + n).

Definition unicodeEscape (c : ascii) : string :=
  let n := N_of_ascii c in
  "\u00" +:+ String (hexDigit false (n / 16)) (String (hexDigit false (n mod 16)) "").

(** The double quote character, as a string. *)
Definition dquote : string := String (ascii_of_N 34) EmptyString.

(** How [JSON.stringify] writes one character of a string. *)
Definition quoteChar (c : ascii) : string :=
  let n := N_of_ascii c in
  if (n =? 34)%N then "\" +:+ dquote
  else if (n =? 92)%N then "\\"
  else if (n =? 8)%N then "\b"
  else if (n =? 12)%N then "\f"
  else if (n =? 10)%N then "\n"
  else if (n =? 13)%N then "\r"
  else if (n =? 9)%N then "\t"
  else if (n <? 32)%N then unicodeEscape c
  else String c "".

Fixpoint concatMap (f : ascii -> string) (s : string) : string :=
  match s with
  | EmptyString => ""
  | String c s' => f c +:+ concatMap f s'
  end.

(** A string as JSON text. *)
Definition quoteJSONString (s : string) : string :=
  dquote +:+ concatMap quoteChar s +:+ dquote.

(** [JSON.stringify(v)]; [None] stands for the result undefined.  In an
    array an element without JSON text is written as null, in an object such
    a property is left out. *)
Fixpoint stringify (v : Value) : option string :=
  match v with
  | VUndefined => None
  | VNull => Some "null"
  | VBool true => Some "true"
  | VBool false => Some "false"
  | VNumber n => Some (numberToString n)
  | VString s => Some (quoteJSONString s)
  | VFile _ _ => Some "{}"
  | VArray _ items =>
      Some ("[" +:+ join "," (map (fun x => default "null" (stringify x)) items)
                +:+ "]")
  | VObject _ props =>
      Some ("{" +:+
            join ","
              (omap (fun kv : string * Value =>
                       match kv with
                       | (k, x) =>
                           match stringify x with
                           | Some s => Some (quoteJSONString k +:+ ":" +:+ s)
                           | None => None
                           end
                       end) props)
            +:+ "}")
  end.

Definition isDigit (c : ascii) : bool :=
  let n := N_of_ascii c in ((48 <=? n) && (n <=? 57))%N.

Fixpoint digitsValue (acc : N) (s : string) : option N :=
  match s with
  | EmptyString => Some acc
  | String c s' =>
      if isDigit c then digitsValue (10 * acc + (N_of_ascii c - 48))%N s'
      else None
  end.

(** The number a property key denotes when it is an array index: a decimal
    numeral without leading zero, below 2^32 - 1.  Such keys come first when
    the properties of an object are enumerated, in ascending order; the other
    keys follow in the order of their creation. *)
Definition arrayIndex (key : string) : option N :=
  match key with
  | EmptyString => None
  | String c rest =>
      if (N_of_ascii c =? 48)%N && negb (String.eqb rest "") then None
      else
        match digitsValue 0%N key with
        | Some n => if (n <? 4294967295)%N then Some n else None
        | None => None
        end
  end.

(** The own properties of an object, in enumeration order. *)
Definition Properties := list (string * Value).

Fixpoint getOwn (props : Properties) (key : string) : option Value :=
  match props with
  | [] => None
  | (k, v) :: rest => if String.eqb k key then Some v else getOwn rest key
  end.

Definition hasOwn (props : Properties) (key : string) : bool :=
  match getOwn props key with Some _ => true | None => false end.

Fixpoint replaceOwn (props : Properties) (key : string) (v : Value)
  : Properties :=
  match props with
  | [] => []
  | (k, x) :: rest =>
      if String.eqb k key then (k, v) :: rest
      else (k, x) :: replaceOwn rest key v
  end.

Fixpoint insertIndexKey (props : Properties) (key : string) (n : N)
  (v : Value) : Properties :=
  match props with
  | [] => [(key, v)]
  | (k, x) :: rest =>
      match arrayIndex k with
      | Some m =>
          if (m <? n)%N then (k, x) :: insertIndexKey rest key n v
          else (key, v) :: (k, x) :: rest
      | None => (key, v) :: (k, x) :: rest
      end
  end.

(** The name of the accessor that every ordinary object inherits from
    [Object.prototype]. *)
Definition protoKey : string := "__proto__".

(** [object[key] = v] on an ordinary object, which inherits from
    [Object.prototype].  An own property is replaced where it stands.  A
    write under [__proto__] to an object without an own property of that
    name goes to the inherited setter and creates no property: the setter
    does nothing for a primitive [v], and for an object or null it replaces
    the prototype, which is not among the own properties.  Any other new
    key is added, an array index among the array indices and another key at
    the end. *)
Definition setProperty (props : Properties) (key : string) (v : Value)
  : Properties :=
  if hasOwn props key then replaceOwn props key v
  else if String.eqb key protoKey then props
  else
    match arrayIndex key with
    | Some n => insertIndexKey props key n v
    | None => props ++ [(key, v)]
    end.

Inductive Exception :=
| TypeError (message : string)
| SyntaxError (message : string)
| NetworkError (message : string).

(** An evaluation returns a value or throws. *)
Inductive Completion (A : Type) :=
| Normal (a : A)
| Throw (e : Exception).
Arguments Normal {A} a.
Arguments Throw {A} e.

(** [v.key] for a data property: reading from undefined or null throws, a
    value without that property yields undefined. *)
Definition getProperty (v : Value) (key : string) : Completion Value :=
  match v with
  | VUndefined => Throw (TypeError "Cannot read properties of undefined")
  | VNull => Throw (TypeError "Cannot read properties of null")
  | VObject _ props => Normal (default VUndefined (getOwn props key))
  | _ => Normal VUndefined
  end.

(** The characters the form encoding of a query leaves as they are. *)
Definition isUnreservedForm (c : ascii) : bool :=
  let n := N_of_ascii c in
  (((48 <=? n) && (n <=? 57)) || ((65 <=? n) && (n <=? 90))
   || ((97 <=? n) && (n <=? 122))
   || (n =? 42) || (n =? 45) || (n =? 46) || (n =? 95))%N.

Definition percentEncode (c : ascii) : string :=
  let n := N_of_ascii c in
  String "%" (String (hexDigit true (n / 16)) (String (hexDigit true (n mod 16)) "")).

Definition formEncodeChar (c : ascii) : string :=
  if isUnreservedForm c then String c ""
  else if (N_of_ascii c =? 32)%N then "+"
  else percentEncode c.

Definition formEncode (s : string) : string := concatMap formEncodeChar s.

Definition URLSearchParams := list (string * string).

(** [params.toString()] *)
Definition URLSearchParams_toString (params : URLSearchParams) : string :=
  join "&" (map (fun kv => formEncode (fst kv) +:+ "=" +:+ formEncode (snd kv))
                params).

(** The characters [encodeURIComponent] leaves as they are. *)
Definition isUnreservedURIComponent (c : ascii) : bool :=
  let n := N_of_ascii c in
  (((48 <=? n) && (n <=? 57)) || ((65 <=? n) && (n <=? 90))
   || ((97 <=? n) && (n <=? 122))
   || (n =? 45) || (n =? 95) || (n =? 46) || (n =? 33) || (n =? 126)
   || (n =? 42) || (n =? 39) || (n =? 40) || (n =? 41))%N.

Definition encodeURIComponent (s : string) : string :=
  concatMap (fun c => if isUnreservedURIComponent c then String c ""
                      else percentEncode c) s.

End JS.

(* ===================================================================== *)
(** * JobComposer: payload assembly and submission *)
(* ===================================================================== *)

Module Composer.
Import JS.
Import MultiPane.

(** A multipart form body: the fields in the order they were appended.  A
    field holds a file or a string. *)
Inductive FormDataValue :=
| FDString (s : string)
| FDFile (ref : nat) (filename : string).

Definition FormData := list (string * FormDataValue).

(** What [append] stores for a value: a file as it is, anything else as its
    text. *)
Definition fieldValue (v : Value) : FormDataValue :=
  match v with
  | VFile r f => FDFile r f
  | _ => FDString (toString v)
  end.

Definition FormData_append (fd : FormData) (key : string) (v : Value)
  : FormData :=
  fd ++ [(key, fieldValue v)].

(** [formData.get(name)]: the first field of that name, [None] for null. *)
Fixpoint FormData_get (fd : FormData) (key : string) : option FormDataValue :=
  match fd with
  | [] => None
  | (k, v) :: rest => if String.eqb k key then Some v else FormData_get rest key
  end.

Record Environment := mkEnvironment {
  env : string;
  src : Value
}.

(** What [JobComposer] works on.  [status] is published by the job
    transport.  [rerunInfo] is the prior-job record the parent passes in: an
    object shared with the caller, so writes to it are kept in the state the
    handlers return.  [globalFiles] is the array of attached files ([None]
    when absent).  [multiPane] is [None] while the editor is not mounted and
    otherwise holds the editor's [panes] property.  [formFields] are the fields
    the browser collects from the form element and [formAction] is its
    [action] attribute. *)
Record State := mkState {
  status : string;
  jobStatus : option string;
  rerunInfo : Properties;
  globalFiles : option (nat * list Value);
  environment : option Environment;
  multiPane : option (option (list Pane));
  formFields : FormData;
  formAction : option string
}.

Definition set_rerunInfo (c : State) (data : Properties) : State :=
  {| status := status c; jobStatus := jobStatus c; rerunInfo := data;
     globalFiles := globalFiles c; environment := environment c;
     multiPane := multiPane c; formFields := formFields c;
     formAction := formAction c |}.

(** [status === 'submitting' || status === 'running'] *)
Definition isJobRunning (c : State) : bool :=
  String.eqb (status c) "submitting" || String.eqb (status c) "running".

(** [name === "driver" || name === "run_command"] *)
Definition isDistinguished (name : option string) : bool :=
  match name with
  | Some n => String.eqb n "driver" || String.eqb n "run_command"
  | None => false
  end.

(** A property key made from the result of [getAttribute]. *)
Definition propertyKey (name : option string) : string :=
  match name with
  | Some n => n
  | None => "null"
  end.

(** One turn of the loop over the pane references in rerun mode: the record
    [data] and the object [additionalFiles] after the assignment. *)
Definition rerunStep (acc : Properties * Properties) (ref : PaneRef)
  : Properties * Properties :=
  let (data, additionalFiles) := acc in
  match current ref with
  | None => acc
  | Some cur =>
      let name := getAttribute cur "name" in
      if isDistinguished name
      then (setProperty data (propertyKey name) (VString (value cur)),
            additionalFiles)
      else (data,
            setProperty additionalFiles (propertyKey name) (VString (value cur)))
  end.

(** [JSON.stringify] of an object, as a value. *)
Definition stringifyObject (props : Properties) : Value :=
  match stringify (VObject 0 props) with
  | Some s => VString s
  | None => VUndefined
  end.

(** The loop over the pane references in rerun mode, from the record as
    supplied and an empty object of additional files. *)
Definition rerunLoop (c : State) (paneRefs : list PaneRef)
  : Properties * Properties :=
  fold_left rerunStep paneRefs (rerunInfo c, []).

(** The prior-job record after the rerun branch has written to it. *)
Definition rerunRecord (c : State) (paneRefs : list PaneRef) : Properties :=
  let (data, additionalFiles) := rerunLoop c paneRefs in
  let data := setProperty data "additional_files" (stringifyObject additionalFiles) in
  match globalFiles c with
  | Some (r, files) => setProperty data "files" (VArray r files)
  | None => data
  end.

(** One turn of the loop over [Object.entries(data)]. *)
Definition appendEntry (formData : FormData) (entry : string * Value)
  : FormData :=
  let (key, v) := entry in
  match v with
  | VFile _ _ => FormData_append formData key v
  | VArray _ items =>
      fold_left (fun fd item => FormData_append fd (key +:+ "[]") item)
                items formData
  | VUndefined | VNull => formData
  | _ => FormData_append formData key (VString (toString v))
  end.

(** The form body built from the entries of the record. *)
Definition formDataOfRecord (data : Properties) : FormData :=
  fold_left appendEntry data [].

(** The fields one entry of the record contributes. *)
Definition entryFields (entry : string * Value) : FormData :=
  appendEntry [] entry.

(** One turn of the loop over the pane references in fresh mode. *)
Definition freshStep (acc : FormData * Properties) (ref : PaneRef)
  : FormData * Properties :=
  let (formData, additional_files) := acc in
  match current ref with
  | None => acc
  | Some cur =>
      let name := getAttribute cur "name" in
      if isDistinguished name
      then (FormData_append formData (propertyKey name) (VString (value cur)),
            additional_files)
      else (formData,
            setProperty additional_files (propertyKey name)
                        (VString (value cur)))
  end.

(** The form body of the fresh branch: the fields of the form element, the
    panes, the environment directory and the attached files. *)
Definition freshFormData (c : State) (paneRefs : list PaneRef) : FormData :=
  let (formData, additional_files) :=
    fold_left freshStep paneRefs (formFields c, ([] : Properties)) in
  let formData :=
    FormData_append formData "additional_files"
                    (stringifyObject additional_files) in
  let formData :=
    match environment c with
    | Some e =>
        if truthy (src e) then FormData_append formData "env_dir" (src e)
        else formData
    | None => formData
    end in
  match globalFiles c with
  | Some (_, files) =>
      fold_left (fun fd file => FormData_append fd "files[]" file) files formData
  | None => formData
  end.

(** [getFormData]: the payload ([None] for null) and the state after the
    call; only the rerun branch changes the state, through the record it
    writes to. *)
Definition getFormData (c : State) : option FormData * State :=
  match multiPane c with
  | None => (None, c)
  | Some panes =>
      let paneRefs := getPaneRefs panes in
      if match jobStatus c with
         | Some s => String.eqb s "rerun"
         | None => false
         end
      then
        let data := rerunRecord c paneRefs in
        (Some (formDataOfRecord data), set_rerunInfo c data)
      else (Some (freshFormData c paneRefs), c)
  end.

(** What a handler does to the outside, in order. *)
Inductive Action :=
| PreventDefault
| Alert (message : string)
| SubmitJob (action : option string) (formData : FormData).

(** [handleSubmit]: what it does to the outside and the state it leaves. *)
Definition handleSubmit (c : State) : list Action * State :=
  if isJobRunning c
  then ([PreventDefault;
         Alert "A job is already running. Please wait for it to complete before submitting another job."],
        c)
  else
    match getFormData c with
    | (None, c') => ([PreventDefault; Alert "Error preparing form data."], c')
    | (Some formData, c') =>
        match FormData_get formData "name" with
        | Some (FDString "") =>
            ([PreventDefault; Alert "Job name is required."], c')
        | _ => ([PreventDefault; SubmitJob (formAction c') formData], c')
        end
    end.

Definition isSubmitJob (a : Action) : bool :=
  match a with SubmitJob _ _ => true | _ => false end.

Definition isAlert (a : Action) : bool :=
  match a with Alert _ => true | _ => false end.

(** The text a pane reference files under a given key, if it does. *)
Definition refValue (key : string) (ref : PaneRef) : option string :=
  match current ref with
  | Some cur =>
      if String.eqb (propertyKey (getAttribute cur "name")) key
      then Some (value cur) else None
  | None => None
  end.

(** The text of the last pane reference filed under a given key, if there
    is one. *)
Fixpoint lastValue (key : string) (paneRefs : list PaneRef) : option string :=
  match paneRefs with
  | [] => None
  | ref :: rest =>
      match lastValue key rest with
      | Some text => Some text
      | None => refValue key ref
      end
  end.

(** The object of additional files the rerun branch builds. *)
Definition additionalFilesOf (c : State) (paneRefs : list PaneRef)
  : Properties :=
  snd (rerunLoop c paneRefs).

(** Whether a field name ends in the two characters that mark an array
    entry. *)
Fixpoint endsWithBrackets (s : string) : bool :=
  match s with
  | EmptyString => false
  | String a rest =>
      match rest with
      | EmptyString => false
      | String b EmptyString =>
          Ascii.eqb a "["%char && Ascii.eqb b "]"%char
      | _ => endsWithBrackets rest
      end
  end.

Definition isDistinguishedKey (key : string) : bool :=
  String.eqb key "driver" || String.eqb key "run_command".

(** A submission attempt leaves the text of the additional files in the
    prior-job record. *)
Definition attempt_writes_record (c : State) : Prop :=
  exists json,
    getOwn (rerunInfo (snd (handleSubmit c))) "additional_files" =
    Some (VString json).

(** ** A rerun with two panes *)

Definition examplePanes : list Pane :=
  [ {| name := "driver"; preview_name := "driver"; order := 1;
       content := Some "echo hi" |};
    {| name := "extra.txt"; preview_name := "extra.txt"; order := 2;
       content := Some "x" |} ].

(** The text [{"extra.txt":"x"}]. *)
Definition exampleAdditionalFiles : string :=
  "{" +:+ dquote +:+ "extra.txt" +:+ dquote +:+ ":" +:+ dquote +:+ "x"
      +:+ dquote +:+ "}".

(** ** A rerun with a pane named [__proto__] *)

Definition panesWithProto : list Pane :=
  [ {| name := "driver"; preview_name := "driver"; order := 1;
       content := Some "echo hi" |};
    {| name := "__proto__"; preview_name := "notes"; order := 2;
       content := Some "x" |};
    {| name := "extra.txt"; preview_name := "extra.txt"; order := 3;
       content := Some "y" |} ].

(** The text [{"extra.txt":"y"}]. *)
Definition additionalFilesWithoutProto : string :=
  "{" +:+ dquote +:+ "extra.txt" +:+ dquote +:+ ":" +:+ dquote +:+ "y"
      +:+ dquote +:+ "}".

Definition rerunWithProtoPane : State :=
  {| status := "idle"; jobStatus := Some "rerun";
     rerunInfo := [("name", VString "job-17");
                   ("location", VString "/scratch/job-17")];
     globalFiles := None; environment := None;
     multiPane := Some (Some panesWithProto);
     formFields := []; formAction := Some "/jobs/composer/submit" |}.

(** A rerun of a named job while the transport reports a running job. *)
Definition rerunWhileRunning : State :=
  {| status := "running"; jobStatus := Some "rerun";
     rerunInfo := [("name", VString "job-17"); ("location", VString "/scratch/job-17")];
     globalFiles := None; environment := None;
     multiPane := Some (Some examplePanes);
     formFields := []; formAction := Some "/jobs/composer/submit" |}.

(** A rerun of a job without a name while no job is in flight. *)
Definition rerunWithoutName : State :=
  {| status := "idle"; jobStatus := Some "rerun";
     rerunInfo := [("name", VString ""); ("location", VString "/scratch/job-17")];
     globalFiles := None; environment := None;
     multiPane := Some (Some examplePanes);
     formFields := []; formAction := Some "/jobs/composer/submit" |}.

End Composer.

(* ===================================================================== *)
(** * DynamicRadioGroup: option retrieval *)
(* ===================================================================== *)

Module DynamicRadioGroup.
Import JS.

(** Modelled from the spec: [getFieldValue] of [utils/fieldUtils], which is
    not among the sources.  FormValues maps a field name to its current
    value, and a [$field] reference is resolved against it; a field without
    an entry reads as undefined. *)
Definition getFieldValue (formValues : gmap string Value) (fieldName : string)
  : Value :=
  default VUndefined (formValues !! fieldName).

(** The properties the component reads.  [setError] tells whether the parent
    passed an error sink.  [curUrl] is the dashboard address the build
    configuration selects. *)
Record Props := mkProps {
  name : string;
  options : option (list Value);
  value : option string;
  isShown : option bool;
  retriever : option string;
  retrieverPath : option string;
  retrieverParams : option Properties;
  setError : bool;
  curUrl : string
}.

(** The component's state variables. *)
Record State := mkState {
  st_options : list Value;
  st_value : string;
  isLoading : bool;
  isEvaluated : bool;
  isValueInvalid : bool
}.

Definition setOptions (st : State) (o : list Value) : State :=
  {| st_options := o; st_value := st_value st; isLoading := isLoading st;
     isEvaluated := isEvaluated st; isValueInvalid := isValueInvalid st |}.

Definition setValue (st : State) (v : string) : State :=
  {| st_options := st_options st; st_value := v; isLoading := isLoading st;
     isEvaluated := isEvaluated st; isValueInvalid := isValueInvalid st |}.

Definition setIsLoading (st : State) (b : bool) : State :=
  {| st_options := st_options st; st_value := st_value st; isLoading := b;
     isEvaluated := isEvaluated st; isValueInvalid := isValueInvalid st |}.

Definition setIsEvaluated (st : State) (b : bool) : State :=
  {| st_options := st_options st; st_value := st_value st;
     isLoading := isLoading st; isEvaluated := b;
     isValueInvalid := isValueInvalid st |}.

Definition setIsValueInvalid (st : State) (b : bool) : State :=
  {| st_options := st_options st; st_value := st_value st;
     isLoading := isLoading st; isEvaluated := isEvaluated st;
     isValueInvalid := b |}.

(** [a || b] on optional strings: the empty string is falsy. *)
Definition nonEmpty (s : option string) : option string :=
  match s with
  | Some x => if String.eqb x "" then None else Some x
  | None => None
  end.

Definition initialState (props : Props) : State :=
  {| st_options := default [] (options props);
     st_value := default "" (nonEmpty (value props));
     isLoading := false; isEvaluated := false; isValueInvalid := false |}.

Definition shown (props : Props) : bool := default true (isShown props).

(** What reaches the parent's error sink: the literal object the component
    builds, or an exception object it caught. *)
Inductive ErrorPayload :=
| Structured (message : Value) (status_code : Z) (details : Value)
| Thrown (e : Exception).

Inductive Effect :=
| SetError (payload : ErrorPayload)
| FetchRequest (url : string).

(** [props.setError?.(payload)] *)
Definition callSetError (props : Props) (payload : ErrorPayload) : list Effect :=
  if setError props then [SetError payload] else [].

(** [typeof v === "string" && v.startsWith("$")] *)
Definition isFieldReference (v : Value) : bool :=
  match v with
  | VString s => String.prefix "$" s
  | _ => false
  end.

(** [v.substring(1)] *)
Definition referencedField (v : Value) : string :=
  match v with
  | VString (String _ rest) => rest
  | _ => ""
  end.

Definition relevantFieldNames (props : Props) : list string :=
  match retrieverParams props with
  | None => []
  | Some params =>
      map referencedField (List.filter isFieldReference (map snd params))
  end.

Definition resolveParam (currentFormValues : gmap string Value)
  (rawVal : Value) : Value :=
  if isFieldReference rawVal
  then getFieldValue currentFormValues (referencedField rawVal)
  else rawVal.

(** One turn of the loop over the entries of [retrieverParams]: the pair
    appended to the query, if any. *)
Definition queryPair (currentFormValues : gmap string Value)
  (entry : string * Value) : option (string * string) :=
  let (key, rawVal) := entry in
  let resolved := resolveParam currentFormValues rawVal in
  if isNullish resolved then None
  else if isPrimitiveForQuery resolved then Some (key, toString resolved)
  else Some (key, default "undefined" (stringify resolved)).

Definition buildParams (props : Props) (currentFormValues : gmap string Value)
  : URLSearchParams :=
  match retrieverParams props with
  | None => []
  | Some params => omap (queryPair currentFormValues) params
  end.

Definition requestUrl (props : Props) (path : string)
  (params : URLSearchParams) : string :=
  let queryString := URLSearchParams_toString params in
  curUrl props +:+ "/jobs/composer/evaluate_dynamic_text?retriever_path="
    +:+ encodeURIComponent path
    +:+ (if String.eqb queryString "" then "" else "&" +:+ queryString).

(** [props.retrieverPath || props.retriever] *)
Definition configuredRetrieverPath (props : Props) : option string :=
  match nonEmpty (retrieverPath props) with
  | Some p => Some p
  | None => nonEmpty (retriever props)
  end.

(** [fetchOptions] up to the point where it waits for the response.
    [formValuesRef] is the content of the held reference at the time of the
    call. *)
Definition fetchOptions_start (props : Props)
  (formValuesRef : gmap string Value) (st : State) : State * list Effect :=
  match configuredRetrieverPath props with
  | None =>
      (st, callSetError props
             (Structured (VString "Retriever path is not set") 400 (VString "")))
  | Some path =>
      (setIsLoading st true,
       [FetchRequest (requestUrl props path (buildParams props formValuesRef))])
  end.

(** How the request ends: [fetch] rejects, or a response arrives with its
    status code and with what [response.json()] yields for its body (the
    parsed value, or the error of the parser). *)
Inductive FetchOutcome :=
| Rejected (e : Exception)
| Responded (status : Z) (body : Completion Value).

Definition responseOk (status : Z) : bool :=
  (200 <=? status) && (status <=? 299).

(** [data.some((o) => o.value === value)] over the elements of an array. *)
Fixpoint someHasValue (items : list Value) (selected : string)
  : Completion bool :=
  match items with
  | [] => Normal false
  | o :: rest =>
      match getProperty o "value" with
      | Throw e => Throw e
      | Normal v =>
          if strictEquals v (VString selected) then Normal true
          else someHasValue rest selected
      end
  end.

(** [data.some(...)] for any parsed body: only arrays have the method. *)
Definition dataSome (data : Value) (selected : string) : Completion bool :=
  match data with
  | VArray _ items => someHasValue items selected
  | VUndefined | VNull =>
      Throw (TypeError "Cannot read properties of null (reading 'some')")
  | _ => Throw (TypeError "data.some is not a function")
  end.

(** The object literal passed to the sink for a response that is not ok. *)
Definition responseError (props : Props) (status : Z) (errorData : Value)
  : Completion ErrorPayload :=
  match getProperty errorData "message" with
  | Throw e => Throw e
  | Normal m =>
      match getProperty errorData "details" with
      | Throw e => Throw e
      | Normal d =>
          Normal (Structured
                    (if truthy m then m
                     else VString "Failed to retrieve radio options")
                    status
                    (if truthy d then d else errorData))
      end
  end.

(** [fetchOptions] from the response on: the [try] block, its [catch] and
    its [finally].  [selected] is the selection value the callback closed
    over. *)
Definition fetchOptions_settle (props : Props) (selected : string)
  (outcome : FetchOutcome) (st : State) : State * list Effect :=
  let (st', effects) :=
    match outcome with
    | Rejected e => (st, callSetError props (Thrown e))
    | Responded status body =>
        if responseOk status then
          match body with
          | Throw e => (st, callSetError props (Thrown e))
          | Normal data =>
              let st1 :=
                setOptions st
                  (match data with VArray _ items => items | _ => [] end) in
              let st2 := setIsEvaluated st1 true in
              if String.eqb selected "" then (setIsValueInvalid st2 false, [])
              else
                match dataSome data selected with
                | Normal found => (setIsValueInvalid st2 (negb found), [])
                | Throw e => (st2, callSetError props (Thrown e))
                end
          end
        else
          let errorData :=
            match body with
            | Normal v => v
            | Throw _ => VObject 0 []
            end in
          match responseError props status errorData with
          | Normal payload => (st, callSetError props payload)
          | Throw e => (st, callSetError props (Thrown e))
          end
    end in
  (setIsLoading st' false, effects).

(** ** The component over time

    The component is rendered, its effects run after the render and see the
    state of that render; a state change asks for another render.  The
    properties stay the same for the life of the component; the context
    publishes a new FormValues mapping now and then. *)

(** A debounced function as the factory returns it: it owns the variable
    [timeout], which holds the identifier of the timer it has armed. *)
Record Debounced := mkDebounced { timeout : option nat }.

(** A pending timer.  Its callback calls the [fetchOptions] of the render
    that armed it, which closed over [timer_selected]. *)
Record Timer := mkTimer {
  timer_id : nat;
  due : nat;
  timer_selected : string
}.

(** A request that has not been answered yet, with the selection value the
    calling [fetchOptions] closed over. *)
Record Request := mkRequest {
  request_url : string;
  request_selected : string
}.

Record System := mkSystem {
  state : State;
  formValues : gmap string Value;
  formValuesRef : gmap string Value;
  prevRelevantValuesRef : gmap string Value;
  initialFetchDeps : option (bool * bool * string);
  timers : list Timer;
  nextTimerId : nat;
  inFlight : list Request;
  clock : nat;
  log : list (nat * Effect)
}.

Definition debounceDelay : nat := 300.

(** The body of the factory: [let timeout; return () => {...}]. *)
Definition debouncedFactory : Debounced := {| timeout := None |}.

Definition clearTimeout (id : nat) (ts : list Timer) : list Timer :=
  List.filter (fun t => negb (Nat.eqb (timer_id t) id)) ts.

(** A call of the debounced function: the timer it holds, if any, is
    cancelled, and a new one is armed. *)
Definition callDebounced (d : Debounced) (selected : string) (now fresh : nat)
  (ts : list Timer) : Debounced * list Timer :=
  let ts' :=
    match timeout d with
    | Some id => clearTimeout id ts
    | None => ts
    end in
  ({| timeout := Some fresh |},
   ts' ++ [{| timer_id := fresh; due := (now + debounceDelay)%nat;
              timer_selected := selected |}]).

(** The loop of the dependency effect over the relevant field names. *)
Definition detectStep (formValues : gmap string Value)
  (acc : bool * gmap string Value) (fieldName : string)
  : bool * gmap string Value :=
  let (hasRelevantValueChanged, prev) := acc in
  let currentValue := getFieldValue formValues fieldName in
  let previousValue := default VUndefined (prev !! fieldName) in
  if negb (strictEquals currentValue previousValue)
  then (true, <[fieldName := currentValue]> prev)
  else (hasRelevantValueChanged, prev).

Definition detectChanges (formValues : gmap string Value)
  (names : list string) (prev : gmap string Value)
  : bool * gmap string Value :=
  fold_left (detectStep formValues) names (false, prev).

Definition sameDeps (a : option (bool * bool * string))
  (b : bool * bool * string) : bool :=
  match a, b with
  | Some (s1, e1, v1), (s2, e2, v2) =>
      Bool.eqb s1 s2 && Bool.eqb e1 e2 && String.eqb v1 v2
  | None, _ => false
  end.

Definition requestsOf (selected : string) (effects : list Effect)
  : list Request :=
  omap (fun e => match e with
                 | FetchRequest url =>
                     Some {| request_url := url; request_selected := selected |}
                 | SetError _ => None
                 end) effects.

Definition stamp (now : nat) (effects : list Effect) : list (nat * Effect) :=
  map (fun e => (now, e)) effects.

(** The dependencies of the effect that makes the initial fetch: [isShown],
    [isEvaluated] and [fetchOptions], which is a new function when the
    selection changed. *)
Definition initialFetchDepsOf (props : Props) (st : State)
  : bool * bool * string :=
  (shown props, isEvaluated st, st_value st).

(** Whether that effect runs after this render and calls [fetchOptions]. *)
Definition initialFetchRuns (props : Props) (sys : System) : bool :=
  negb (sameDeps (initialFetchDeps sys) (initialFetchDepsOf props (state sys)))
  && shown props && negb (isEvaluated (state sys)).

(** The effect that tracks the relevant fields, up to its last condition:
    whether a relevant value changed, and the previous values it leaves. *)
Definition trackDependencies (props : Props) (sys : System)
  : bool * gmap string Value :=
  if negb (shown props)
     || match retrieverParams props with None => true | Some _ => false end
     || Nat.eqb (length (relevantFieldNames props)) 0
  then (false, prevRelevantValuesRef sys)
  else detectChanges (formValues sys) (relevantFieldNames props)
                     (prevRelevantValuesRef sys).

(** One render with its effects, in the order the component declares them.
    The result tells whether the state changed, which asks for a new
    render.  The effect on [props.value] only repeats the initial value and
    is left out. *)
Definition commit (props : Props) (sys : System) : System * bool :=
  let snapshot := state sys in
  (* the factory is called during the render *)
  let debouncedFetchOptions := debouncedFactory in
  (* formValuesRef.current = formValues *)
  let ref := formValues sys in
  (* initial fetch when the component is shown *)
  let runInitial := initialFetchRuns props sys in
  let '(st1, effects1) :=
    if runInitial then fetchOptions_start props ref snapshot
    else (snapshot, []) in
  let dirty1 :=
    runInitial && negb (Bool.eqb (isLoading st1) (isLoading snapshot)) in
  (* dependency tracking; debouncedFetchOptions is among its dependencies,
     so it runs after every render *)
  let '(hasRelevantValueChanged, prev) := trackDependencies props sys in
  let refetch := hasRelevantValueChanged && isEvaluated snapshot in
  let st2 := if refetch then setOptions (setIsEvaluated st1 false) [] else st1 in
  let timers2 :=
    if refetch
    then snd (callDebounced debouncedFetchOptions (st_value snapshot)
                            (clock sys) (nextTimerId sys) (timers sys))
    else timers sys in
  ({| state := st2;
      formValues := formValues sys;
      formValuesRef := ref;
      prevRelevantValuesRef := prev;
      initialFetchDeps := Some (initialFetchDepsOf props snapshot);
      timers := timers2;
      nextTimerId := if refetch then S (nextTimerId sys) else nextTimerId sys;
      inFlight := inFlight sys ++ requestsOf (st_value snapshot) effects1;
      clock := clock sys;
      log := log sys ++ stamp (clock sys) effects1 |},
   dirty1 || refetch).

(** Render until the state is stable; [None] when [fuel] renders were not
    enough. *)
Fixpoint settle (fuel : nat) (props : Props) (sys : System) : option System :=
  match fuel with
  | O => None
  | S fuel' =>
      let (sys', dirty) := commit props sys in
      if dirty then settle fuel' props sys' else Some sys'
  end.

Definition renderBudget : nat := 8.

Definition withState (sys : System) (st : State) : System :=
  {| state := st; formValues := formValues sys;
     formValuesRef := formValuesRef sys;
     prevRelevantValuesRef := prevRelevantValuesRef sys;
     initialFetchDeps := initialFetchDeps sys; timers := timers sys;
     nextTimerId := nextTimerId sys; inFlight := inFlight sys;
     clock := clock sys; log := log sys |}.

Definition mount (props : Props) (formValues0 : gmap string Value)
  : option System :=
  settle renderBudget props
    {| state := initialState props;
       formValues := formValues0;
       formValuesRef := formValues0;
       prevRelevantValuesRef := ∅;
       initialFetchDeps := None;
       timers := [];
       nextTimerId := 0%nat;
       inFlight := [];
       clock := 0%nat;
       log := [] |}.

(** A timer fires: its callback calls [fetchOptions]. *)
Definition fireTimer (props : Props) (t : Timer) (sys : System)
  : option System :=
  let '(st, effects) :=
    fetchOptions_start props (formValuesRef sys) (state sys) in
  settle renderBudget props
    {| state := st; formValues := formValues sys;
       formValuesRef := formValuesRef sys;
       prevRelevantValuesRef := prevRelevantValuesRef sys;
       initialFetchDeps := initialFetchDeps sys;
       timers := clearTimeout (timer_id t) (timers sys);
       nextTimerId := nextTimerId sys;
       inFlight := inFlight sys ++ requestsOf (timer_selected t) effects;
       clock := due t;
       log := log sys ++ stamp (due t) effects |}.

(** Time passes until [target]: the timers that are due fire one after the
    other, the oldest first. *)
Fixpoint advance (fuel : nat) (props : Props) (target : nat) (sys : System)
  : option System :=
  match List.find (fun t => Nat.leb (due t) target) (timers sys) with
  | None =>
      Some {| state := state sys; formValues := formValues sys;
              formValuesRef := formValuesRef sys;
              prevRelevantValuesRef := prevRelevantValuesRef sys;
              initialFetchDeps := initialFetchDeps sys; timers := timers sys;
              nextTimerId := nextTimerId sys; inFlight := inFlight sys;
              clock := target; log := log sys |}
  | Some t =>
      match fuel with
      | O => None
      | S fuel' =>
          match fireTimer props t sys with
          | Some sys' => advance fuel' props target sys'
          | None => None
          end
      end
  end.

Inductive Event :=
| FormValuesChanged (formValues : gmap string Value)
| Elapsed (ms : nat)
| FetchSettled (index : nat) (outcome : FetchOutcome)
| RadioChanged (newValue : string).

(** [handleValueChange], as far as the component's own state goes; what the
    parent's [onChange] does with the new value is the parent's affair. *)
Definition handleValueChange (st : State) (newValue : string) : State :=
  setIsValueInvalid (setValue st newValue) false.

Definition step (props : Props) (sys : System) (ev : Event) : option System :=
  match ev with
  | FormValuesChanged fv =>
      settle renderBudget props
        {| state := state sys; formValues := fv;
           formValuesRef := formValuesRef sys;
           prevRelevantValuesRef := prevRelevantValuesRef sys;
           initialFetchDeps := initialFetchDeps sys; timers := timers sys;
           nextTimerId := nextTimerId sys; inFlight := inFlight sys;
           clock := clock sys; log := log sys |}
  | Elapsed ms =>
      advance (S (length (timers sys))) props (clock sys + ms)%nat sys
  | FetchSettled index outcome =>
      match nth_error (inFlight sys) index with
      | None => Some sys
      | Some request =>
          let '(st, effects) :=
            fetchOptions_settle props (request_selected request) outcome
                                (state sys) in
          settle renderBudget props
            {| state := st; formValues := formValues sys;
               formValuesRef := formValuesRef sys;
               prevRelevantValuesRef := prevRelevantValuesRef sys;
               initialFetchDeps := initialFetchDeps sys; timers := timers sys;
               nextTimerId := nextTimerId sys;
               inFlight := take index (inFlight sys)
                           ++ drop (S index) (inFlight sys);
               clock := clock sys;
               log := log sys ++ stamp (clock sys) effects |}
      end
  | RadioChanged newValue =>
      settle renderBudget props
        (withState sys (handleValueChange (state sys) newValue))
  end.

Fixpoint run (props : Props) (sys : System) (events : list Event)
  : option System :=
  match events with
  | [] => Some sys
  | ev :: rest =>
      match step props sys ev with
      | Some sys' => run props sys' rest
      | None => None
      end
  end.

(** The times at which requests were issued. *)
Definition fetchTimes (sys : System) : list nat :=
  omap (fun entry : nat * Effect =>
          match snd entry with
          | FetchRequest _ => Some (fst entry)
          | SetError _ => None
          end) (log sys).

Definition fetchLog (sys : System) : list (nat * string) :=
  omap (fun entry : nat * Effect =>
          match snd entry with
          | FetchRequest url => Some (fst entry, url)
          | SetError _ => None
          end) (log sys).

(** The previous values hold the current value of a field. *)
Definition up_to_date (formValues prev : gmap string Value)
  (fieldName : string) : Prop :=
  strictEquals (getFieldValue formValues fieldName)
               (default VUndefined (prev !! fieldName)) = true.

(** The dependency effect finds nothing changed. *)
Definition tracked (props : Props) (sys : System) : Prop :=
  trackDependencies props sys = (false, prevRelevantValuesRef sys).




(** ** A group whose options depend on the field [environment] *)

Definition partitionProps : Props :=
  {| name := "partition"; options := None; value := None; isShown := None;
     retriever := None; retrieverPath := Some "retrievers/partitions.sh";
     retrieverParams := Some [("env", VString "$environment")];
     setError := true; curUrl := "https://portal.example.org/dashboard" |}.

Definition unconfiguredProps : Props :=
  {| name := "partition"; options := None; value := None; isShown := None;
     retriever := None; retrieverPath := None;
     retrieverParams := Some [("env", VString "$environment")];
     setError := true; curUrl := "https://portal.example.org/dashboard" |}.

Definition environmentIs (e : string) : gmap string Value :=
  {[ "environment" := VString e ]}.

(** ** A group with parameters of every kind *)

Definition mixedProps : Props :=
  {| name := "partition"; options := None; value := None; isShown := None;
     retriever := None; retrieverPath := Some "retrievers/partitions.sh";
     retrieverParams :=
       Some [("env", VString "$environment"); ("nodes", VNumber 4);
             ("exclusive", VBool true);
             ("limits", VObject 1 [("mem", VNumber 64)]);
             ("tags", VArray 2 [VString "a"; VNull]);
             ("queue", VString "$queue"); ("account", VNull);
             ("cores", VString "$cores"); ("label", VString "on call");
             ("walltime", VNumber (10 ^ 21))];
     setError := true; curUrl := "https://portal.example.org/dashboard" |}.

Definition mixedFormValues : gmap string Value :=
  <["cores" := VNumber 8]> (environmentIs "gpu").

Definition radioOption (v : string) : Value :=
  VObject 0 [("value", VString v); ("label", VString v);
             ("isDeprecated", VBool false)].

Definition optionsResponse (values : list string) : FetchOutcome :=
  Responded 200 (Normal (VArray 0 (map radioOption values))).

(** The group after its first request was answered and a second of quiet. *)
Definition evaluatedGroup : option System :=
  match mount partitionProps (environmentIs "gpu") with
  | Some sys =>
      run partitionProps sys
          [FetchSettled 0 (optionsResponse ["normal"; "debug"]); Elapsed 1000]
  | None => None
  end.

Definition after (events : list Event) : option System :=
  match evaluatedGroup with
  | Some sys => run partitionProps sys events
  | None => None
  end.

(** The state of a group that holds the selection "normal". *)
Definition groupWithSelection : State :=
  {| st_options := [radioOption "normal"; radioOption "debug"];
     st_value := "normal"; isLoading := true; isEvaluated := true;
     isValueInvalid := false |}.

End DynamicRadioGroup.



(* ===================================================================== *)
(** * JobComposer: the parts of a payload *)
(* ===================================================================== *)

Module Payload.
Import JS.
Import MultiPane.
Import Composer.

(** What one turn of either loop over the pane references does to the object
    of additional files. *)
Definition bundleStep (additional : Properties) (ref : PaneRef) : Properties :=
  match current ref with
  | None => additional
  | Some cur =>
      let name := getAttribute cur "name" in
      if isDistinguished name then additional
      else setProperty additional (propertyKey name) (VString (value cur))
  end.

Definition bundle (paneRefs : list PaneRef) : Properties :=
  fold_left bundleStep paneRefs [].

(** The field one pane reference appends to the form body in fresh mode. *)
Definition distinguishedField (ref : PaneRef) : FormData :=
  match current ref with
  | None => []
  | Some cur =>
      let name := getAttribute cur "name" in
      if isDistinguished name
      then [(propertyKey name, FDString (value cur))]
      else []
  end.

(** The field of the environment directory, when there is one. *)
Definition envField (c : State) : FormData :=
  match environment c with
  | Some e => if truthy (src e) then [("env_dir", fieldValue (src e))] else []
  | None => []
  end.

(** The fields of the attached files. *)
Definition fileFields (c : State) : FormData :=
  match globalFiles c with
  | Some (_, files) => map (fun file => ("files[]", fieldValue file)) files
  | None => []
  end.

(** An object has each property once. *)
Definition wellFormed (props : Properties) : Prop :=
  List.NoDup (map fst props).

(** The field the rerun payload holds for an entry of the record: none for
    an array (its items go under another name), for undefined and for
    null. *)
Definition recordField (entry : option Value) : option FormDataValue :=
  match entry with
  | None => None
  | Some (VFile r f) => Some (FDFile r f)
  | Some (VArray _ _) => None
  | Some VUndefined => None
  | Some VNull => None
  | Some v => Some (FDString (toString v))
  end.

(** The keys the rerun branch writes to. *)
Definition isWrittenKey (key : string) : bool :=
  isDistinguishedKey key || String.eqb key "additional_files"
  || String.eqb key "files".

(** A rerun of a job whose record has no name. *)
Definition rerunUnnamed : State :=
  {| status := "idle"; jobStatus := Some "rerun";
     rerunInfo := [("location", VString "/scratch/job-17")];
     globalFiles := None; environment := None;
     multiPane := Some (Some examplePanes);
     formFields := []; formAction := Some "/jobs/composer/submit" |}.

(** A rerun of a job whose record holds numbers, a boolean and null. *)
Definition rerunWithNumbers : State :=
  {| status := "idle"; jobStatus := Some "rerun";
     rerunInfo := [("name", VString "job-17"); ("nodes", VNumber 4);
                   ("walltime", VNumber (10 ^ 21)); ("exclusive", VBool true);
                   ("account", VNull);
                   ("limits", VObject 5 [("mem", VNumber 64)])];
     globalFiles := None; environment := None;
     multiPane := Some (Some examplePanes);
     formFields := []; formAction := Some "/jobs/composer/submit" |}.

(** A fresh submission with a pane named [__proto__]. *)
Definition freshWithProtoPane : State :=
  {| status := "idle"; jobStatus := None;
     rerunInfo := []; globalFiles := None; environment := None;
     multiPane := Some (Some panesWithProto);
     formFields := [("name", FDString "job-18")];
     formAction := Some "/jobs/composer/submit" |}.

(** A submission while the editor is not mounted. *)
Definition editorNotMounted : State :=
  {| status := "idle"; jobStatus := None;
     rerunInfo := []; globalFiles := None; environment := None;
     multiPane := None;
     formFields := [("name", FDString "job-18")];
     formAction := Some "/jobs/composer/submit" |}.

(** A fresh submission with a form, an environment and one attached file. *)
Definition freshSubmission : State :=
  {| status := "idle"; jobStatus := None;
     rerunInfo := []; 
     globalFiles := Some (7%nat, [VFile 3 "input.dat"]);
     environment := Some {| env := "Generic"; src := VString "/envs/generic" |};
     multiPane := Some (Some examplePanes);
     formFields := [("name", FDString "job-18"); ("location", FDString "/scratch")];
     formAction := Some "/jobs/composer/submit" |}.

End Payload.

(* ===================================================================== *)
(** * DynamicRadioGroup: what is rendered, and runs of events *)
(* ===================================================================== *)

Module RadioGroupRuns.
Import JS.
Import DynamicRadioGroup.

(** One radio button with its label. *)
Record Radio := mkRadio {
  radio_id : string;
  radio_value : Value;
  radio_checked : bool;
  radio_disabled : bool;
  radio_label : Value
}.

(** What the group shows in place of its buttons. *)
Inductive Body :=
| LoadingOptions
| NoOptionsAvailable
| Buttons (radios : list Radio).

Record View := mkView {
  body : Body;
  invalidMessage : bool
}.

(** The button of one option. *)
Definition renderOption (props : Props) (st : State) (option : Value)
  : Completion Radio :=
  match getProperty option "value" with
  | Throw e => Throw e
  | Normal v =>
      match getProperty option "isDeprecated" with
      | Throw e => Throw e
      | Normal deprecated =>
          match getProperty option "label" with
          | Throw e => Throw e
          | Normal label =>
              Normal {| radio_id := name props +:+ "-" +:+ toString v;
                        radio_value := v;
                        radio_checked := strictEquals (VString (st_value st)) v;
                        radio_disabled := truthy deprecated;
                        radio_label := label |}
          end
      end
  end.

(** [options.map(...)] *)
Fixpoint renderOptions (props : Props) (st : State) (options : list Value)
  : Completion (list Radio) :=
  match options with
  | [] => Normal []
  | o :: rest =>
      match renderOption props st o with
      | Throw e => Throw e
      | Normal radio =>
          match renderOptions props st rest with
          | Throw e => Throw e
          | Normal radios => Normal (radio :: radios)
          end
      end
  end.

(** What the component returns from a render. *)
Definition render (props : Props) (st : State) : Completion View :=
  if isLoading st
  then Normal {| body := LoadingOptions; invalidMessage := isValueInvalid st |}
  else if Nat.eqb (length (st_options st)) 0 && isEvaluated st
  then Normal {| body := NoOptionsAvailable;
                 invalidMessage := isValueInvalid st |}
  else
    match renderOptions props st (st_options st) with
    | Throw e => Throw e
    | Normal radios =>
        Normal {| body := Buttons radios; invalidMessage := isValueInvalid st |}
    end.

(** Whether an option carries a given selection. *)
Definition carries (selected : string) (option : Value) : bool :=
  match getProperty option "value" with
  | Normal v => strictEquals v (VString selected)
  | Throw _ => false
  end.

(** Whether the dependency effect of this render starts a refetch. *)
Definition refetches (props : Props) (sys : System) : bool :=
  fst (trackDependencies props sys) && isEvaluated (state sys).

(** The state the effect of the initial fetch leaves, and what it does. *)
Definition afterInitialFetch (props : Props) (sys : System)
  : State * list Effect :=
  if initialFetchRuns props sys
  then fetchOptions_start props (formValues sys) (state sys)
  else (state sys, []).

(** The component is at rest: the dependency effect finds nothing changed,
    the effect of the initial fetch has seen the present state, and the held
    reference is up to date. *)
Definition rested (props : Props) (sys : System) : Prop :=
  tracked props sys
  /\ initialFetchDeps sys = Some (initialFetchDepsOf props (state sys))
  /\ formValuesRef sys = formValues sys.

(** The component after it was mounted and a sequence of events. *)
Definition history (props : Props) (formValues0 : gmap string Value)
  (events : list Event) : option System :=
  match mount props formValues0 with
  | Some sys => run props sys events
  | None => None
  end.

(** The request [fetchOptions] issues for given FormValues. *)
Definition requestFor (props : Props) (path : string)
  (formValues : gmap string Value) : Effect :=
  FetchRequest (requestUrl props path (buildParams props formValues)).

(** The number of occurrences of a character in a string. *)
Fixpoint occurrences (c : ascii) (s : string) : nat :=
  match s with
  | EmptyString => 0%nat
  | String a rest =>
      ((if Ascii.eqb a c then 1 else 0) + occurrences c rest)%nat
  end.

(** The part of the request address after the question mark. *)
Definition queryOf (path : string) (params : URLSearchParams) : string :=
  "retriever_path=" +:+ encodeURIComponent path
    +:+ (if String.eqb (URLSearchParams_toString params) "" then ""
         else "&" +:+ URLSearchParams_toString params).

(** A group that is not shown. *)
Definition hiddenProps : Props :=
  {| name := "partition"; options := None; value := None;
     isShown := Some false;
     retriever := None; retrieverPath := Some "retrievers/partitions.sh";
     retrieverParams := Some [("env", VString "$environment")];
     setError := true; curUrl := "https://portal.example.org/dashboard" |}.

End RadioGroupRuns.

(* ===================================================================== *)
(** * MultiPaneTextArea: editing, the active pane, highlighting *)
(* ===================================================================== *)

Module Editing.
Import MultiPane.

Definition set_content (pane : Pane) (newContent : string) : Pane :=
  {| name := name pane; preview_name := preview_name pane;
     order := order pane; content := Some newContent |}.

(** [Array.prototype.findIndex]; [None] stands for -1. *)
Fixpoint findIndex {A : Type} (f : A -> bool) (l : list A) : option nat :=
  match l with
  | [] => None
  | x :: l' =>
      if f x then Some 0%nat
      else match findIndex f l' with
           | Some i => Some (S i)
           | None => None
           end
  end.

(** The function [handleContentChange] hands to [setPanes]: the pane list
    with the content of the first pane of the given name replaced. *)
Definition commitContent (currentPanes : list Pane) (paneName : string)
  (newContent : string) : list Pane :=
  match findIndex (fun p => String.eqb (name p) paneName) currentPanes with
  | Some originalIndex =>
      match currentPanes !! originalIndex with
      | Some p => <[originalIndex := set_content p newContent]> currentPanes
      | None => currentPanes
      end
  | None => currentPanes
  end.

(** Two panes that differ at most in their content. *)
Definition sameButContent (p q : Pane) : Prop :=
  name q = name p /\ order q = order p /\ preview_name q = preview_name p.

(** The same replacement, pane by pane. *)
Definition withContent (paneName newContent : string) (p : Pane) : Pane :=
  if String.eqb (name p) paneName then set_content p newContent else p.

(** A pending content update: the timer [handleContentChange] armed for the
    editor at [edit_index], with the pane that editor showed in the render of
    the call and the text to commit.  Timer identifiers are positive
    numbers, so a stored identifier is truthy. *)
Record EditTimer := mkEditTimer {
  edit_id : nat;
  edit_due : nat;
  edit_index : nat;
  edit_pane : Pane;
  edit_content : string
}.

(** What the editor tells the outside: the pane list after a commit, and a
    call of the [onChange] of a pane. *)
Inductive EditEffect :=
| SetPanes (paneName : string) (newContent : string)
| PaneOnChange (paneName : string) (newContent : string).

(** The editor with the pane list its parent owns.  [timeoutsRef] is the
    object [contentUpdateTimeoutsRef.current], from editor index to timer
    identifier. *)
Record Editor := mkEditor {
  panes : list Pane;
  pending : list EditTimer;
  timeoutsRef : gmap nat nat;
  nextEditId : nat;
  editClock : nat;
  editLog : list (nat * EditEffect)
}.

Definition contentDelay : nat := 300.

Definition cancelEdit (id : nat) (ts : list EditTimer) : list EditTimer :=
  List.filter (fun t => negb (Nat.eqb (edit_id t) id)) ts.

(** [handleContentChange(index, newContent)], called by the editor of the
    pane that the present render shows at [index]; there is no editor, and
    so no call, for an index beyond the sorted panes. *)
Definition handleContentChange (index : nat) (newContent : string)
  (ed : Editor) : Editor :=
  match getSortedPanes (Some (panes ed)) !! index with
  | None => ed
  | Some pane =>
      let cleared :=
        match timeoutsRef ed !! index with
        | Some id => cancelEdit id (pending ed)
        | None => pending ed
        end in
      {| panes := panes ed;
         pending := cleared ++ [{| edit_id := nextEditId ed;
                                   edit_due := (editClock ed + contentDelay)%nat;
                                   edit_index := index;
                                   edit_pane := pane;
                                   edit_content := newContent |}];
         timeoutsRef := <[index := nextEditId ed]> (timeoutsRef ed);
         nextEditId := S (nextEditId ed);
         editClock := editClock ed;
         editLog := editLog ed |}
  end.

(** Whether a pane carries an [onChange] callback is not part of the pane
    record; it is given beside it. *)
Definition fireEdit (hasOnChange : Pane -> bool) (ed : Editor) (t : EditTimer)
  : Editor :=
  {| panes := commitContent (panes ed) (name (edit_pane t)) (edit_content t);
     pending := cancelEdit (edit_id t) (pending ed);
     timeoutsRef := delete (edit_index t) (timeoutsRef ed);
     nextEditId := nextEditId ed;
     editClock := edit_due t;
     editLog :=
       editLog ed
       ++ (edit_due t, SetPanes (name (edit_pane t)) (edit_content t))
       :: (if hasOnChange (edit_pane t)
           then [(edit_due t,
                  PaneOnChange (name (edit_pane t)) (edit_content t))]
           else []) |}.

(** Time passes: the timers that are due fire, the oldest first. *)
Definition elapse (hasOnChange : Pane -> bool) (ms : nat) (ed : Editor)
  : Editor :=
  let target := (editClock ed + ms)%nat in
  let fired :=
    fold_left (fireEdit hasOnChange)
              (List.filter (fun t => Nat.leb (edit_due t) target) (pending ed))
              ed in
  {| panes := panes fired; pending := pending fired;
     timeoutsRef := timeoutsRef fired; nextEditId := nextEditId fired;
     editClock := target; editLog := editLog fired |}.

Inductive EditEvent :=
| Typed (index : nat) (newContent : string)
| Waited (ms : nat).

Definition editStep (hasOnChange : Pane -> bool) (ed : Editor)
  (ev : EditEvent) : Editor :=
  match ev with
  | Typed index newContent => handleContentChange index newContent ed
  | Waited ms => elapse hasOnChange ms ed
  end.

Definition editRun (hasOnChange : Pane -> bool) (ed : Editor)
  (events : list EditEvent) : Editor :=
  fold_left (editStep hasOnChange) events ed.

(** An editor nobody has typed into. *)
Definition freshEditor (ps : list Pane) : Editor :=
  {| panes := ps; pending := []; timeoutsRef := ∅; nextEditId := 1;
     editClock := 0; editLog := [] |}.

(** Keystrokes into one editor, each after a pause. *)
Definition keystrokes (index : nat) (more : list (nat * string))
  : list EditEvent :=
  flat_map (fun pause_text : nat * string =>
              [Waited (fst pause_text); Typed index (snd pause_text)]) more.

(** The text of the last keystroke. *)
Definition lastText (first : string) (more : list (nat * string)) : string :=
  List.last (map snd more) first.

(** The time of the last keystroke, counted from the first. *)
Definition typingTime (more : list (nat * string)) : nat :=
  list_sum (map fst more).

(** ** The active pane *)

(** The state variable [activePane] with what the two effects that watch it
    saw last. *)
Record ActiveState := mkActiveState {
  activePane : nat;
  seenByParentSync : option (option nat * nat);
  seenByBoundsCheck : option (nat * nat)
}.

Definition sameOptNat (a b : option nat) : bool :=
  match a, b with
  | Some x, Some y => Nat.eqb x y
  | None, None => true
  | _, _ => false
  end.

(** One render with the two effects, in the order of their declaration;
    both see the [activePane] of the render, and of two calls of
    [setActivePane] the later one stands.  The result tells whether the state
    changed. *)
Definition commitActive (propActivePane : option nat) (sortedLength : nat)
  (s : ActiveState) : ActiveState * bool :=
  let active := activePane s in
  let runSync :=
    match seenByParentSync s with
    | Some (p, a) => negb (sameOptNat p propActivePane && Nat.eqb a active)
    | None => true
    end in
  let runBounds :=
    match seenByBoundsCheck s with
    | Some (a, n) => negb (Nat.eqb a active && Nat.eqb n sortedLength)
    | None => true
    end in
  let afterSync :=
    match propActivePane with
    | Some p => if runSync && negb (Nat.eqb p active) then p else active
    | None => active
    end in
  let afterBounds :=
    if runBounds && Nat.leb sortedLength active
       && Nat.ltb 0 sortedLength
    then 0%nat else afterSync in
  ({| activePane := afterBounds;
      seenByParentSync := Some (propActivePane, active);
      seenByBoundsCheck := Some (active, sortedLength) |},
   negb (Nat.eqb afterBounds active)).

Fixpoint settleActive (fuel : nat) (propActivePane : option nat)
  (sortedLength : nat) (s : ActiveState) : option ActiveState :=
  match fuel with
  | O => None
  | S fuel' =>
      let (s', dirty) := commitActive propActivePane sortedLength s in
      if dirty then settleActive fuel' propActivePane sortedLength s'
      else Some s'
  end.

Definition mountedActive : ActiveState :=
  {| activePane := 0; seenByParentSync := None; seenByBoundsCheck := None |}.

(** ** Highlighting *)

Inductive Language := Python | Markdown | Json | Shell.

(** [String.prototype.toLowerCase] for a name written in ASCII: the letters
    A to Z are mapped and every other character stands as it is.  Letters
    beyond ASCII, which the method maps as well, are not modelled. *)
Definition lowerChar (c : ascii) : ascii :=
  let n := N_of_ascii c in
  if ((65 <=? n) && (n <=? 90))%N then ascii_of_N (n + 32) else c.

Fixpoint toLowerCase (s : string) : string :=
  match s with
  | EmptyString => EmptyString
  | String c rest => String (lowerChar c) (toLowerCase rest)
  end.

(** [s.endsWith(suffix)] *)
Fixpoint endsWith (suffix s : string) : bool :=
  String.eqb s suffix
  || match s with
     | EmptyString => false
     | String _ rest => endsWith suffix rest
     end.

(** [s.includes(part)] *)
Fixpoint includes (part s : string) : bool :=
  String.prefix part s
  || match s with
     | EmptyString => false
     | String _ rest => includes part rest
     end.

Definition getLanguageExtension (name : option string) : Language :=
  match name with
  | None => Shell
  | Some EmptyString => Shell
  | Some n =>
      let lowerName := toLowerCase n in
      if endsWith ".py" lowerName || includes "python" lowerName then Python
      else if endsWith ".md" lowerName || endsWith ".markdown" lowerName
      then Markdown
      else if endsWith ".json" lowerName then Json
      else Shell
  end.

(** ** What holds of the timers all along *)

(** Every pending timer is the one registered for its editor, under an
    identifier that has been handed out, and no identifier is pending
    twice. *)
Definition registered (ed : Editor) : Prop :=
  (forall t, In t (pending ed) ->
     timeoutsRef ed !! edit_index t = Some (edit_id t)
     /\ (edit_id t < nextEditId ed)%nat)
  /\ List.NoDup (map edit_id (pending ed)).

(** [handlePaneChange(index)] *)
Definition handlePaneChange (index : nat) (s : ActiveState) : ActiveState :=
  {| activePane := index;
     seenByParentSync := seenByParentSync s;
     seenByBoundsCheck := seenByBoundsCheck s |}.

(** The two states a controlled editor alternates between when the parent
    asks for a pane that is not there. *)
Definition askedPane (p sortedLength : nat) : ActiveState :=
  {| activePane := p;
     seenByParentSync := Some (Some p, 0%nat);
     seenByBoundsCheck := Some (0%nat, sortedLength) |}.

Definition firstPane (p sortedLength : nat) : ActiveState :=
  {| activePane := 0;
     seenByParentSync := Some (Some p, p);
     seenByBoundsCheck := Some (p, sortedLength) |}.

End Editing.

(* ===================================================================== *)
(** * The registry of form elements *)
(* ===================================================================== *)

Module Registry.

Inductive Component :=
| Text | Select | Number | Checkbox | RowContainer | RadioGroup | Picker
| Uploader | Time | Module_ | Unit | UnknownElement | DynamicSelect
| TextArea | StaticText | AutocompleteSelect | CollapsibleRowContainer
| CollapsibleColContainer | DragDropContainer.

Definition componentsMap : list (string * Component) :=
  [ ("text", Text); ("select", Select); ("number", Number);
    ("checkbox", Checkbox); ("rowContainer", RowContainer);
    ("radioGroup", RadioGroup); ("picker", Picker); ("uploader", Uploader);
    ("time", Time); ("module", Module_); ("unit", Unit);
    ("dynamicSelect", DynamicSelect); ("textarea", TextArea);
    ("staticText", StaticText); ("autocompleteSelect", AutocompleteSelect);
    ("collapsibleRowContainer", CollapsibleRowContainer);
    ("collapsibleColContainer", CollapsibleColContainer);
    ("dragDropContainer", DragDropContainer) ].

Definition Containers : list string :=
  [ "rowContainer"; "collapsibleRowContainer"; "collapsibleColContainer";
    "dragDropContainer" ].

(** [componentsMap[type]] *)
Fixpoint lookupComponent (map : list (string * Component)) (type : string)
  : option Component :=
  match map with
  | [] => None
  | (k, c) :: rest =>
      if String.eqb k type then Some c else lookupComponent rest type
  end.

(** The components imported from the modules [RowContainer],
    [CollapsibleContainer] and [DragDropContainer]. *)
Definition isContainerComponent (c : Component) : bool :=
  match c with
  | RowContainer | CollapsibleRowContainer | CollapsibleColContainer
  | DragDropContainer => true
  | _ => false
  end.

End Registry.

(* ===================================================================== *)
(** * Properties of pane ordering *)
(* ===================================================================== *)

Module MultiPaneFacts.
Import MultiPane.

Section SortByOrder.

Local Abbreviation sort := (js_sort compareOrder).
Local Abbreviation insert := (insert_by compareOrder).

Lemma insert_In (x y : Pane) (l : list Pane) :
  In y (insert x l) <-> y = x \/ In y l.
Proof.
  induction l as [|z l IH]; simpl.
  - intuition congruence.
  - destruct (compareOrder x z <=? 0); simpl; [intuition congruence|].
    rewrite IH. intuition congruence.
Qed.

Lemma sort_In (y : Pane) (l : list Pane) : In y (sort l) <-> In y l.
Proof.
  induction l as [|x l IH]; simpl; [tauto|].
  rewrite insert_In, IH. intuition congruence.
Qed.

Lemma insert_Permutation (x : Pane) (l : list Pane) :
  Permutation (insert x l) (x :: l).
Proof.
  induction l as [|z l IH]; simpl; [reflexivity|].
  destruct (compareOrder x z <=? 0); [reflexivity|].
  rewrite IH. apply perm_swap.
Qed.

Lemma sort_Permutation (l : list Pane) : Permutation (sort l) l.
Proof.
  induction l as [|x l IH]; simpl; [reflexivity|].
  rewrite insert_Permutation. now apply perm_skip.
Qed.

Lemma insert_sorted (x : Pane) (l : list Pane) :
  StronglySorted order_le l -> StronglySorted order_le (insert x l).
Proof.
  induction 1 as [|z l Hs IH Hall]; simpl.
  - repeat constructor.
  - destruct (compareOrder x z <=? 0) eqn:E.
    + apply Z.leb_le in E. unfold compareOrder in E.
      constructor; [now constructor|].
      constructor; [unfold order_le; lia|].
      eapply List.Forall_impl; [|exact Hall].
      unfold order_le. intros; lia.
    + apply Z.leb_gt in E. unfold compareOrder in E.
      constructor; [exact IH|].
      apply List.Forall_forall. intros y Hy. rewrite insert_In in Hy.
      destruct Hy as [->|Hy]; [unfold order_le; lia|].
      rewrite List.Forall_forall in Hall. now apply Hall.
Qed.

Lemma sort_sorted (l : list Pane) : StronglySorted order_le (sort l).
Proof.
  induction l as [|x l IH]; simpl; [constructor|].
  now apply insert_sorted.
Qed.

(** Stability: among the panes of one order value nothing moves. *)
Lemma insert_hasOrder (k : Z) (x : Pane) (l : list Pane) :
  List.filter (hasOrder k) (insert x l) =
  List.filter (hasOrder k) (x :: l).
Proof.
  induction l as [|z l IH]; [reflexivity|].
  cbn [insert_by]. destruct (compareOrder x z <=? 0) eqn:E; [reflexivity|].
  apply Z.leb_gt in E. unfold compareOrder in E.
  cbn [List.filter] in *. rewrite IH.
  unfold hasOrder.
  destruct (order x =? k) eqn:Ex, (order z =? k) eqn:Ez; try reflexivity.
  apply Z.eqb_eq in Ex, Ez. lia.
Qed.

Lemma sort_stable (k : Z) (l : list Pane) :
  List.filter (hasOrder k) (sort l) = List.filter (hasOrder k) l.
Proof.
  induction l as [|x l IH]; [reflexivity|].
  cbn [js_sort fold_right]. rewrite insert_hasOrder.
  cbn [List.filter]. fold (sort l). now rewrite IH.
Qed.

Lemma sort_of_sorted (l : list Pane) :
  StronglySorted order_le l -> sort l = l.
Proof.
  induction 1 as [|x l Hs IH Hall]; [reflexivity|].
  cbn [js_sort fold_right]. fold (sort l). rewrite IH.
  destruct l as [|y l]; [reflexivity|]. simpl.
  inversion Hall as [|? ? Hxy _]; subst. unfold order_le in Hxy.
  unfold compareOrder.
  destruct (order x - order y <=? 0) eqn:E; [reflexivity|].
  apply Z.leb_gt in E. lia.
Qed.

(** Inserting below a block of panes of larger or equal order leaves the
    block alone; inserting above a block of strictly smaller order walks
    past it. *)
Lemma insert_app_low (x : Pane) (lo hi : list Pane) :
  Forall (fun y => order x <= order y) hi ->
  insert x (lo ++ hi) = insert x lo ++ hi.
Proof.
  intros Hhi. induction lo as [|z lo IH]; simpl.
  - destruct hi as [|y hi]; [reflexivity|]. simpl.
    inversion Hhi; subst. unfold compareOrder.
    destruct (order x - order y <=? 0) eqn:E; [reflexivity|].
    apply Z.leb_gt in E. lia.
  - destruct (compareOrder x z <=? 0); [reflexivity|].
    now rewrite IH.
Qed.

Lemma insert_app_high (x : Pane) (lo hi : list Pane) :
  Forall (fun y => order y < order x) lo ->
  insert x (lo ++ hi) = lo ++ insert x hi.
Proof.
  induction 1 as [|z lo Hz Hlo IH]; [reflexivity|]. simpl.
  unfold compareOrder at 1.
  destruct (order x - order z <=? 0) eqn:E.
  - apply Z.leb_le in E. lia.
  - now rewrite IH.
Qed.

Lemma sort_split (t : Z) (l : list Pane) :
  sort l = sort (List.filter (below t) l) ++ sort (List.filter (atLeast t) l).
Proof.
  induction l as [|x l IH]; [reflexivity|].
  change (sort (x :: l)) with (insert x (sort l)). rewrite IH.
  cbn [List.filter]. unfold atLeast at 2.
  destruct (below t x) eqn:E; unfold below in E; rewrite E; cbn [negb].
  - change (sort (x :: List.filter (below t) l))
      with (insert x (sort (List.filter (below t) l))).
    apply Z.ltb_lt in E. apply insert_app_low.
    apply List.Forall_forall. intros y Hy.
    rewrite sort_In, filter_In in Hy. destruct Hy as [_ Hy].
    unfold atLeast in Hy.
    apply negb_true_iff, Z.ltb_ge in Hy. lia.
  - change (sort (x :: List.filter (atLeast t) l))
      with (insert x (sort (List.filter (atLeast t) l))).
    apply Z.ltb_ge in E. apply insert_app_high.
    apply List.Forall_forall. intros y Hy.
    rewrite sort_In, filter_In in Hy. destruct Hy as [_ Hy].
    unfold below in Hy.
    apply Z.ltb_lt in Hy. lia.
Qed.

End SortByOrder.

Lemma filter_filter_comm {A : Type} (f g : A -> bool) (l : list A) :
  List.filter f (List.filter g l) = List.filter g (List.filter f l).
Proof.
  induction l as [|x l IH]; [reflexivity|]. simpl.
  destruct (f x) eqn:Ef, (g x) eqn:Eg; simpl; rewrite ?Ef, ?Eg, IH; reflexivity.
Qed.

Lemma filter_sorted (f : Pane -> bool) (l : list Pane) :
  StronglySorted order_le l -> StronglySorted order_le (List.filter f l).
Proof.
  induction 1 as [|x l Hs IH Hall]; simpl; [constructor|].
  destruct (f x); [|exact IH].
  constructor; [exact IH|].
  apply List.Forall_forall. intros y Hy. apply filter_In in Hy.
  rewrite List.Forall_forall in Hall. now apply Hall.
Qed.

Lemma normalizePane_zero (p : Pane) (index : nat) :
  order p = 0 ->
  order (normalizePane p index) = zeroOrderIndex + Z.of_nat index.
Proof. intros H. unfold normalizePane. now rewrite H. Qed.

Lemma normalizePane_nonzero (p : Pane) (index : nat) :
  order p <> 0 -> normalizePane p index = p.
Proof.
  intros H. unfold normalizePane.
  destruct (order p =? 0) eqn:E; [|reflexivity].
  apply Z.eqb_eq in E. contradiction.
Qed.

Lemma zeroOrderPanes_from_bound (index : nat) (ps : list Pane) :
  Forall (fun q => zeroOrderIndex + Z.of_nat index <= order q)
         (zeroOrderPanes_from index ps).
Proof.
  revert index. induction ps as [|p ps IH]; intros index; simpl; [constructor|].
  assert (Hrest : Forall (fun q => zeroOrderIndex + Z.of_nat index <= order q)
                         (zeroOrderPanes_from (S index) ps)).
  { eapply List.Forall_impl; [|apply IH]. simpl. intros q Hq. lia. }
  destruct (order p =? 0) eqn:E; [|exact Hrest].
  apply Z.eqb_eq in E. constructor; [|exact Hrest].
  rewrite normalizePane_zero by exact E. lia.
Qed.

Lemma zeroOrderPanes_from_sorted (index : nat) (ps : list Pane) :
  StronglySorted order_le (zeroOrderPanes_from index ps).
Proof.
  revert index. induction ps as [|p ps IH]; intros index; simpl; [constructor|].
  destruct (order p =? 0) eqn:E; [|apply IH].
  apply Z.eqb_eq in E. constructor; [apply IH|].
  eapply List.Forall_impl; [|apply (zeroOrderPanes_from_bound (S index))].
  simpl. intros q Hq. unfold order_le.
  rewrite normalizePane_zero by exact E. lia.
Qed.

Lemma below_normalizePane (p : Pane) (index : nat) :
  order p < zeroOrderIndex ->
  below zeroOrderIndex (normalizePane p index) = hasNonZeroOrder p.
Proof.
  intros Hp. unfold below, hasNonZeroOrder.
  destruct (order p =? 0) eqn:E.
  - apply Z.eqb_eq in E. rewrite normalizePane_zero by exact E.
    apply Z.ltb_ge. lia.
  - apply Z.eqb_neq in E. rewrite normalizePane_nonzero by exact E.
    now apply Z.ltb_lt.
Qed.

Lemma atLeast_normalizePane (p : Pane) (index : nat) :
  order p < zeroOrderIndex ->
  atLeast zeroOrderIndex (normalizePane p index) = (order p =? 0).
Proof.
  intros Hp. unfold atLeast.
  destruct (order p =? 0) eqn:E.
  - apply Z.eqb_eq in E. rewrite normalizePane_zero by exact E.
    apply negb_true_iff, Z.ltb_ge. lia.
  - apply Z.eqb_neq in E. rewrite normalizePane_nonzero by exact E.
    apply negb_false_iff. now apply Z.ltb_lt.
Qed.

Section SmallOrders.

Variable ps0 : list Pane.
Hypothesis small : forall p, In p ps0 -> order p < zeroOrderIndex.

Lemma normalized_below (index : nat) (ps : list Pane) :
  (forall p, In p ps -> In p ps0) ->
  List.filter (below zeroOrderIndex) (mapi_from normalizePane index ps) =
  List.filter hasNonZeroOrder ps.
Proof.
  revert index. induction ps as [|p ps IH]; intros index Hin; [reflexivity|].
  cbn [mapi_from List.filter]. rewrite IH by (intros; apply Hin; now right).
  rewrite below_normalizePane by (apply small, Hin; now left).
  destruct (hasNonZeroOrder p) eqn:E; [|reflexivity].
  unfold hasNonZeroOrder in E. apply negb_true_iff, Z.eqb_neq in E.
  now rewrite normalizePane_nonzero.
Qed.

Lemma normalized_atLeast (index : nat) (ps : list Pane) :
  (forall p, In p ps -> In p ps0) ->
  List.filter (atLeast zeroOrderIndex) (mapi_from normalizePane index ps) =
  zeroOrderPanes_from index ps.
Proof.
  revert index. induction ps as [|p ps IH]; intros index Hin; [reflexivity|].
  cbn [mapi_from List.filter zeroOrderPanes_from].
  rewrite IH by (intros; apply Hin; now right).
  rewrite atLeast_normalizePane by (apply small, Hin; now left).
  reflexivity.
Qed.

End SmallOrders.

Lemma zeroOrderPanes_included (ps : list Pane) :
  List.filter isIncluded (zeroOrderPanes ps) = zeroOrderPanes ps.
Proof.
  unfold zeroOrderPanes.
  pose proof (zeroOrderPanes_from_bound 0 ps) as H.
  induction H as [|q l Hq _ IH]; [reflexivity|]. simpl.
  unfold isIncluded at 1.
  destruct (order q =? -1) eqn:E.
  - apply Z.eqb_eq in E. unfold zeroOrderIndex in Hq. lia.
  - simpl. now rewrite IH.
Qed.

Lemma mapi_from_In_nonzero (index : nat) (ps : list Pane) (p : Pane) :
  In p ps -> order p <> 0 -> In p (mapi_from normalizePane index ps).
Proof.
  revert index. induction ps as [|q ps IH]; intros index Hin Hnz; [easy|].
  simpl. destruct Hin as [->|Hin].
  - left. now apply normalizePane_nonzero.
  - right. now apply IH.
Qed.

Lemma mapi_from_In_at (index i : nat) (ps : list Pane) (p : Pane) :
  nth_error ps i = Some p ->
  In (normalizePane p (index + i)) (mapi_from normalizePane index ps).
Proof.
  revert index i. induction ps as [|q ps IH]; intros index i Hi.
  - destruct i; discriminate.
  - destruct i as [|i]; simpl in Hi.
    + injection Hi as ->. left. f_equal. lia.
    + right. replace (index + S i)%nat with (S index + i)%nat by lia.
      now apply IH.
Qed.

Example getSortedPanes_zero_before_large :
  getSortedPanes (Some [paneA; paneB]) = [set_order paneA 10000; paneB].
Proof. reflexivity. Qed.

Example getSortedPanes_small_orders :
  getSortedPanes (Some [paneA; paneHidden; paneDriver]) =
  [paneDriver; set_order paneA 10000].
Proof. reflexivity. Qed.

(** C3, as stated, fails: a zero-order pane receives order
    [10000 + index], so a pane whose own order is larger is sorted after it
    and the zero-order pane is not last. *)
Lemma C3_zero_order_not_always_last :
  ~ zero_order_placed_last [paneA; paneB].
Proof.
  intros [front H]. vm_compute in H.
  destruct front as [|x [|y front]]; [discriminate H| |].
  - injection H as _ H. discriminate H.
  - destruct front; discriminate H.
Qed.

(** C3 (amended): for every pane list, [getSortedPanes] yields the panes in
    ascending effective order, where a pane of order 0 has effective order
    [10000 + array index]; panes of equal effective order keep their array
    order (stability); exactly the panes of order -1 are dropped, from the
    sorted list that is rendered and from the snapshot [getPaneRefs] alike;
    and when every order in the list is below 10000 the zero-order panes
    close the list in array order, after all the other panes. *)
Theorem C3_getSortedPanes_order (ps : list Pane) :
  let sorted := getSortedPanes (Some ps) in
  let normalized := mapi_from normalizePane 0 ps in
  StronglySorted order_le sorted
  /\ (forall k, List.filter (hasOrder k) sorted =
                List.filter (hasOrder k) (List.filter isIncluded normalized))
  /\ Permutation sorted (List.filter isIncluded normalized)
  /\ (forall p, In p sorted -> order p <> -1)
  /\ (forall p, In p ps -> order p <> 0 -> order p <> -1 -> In p sorted)
  /\ (forall i p, nth_error ps i = Some p -> order p = 0 ->
                  In (set_order p (zeroOrderIndex + Z.of_nat i)) sorted)
  /\ getPaneRefs (Some ps) =
       map (fun p => {| current := Some {| elem_pane_name := name p;
                                           value := contentOrEmpty p |} |})
           sorted
  /\ ((forall p, In p ps -> order p < zeroOrderIndex) ->
      sorted =
        List.filter isIncluded
          (js_sort compareOrder (List.filter hasNonZeroOrder ps))
        ++ zeroOrderPanes ps).
Proof.
  cbv zeta. unfold getSortedPanes.
  set (normalized := mapi_from normalizePane 0 ps).
  repeat split.
  - apply filter_sorted, sort_sorted.
  - intros k. rewrite filter_filter_comm, sort_stable.
    apply filter_filter_comm.
  - induction (sort_Permutation normalized) as [|x l l' _ IH|x y l|l l' l'' _ IH1 _ IH2];
      simpl.
    + constructor.
    + destruct (isIncluded x); [now constructor|exact IH].
    + destruct (isIncluded x), (isIncluded y);
        try reflexivity; apply perm_swap.
    + now transitivity (List.filter isIncluded l').
  - intros p Hp. apply filter_In in Hp. destruct Hp as [_ Hp].
    unfold isIncluded in Hp. apply negb_true_iff, Z.eqb_neq in Hp. exact Hp.
  - intros p Hp Hnz Hinc. apply filter_In. split.
    + apply sort_In. now apply mapi_from_In_nonzero.
    + unfold isIncluded. now apply negb_true_iff, Z.eqb_neq.
  - intros i p Hi Hz. apply filter_In. split.
    + apply sort_In. pose proof (mapi_from_In_at 0 i ps p Hi) as H.
      unfold normalizePane in H. rewrite Hz in H. exact H.
    + unfold isIncluded. cbn. apply negb_true_iff, Z.eqb_neq.
      unfold zeroOrderIndex. lia.
  - intros Hsmall.
    rewrite (sort_split zeroOrderIndex normalized). unfold normalized.
    rewrite (normalized_below ps Hsmall 0 ps) by auto.
    rewrite (normalized_atLeast ps Hsmall 0 ps) by auto.
    rewrite (sort_of_sorted (zeroOrderPanes_from 0 ps))
      by apply zeroOrderPanes_from_sorted.
    rewrite List.filter_app. f_equal. apply zeroOrderPanes_included.
Qed.

(** C3: the amended statement at a list with a hidden pane, a zero-order
    pane and an ordinary pane. *)
Lemma C3_getSortedPanes_order_witness :
  (forall p, In p [paneA; paneHidden; paneDriver] -> order p < zeroOrderIndex)
  /\ getSortedPanes (Some [paneA; paneHidden; paneDriver]) =
       List.filter isIncluded
         (js_sort compareOrder
            (List.filter hasNonZeroOrder [paneA; paneHidden; paneDriver]))
       ++ zeroOrderPanes [paneA; paneHidden; paneDriver].
Proof.
  assert (Hsmall : forall p, In p [paneA; paneHidden; paneDriver] ->
                             order p < zeroOrderIndex).
  { intros p [<-|[<-|[<-|[]]]]; reflexivity. }
  split; [exact Hsmall|].
  apply (C3_getSortedPanes_order [paneA; paneHidden; paneDriver]).
  exact Hsmall.
Defined.

End MultiPaneFacts.

(* ===================================================================== *)
(** * Properties of objects and form bodies *)
(* ===================================================================== *)

Module JSFacts.
Import JS.

Lemma getOwn_replaceOwn (props : Properties) (key key' : string) (v : Value) :
  hasOwn props key = true ->
  getOwn (replaceOwn props key v) key' =
  if String.eqb key key' then Some v else getOwn props key'.
Proof.
  unfold hasOwn. induction props as [|[k x] props IH]; simpl; [discriminate|].
  destruct (String.eqb k key) eqn:E; simpl.
  - intros _. apply String.eqb_eq in E. subst k.
    destruct (String.eqb key key'); reflexivity.
  - intros H. rewrite IH by exact H.
    destruct (String.eqb k key') eqn:E'; [|reflexivity].
    apply String.eqb_eq in E'. subst k.
    now rewrite String.eqb_sym, E.
Qed.

Lemma getOwn_insertIndexKey (props : Properties) (key key' : string) (n : N)
  (v : Value) :
  getOwn props key = None ->
  getOwn (insertIndexKey props key n v) key' =
  if String.eqb key key' then Some v else getOwn props key'.
Proof.
  induction props as [|[k x] props IH]; simpl.
  - intros _. reflexivity.
  - destruct (String.eqb k key) eqn:E; [discriminate|]. intros H.
    destruct (arrayIndex k) as [m|]; [destruct (m <? n)%N|]; simpl;
      try reflexivity.
    rewrite IH by exact H.
    destruct (String.eqb k key') eqn:E'; [|reflexivity].
    apply String.eqb_eq in E'. subst k.
    now rewrite String.eqb_sym, E.
Qed.

Lemma getOwn_app (props more : Properties) (key : string) :
  getOwn (props ++ more) key =
  match getOwn props key with
  | Some v => Some v
  | None => getOwn more key
  end.
Proof.
  induction props as [|[k x] props IH]; simpl; [reflexivity|].
  destruct (String.eqb k key); [reflexivity|exact IH].
Qed.

(** Reading after writing: the written key holds the new value, every other
    key is as before. *)
Lemma getOwn_setProperty (props : Properties) (key key' : string) (v : Value) :
  String.eqb key protoKey = false ->
  getOwn (setProperty props key v) key' =
  if String.eqb key key' then Some v else getOwn props key'.
Proof.
  intros Hproto. unfold setProperty. rewrite Hproto.
  destruct (hasOwn props key) eqn:H.
  - now apply getOwn_replaceOwn.
  - assert (Hnone : getOwn props key = None).
    { unfold hasOwn in H. destruct (getOwn props key); [discriminate|easy]. }
    destruct (arrayIndex key) as [n|].
    + now apply getOwn_insertIndexKey.
    + rewrite getOwn_app. simpl.
      destruct (String.eqb key key') eqn:E.
      * apply String.eqb_eq in E. subst key'. now rewrite Hnone.
      * now destruct (getOwn props key').
Qed.

(** A write under [__proto__] leaves an object without such a property as
    it is. *)
Lemma setProperty_protoKey (props : Properties) (v : Value) :
  getOwn props protoKey = None -> setProperty props protoKey v = props.
Proof.
  intros H. unfold setProperty, hasOwn. now rewrite H, String.eqb_refl.
Qed.

(** The text of a Number at the ends of its two notations. *)
Lemma numberToString_examples :
  numberToString 4 = "4"
  /\ numberToString (-15) = "-15"
  /\ numberToString (2 ^ 53) = "9007199254740992"
  /\ numberToString (2 ^ 64) = "18446744073709552000"
  /\ numberToString (10 ^ 21 - 2 ^ 17) = "999999999999999900000"
  /\ numberToString (10 ^ 21) = "1e+21"
  /\ numberToString (2 ^ 70) = "1.1805916207174113e+21"
  /\ numberToString 99999999999999991611392 = "1e+23"
  /\ forallb isNumberValue
       [4; -15; 2 ^ 53; 2 ^ 64; 10 ^ 21 - 2 ^ 17; 10 ^ 21; 2 ^ 70;
        99999999999999991611392] = true
  /\ isNumberValue (2 ^ 53 + 1) = false.
Proof. vm_compute. repeat split. Qed.

End JSFacts.

(* ===================================================================== *)
(** * Properties of payload assembly and submission *)
(* ===================================================================== *)

Module ComposerFacts.
Import JS.
Import MultiPane.
Import Composer.
Import JSFacts.

Lemma FormData_get_app (a b : FormData) (key : string) :
  FormData_get (a ++ b) key =
  match FormData_get a key with
  | Some v => Some v
  | None => FormData_get b key
  end.
Proof.
  induction a as [|[k v] a IH]; simpl; [reflexivity|].
  destruct (String.eqb k key); [reflexivity|exact IH].
Qed.

Lemma fold_append_items (key : string) (items : list Value) (fd : FormData) :
  fold_left (fun fd item => FormData_append fd key item) items fd =
  fd ++ map (fun item => (key, fieldValue item)) items.
Proof.
  revert fd. induction items as [|x items IH]; intros fd; simpl.
  - now rewrite app_nil_r.
  - rewrite IH. unfold FormData_append. now rewrite <- app_assoc.
Qed.

Lemma appendEntry_app (fd : FormData) (entry : string * Value) :
  appendEntry fd entry = fd ++ entryFields entry.
Proof.
  destruct entry as [k v]. unfold entryFields, appendEntry.
  destruct v; rewrite ?fold_append_items; unfold FormData_append;
    rewrite ?app_nil_r; reflexivity.
Qed.

Lemma formDataOfRecord_from (data : Properties) (fd : FormData) :
  fold_left appendEntry data fd = fd ++ flat_map entryFields data.
Proof.
  revert fd. induction data as [|e data IH]; intros fd; simpl.
  - now rewrite app_nil_r.
  - rewrite IH, appendEntry_app. now rewrite <- app_assoc.
Qed.

Lemma endsWithBrackets_app (key : string) :
  endsWithBrackets (key +:+ "[]") = true.
Proof.
  induction key as [|a key IH]; [reflexivity|].
  destruct key as [|b key]; [reflexivity|].
  change ((String a (String b key)) +:+ "[]")
    with (String a (String b key +:+ "[]")).
  remember (String b key +:+ "[]") as rest eqn:Hrest.
  simpl. destruct rest as [|c rest]; [discriminate Hrest|].
  destruct rest as [|d rest]; [|exact IH].
  destruct key; discriminate Hrest.
Qed.

Lemma FormData_get_items_other (k key : string) (items : list Value) :
  k <> key ->
  FormData_get (map (fun item => (k, fieldValue item)) items) key = None.
Proof.
  intros Hne. induction items as [|x items IH]; simpl; [reflexivity|].
  destruct (String.eqb k key) eqn:E; [|exact IH].
  apply String.eqb_eq in E. contradiction.
Qed.

Lemma FormData_get_entryFields_other (k key : string) (v : Value) :
  k <> key -> endsWithBrackets key = false ->
  FormData_get (entryFields (k, v)) key = None.
Proof.
  intros Hne Hkey. unfold entryFields.
  assert (Hk : String.eqb k key = false) by now apply String.eqb_neq.
  unfold appendEntry.
  destruct v; rewrite ?fold_append_items; unfold FormData_append; simpl;
    rewrite ?Hk; try reflexivity.
  apply FormData_get_items_other.
  intros <-. now rewrite endsWithBrackets_app in Hkey.
Qed.

(** A string-valued entry of the record is the field of that name in the
    form body. *)
Lemma FormData_get_formDataOfRecord (data : Properties) (key s : string) :
  getOwn data key = Some (VString s) ->
  endsWithBrackets key = false ->
  FormData_get (formDataOfRecord data) key = Some (FDString s).
Proof.
  intros Hget Hkey. unfold formDataOfRecord.
  rewrite formDataOfRecord_from. simpl.
  induction data as [|[k v] data IH]; [discriminate Hget|].
  simpl in Hget. cbn [flat_map]. rewrite FormData_get_app.
  destruct (String.eqb k key) eqn:E.
  - apply String.eqb_eq in E. subst k. injection Hget as ->.
    unfold entryFields. simpl. now rewrite String.eqb_refl.
  - apply String.eqb_neq in E.
    rewrite FormData_get_entryFields_other by assumption.
    now apply IH.
Qed.

Lemma isDistinguished_key (cur : PaneElement) :
  isDistinguished (getAttribute cur "name") =
  isDistinguishedKey (propertyKey (getAttribute cur "name")).
Proof. reflexivity. Qed.

Lemma isDistinguishedKey_cases (key : string) :
  isDistinguishedKey key = true -> key = "driver" \/ key = "run_command".
Proof.
  unfold isDistinguishedKey. intros H. apply orb_true_iff in H.
  destruct H as [H|H]; apply String.eqb_eq in H; auto.
Qed.

Lemma isDistinguishedKey_not_protoKey (key : string) :
  isDistinguishedKey key = true -> String.eqb key protoKey = false.
Proof.
  intros H. now destruct (isDistinguishedKey_cases key H) as [->| ->].
Qed.

Lemma refValue_name (key : string) (ref : PaneRef) (cur : PaneElement) :
  current ref = Some cur ->
  refValue key ref =
  if String.eqb (elem_pane_name cur) key then Some (value cur) else None.
Proof. intros H. unfold refValue. now rewrite H. Qed.

Lemma rerunStep_getOwn (data additionalFiles : Properties) (ref : PaneRef)
  (key : string) :
  getOwn additionalFiles protoKey = None ->
  getOwn (fst (rerunStep (data, additionalFiles) ref)) key =
    (if isDistinguishedKey key
     then match refValue key ref with
          | Some text => Some (VString text)
          | None => getOwn data key
          end
     else getOwn data key)
  /\ getOwn (snd (rerunStep (data, additionalFiles) ref)) key =
    (if isDistinguishedKey key || String.eqb key protoKey
     then getOwn additionalFiles key
     else match refValue key ref with
          | Some text => Some (VString text)
          | None => getOwn additionalFiles key
          end).
Proof.
  intros Hproto. unfold rerunStep.
  destruct (current ref) as [cur|] eqn:Hcur.
  - rewrite (refValue_name key ref cur Hcur).
    change (getAttribute cur "name") with (Some (elem_pane_name cur)).
    cbn [propertyKey].
    change (isDistinguished (Some (elem_pane_name cur)))
      with (isDistinguishedKey (elem_pane_name cur)).
    destruct (isDistinguishedKey (elem_pane_name cur)) eqn:Hd; cbn [fst snd].
    + rewrite getOwn_setProperty
        by now apply isDistinguishedKey_not_protoKey.
      destruct (String.eqb (elem_pane_name cur) key) eqn:E.
      * apply String.eqb_eq in E. subst key. rewrite Hd. now split.
      * now destruct (isDistinguishedKey key), (String.eqb key protoKey).
    + destruct (String.eqb (elem_pane_name cur) key) eqn:E.
      * apply String.eqb_eq in E. subst key. rewrite Hd. cbn [orb].
        split; [reflexivity|].
        destruct (String.eqb (elem_pane_name cur) protoKey) eqn:P.
        -- apply String.eqb_eq in P. rewrite P.
           now rewrite setProperty_protoKey.
        -- now rewrite getOwn_setProperty, String.eqb_refl.
      * split; [now destruct (isDistinguishedKey key)|].
        destruct (String.eqb (elem_pane_name cur) protoKey) eqn:P.
        -- apply String.eqb_eq in P. rewrite P.
           rewrite setProperty_protoKey by exact Hproto.
           now destruct (isDistinguishedKey key || String.eqb key protoKey).
        -- rewrite getOwn_setProperty, E by exact P.
           now destruct (isDistinguishedKey key || String.eqb key protoKey).
  - unfold refValue. rewrite Hcur. cbn [fst snd].
    now destruct (isDistinguishedKey key), (String.eqb key protoKey).
Qed.

(** What the loop over the pane references leaves in the record and in the
    object of additional files. *)
Lemma rerun_fold (paneRefs : list PaneRef) (data additionalFiles : Properties)
  (key : string) :
  getOwn additionalFiles protoKey = None ->
  let result := fold_left rerunStep paneRefs (data, additionalFiles) in
  getOwn (fst result) key =
    (if isDistinguishedKey key
     then match lastValue key paneRefs with
          | Some text => Some (VString text)
          | None => getOwn data key
          end
     else getOwn data key)
  /\ getOwn (snd result) key =
    (if isDistinguishedKey key || String.eqb key protoKey
     then getOwn additionalFiles key
     else match lastValue key paneRefs with
          | Some text => Some (VString text)
          | None => getOwn additionalFiles key
          end).
Proof.
  intros Hproto. cbv zeta. revert data additionalFiles Hproto.
  induction paneRefs as [|ref paneRefs IH]; intros data additionalFiles Hproto.
  - simpl.
    destruct (isDistinguishedKey key), (String.eqb key protoKey);
      split; reflexivity.
  - cbn [fold_left lastValue].
    pose proof (rerunStep_getOwn data additionalFiles ref key Hproto)
      as [S1 S2].
    pose proof (rerunStep_getOwn data additionalFiles ref protoKey Hproto)
      as [_ P].
    rewrite String.eqb_refl, orb_true_r, Hproto in P.
    destruct (rerunStep (data, additionalFiles) ref) as [d a].
    cbn [fst snd] in S1, S2, P.
    destruct (IH d a P) as [H1 H2]. rewrite H1, H2, S1, S2.
    destruct (isDistinguishedKey key), (String.eqb key protoKey),
      (lastValue key paneRefs); split; reflexivity.
Qed.

Lemma rerunRecord_getOwn (c : State) (paneRefs : list PaneRef) (key : string) :
  getOwn (rerunRecord c paneRefs) key =
  let written :=
    if String.eqb "additional_files" key
    then Some (stringifyObject (additionalFilesOf c paneRefs))
    else getOwn (fst (rerunLoop c paneRefs)) key in
  match globalFiles c with
  | Some (r, files) =>
      if String.eqb "files" key then Some (VArray r files) else written
  | None => written
  end.
Proof.
  unfold rerunRecord, additionalFilesOf.
  destruct (rerunLoop c paneRefs) as [d a].
  cbn [fst snd]. destruct (globalFiles c) as [[r files]|];
    rewrite !getOwn_setProperty by reflexivity; reflexivity.
Qed.

Lemma rerunLoop_getOwn (c : State) (paneRefs : list PaneRef) (key : string) :
  getOwn (fst (rerunLoop c paneRefs)) key =
    (if isDistinguishedKey key
     then match lastValue key paneRefs with
          | Some text => Some (VString text)
          | None => getOwn (rerunInfo c) key
          end
     else getOwn (rerunInfo c) key)
  /\ getOwn (snd (rerunLoop c paneRefs)) key =
    (if isDistinguishedKey key || String.eqb key protoKey then None
     else option_map VString (lastValue key paneRefs)).
Proof.
  destruct (rerun_fold paneRefs (rerunInfo c) [] key eq_refl) as [H1 H2].
  split; [exact H1|]. unfold rerunLoop. etransitivity; [exact H2|].
  simpl.
  destruct (isDistinguishedKey key || String.eqb key protoKey),
    (lastValue key paneRefs); reflexivity.
Qed.

Lemma getFormData_rerun (c : State) (panes : option (list Pane)) :
  jobStatus c = Some "rerun" ->
  multiPane c = Some panes ->
  getFormData c =
  (Some (formDataOfRecord (rerunRecord c (getPaneRefs panes))),
   set_rerunInfo c (rerunRecord c (getPaneRefs panes))).
Proof. intros Hj Hm. unfold getFormData. now rewrite Hm, Hj. Qed.

(** In rerun mode the payload holds the text of the panes named [driver]
    and [run_command] as fields of those names, and holds every other pane
    but one named [__proto__] as an entry (pane name to pane text) of one
    object whose JSON text is the field [additional_files]; of two panes of
    one name the later one in pane order gives the text.  A pane named
    [__proto__] leaves no entry.  For the panes [driver] ("echo hi") and
    [extra.txt] ("x") the payload has driver = "echo hi" and
    additional_files = {"extra.txt":"x"}. *)
Theorem rerun_payload_fields :
  (forall (c : State) (panes : option (list Pane)),
     jobStatus c = Some "rerun" ->
     multiPane c = Some panes ->
     exists formData additionalFiles json,
       fst (getFormData c) = Some formData
       /\ stringify (VObject 0 additionalFiles) = Some json
       /\ FormData_get formData "additional_files" = Some (FDString json)
       /\ (forall key,
             getOwn additionalFiles key =
             if isDistinguishedKey key || String.eqb key "__proto__" then None
             else option_map VString (lastValue key (getPaneRefs panes)))
       /\ (forall key text,
             isDistinguishedKey key = true ->
             lastValue key (getPaneRefs panes) = Some text ->
             FormData_get formData key = Some (FDString text)))
  /\ (forall (c : State),
        jobStatus c = Some "rerun" ->
        multiPane c = Some (Some examplePanes) ->
        exists formData,
          fst (getFormData c) = Some formData
          /\ FormData_get formData "driver" = Some (FDString "echo hi")
          /\ FormData_get formData "additional_files" =
             Some (FDString exampleAdditionalFiles)).
Proof.
  split.
  - intros c panes Hj Hm. rewrite (getFormData_rerun c panes Hj Hm).
    set (paneRefs := getPaneRefs panes).
    exists (formDataOfRecord (rerunRecord c paneRefs)),
           (additionalFilesOf c paneRefs).
    destruct (stringify (VObject 0 (additionalFilesOf c paneRefs)))
      as [json|] eqn:Hjson; [|discriminate Hjson].
    exists json. split; [reflexivity|]. split; [reflexivity|].
    split; [|split].
    + apply FormData_get_formDataOfRecord; [|reflexivity].
      rewrite rerunRecord_getOwn. cbv zeta. unfold stringifyObject.
      rewrite Hjson. now destruct (globalFiles c) as [[r files]|].
    + intros key. unfold additionalFilesOf.
      apply (rerunLoop_getOwn c paneRefs key).
    + intros key text Hd Hlast.
      assert (Hkey : endsWithBrackets key = false
                     /\ String.eqb "additional_files" key = false
                     /\ String.eqb "files" key = false).
      { destruct (isDistinguishedKey_cases key Hd) as [->| ->]; now repeat split. }
      destruct Hkey as (Hb & Ha & Hf).
      apply FormData_get_formDataOfRecord; [|exact Hb].
      rewrite rerunRecord_getOwn. cbv zeta. rewrite Ha, Hf.
      destruct (rerunLoop_getOwn c paneRefs key) as [H _].
      rewrite H, Hd, Hlast. now destruct (globalFiles c) as [[r files]|].
  - intros c Hj Hm. rewrite (getFormData_rerun c _ Hj Hm).
    eexists. split; [reflexivity|]. split.
    + apply FormData_get_formDataOfRecord; [|reflexivity].
      rewrite rerunRecord_getOwn. cbv zeta.
      change (String.eqb "additional_files" "driver") with false.
      change (String.eqb "files" "driver") with false.
      destruct (rerunLoop_getOwn c (getPaneRefs (Some examplePanes)) "driver")
        as [H _].
      rewrite H. now destruct (globalFiles c) as [[r files]|].
    + apply FormData_get_formDataOfRecord; [|reflexivity].
      rewrite rerunRecord_getOwn. cbv zeta.
      now destruct (globalFiles c) as [[r files]|].
Qed.

Lemma rerun_payload_fields_witness :
  exists formData,
    fst (getFormData rerunWithoutName) = Some formData
    /\ FormData_get formData "driver" = Some (FDString "echo hi")
    /\ FormData_get formData "additional_files" =
       Some (FDString exampleAdditionalFiles).
Proof.
  apply (proj2 rerun_payload_fields rerunWithoutName); reflexivity.
Defined.

(** C4, evaluated at the example of the claim and at a rerun with a pane
    named [__proto__].  For the panes [driver] ("echo hi") and [extra.txt]
    ("x") the payload is as the claim says: driver = "echo hi" and
    additional_files = {"extra.txt":"x"}.  With a pane named [__proto__]
    ("x") between [driver] and [extra.txt] ("y"), the assignment
    [additionalFiles[name] = current.value] reaches the setter every object
    inherits and creates no property, so the payload is the record, the
    driver and additional_files = {"extra.txt":"y"}: the text of the pane
    is in no field. *)
Theorem C4_pane_named_proto_is_dropped :
  fst (getFormData rerunWithoutName) =
    Some [("name", FDString ""); ("location", FDString "/scratch/job-17");
          ("driver", FDString "echo hi");
          ("additional_files", FDString exampleAdditionalFiles)]
  /\ map name (getSortedPanes (Some panesWithProto)) =
     ["driver"; "__proto__"; "extra.txt"]
  /\ fst (getFormData rerunWithProtoPane) =
     Some [("name", FDString "job-17");
           ("location", FDString "/scratch/job-17");
           ("driver", FDString "echo hi");
           ("additional_files", FDString additionalFilesWithoutProto)].
Proof. repeat split. Qed.

(** C7: while the transport reports [submitting] or [running], a submission
    attempt shows the alert and nothing else: [submitJob] is not called and
    the state, the prior-job record included, is as before. *)
Theorem C7_running_blocks_submission (c : State) :
  status c = "submitting" \/ status c = "running" ->
  handleSubmit c =
    ([PreventDefault;
      Alert "A job is already running. Please wait for it to complete before submitting another job."],
     c)
  /\ existsb isSubmitJob (fst (handleSubmit c)) = false
  /\ snd (handleSubmit c) = c.
Proof.
  intros H.
  assert (Hrun : isJobRunning c = true).
  { unfold isJobRunning. destruct H as [-> | ->]; reflexivity. }
  unfold handleSubmit. rewrite Hrun. repeat split.
Qed.

(** C7: the statement at a rerun attempted while a job is running. *)
Lemma C7_running_blocks_submission_witness :
  existsb isSubmitJob (fst (handleSubmit rerunWhileRunning)) = false
  /\ snd (handleSubmit rerunWhileRunning) = rerunWhileRunning.
Proof.
  apply (C7_running_blocks_submission rerunWhileRunning).
  right. reflexivity.
Defined.

(** C8: when the assembled payload has the job name "", a submission
    attempt shows an alert and does not call [submitJob]. *)
Theorem C8_empty_name_blocks_submission (c c' : State) (formData : FormData) :
  getFormData c = (Some formData, c') ->
  FormData_get formData "name" = Some (FDString "") ->
  existsb isSubmitJob (fst (handleSubmit c)) = false
  /\ existsb isAlert (fst (handleSubmit c)) = true
  /\ (isJobRunning c = false ->
      fst (handleSubmit c) = [PreventDefault; Alert "Job name is required."]).
Proof.
  intros Hfd Hname. unfold handleSubmit.
  destruct (isJobRunning c); [repeat split; discriminate|].
  rewrite Hfd, Hname. repeat split.
Qed.

(** C8: the statement at a rerun of a job whose stored name is empty. *)
Lemma C8_empty_name_blocks_submission_witness :
  existsb isSubmitJob (fst (handleSubmit rerunWithoutName)) = false
  /\ existsb isAlert (fst (handleSubmit rerunWithoutName)) = true.
Proof.
  destruct (C8_empty_name_blocks_submission
              rerunWithoutName (snd (getFormData rerunWithoutName))
              (formDataOfRecord
                 (rerunRecord rerunWithoutName
                              (getPaneRefs (Some examplePanes)))))
    as (H1 & H2 & _); [reflexivity|reflexivity|].
  split; assumption.
Defined.

(** C10, as stated, fails: a rerun attempted while a job is running returns
    before the payload is assembled and leaves the prior-job record as it
    was. *)
Lemma C10_blocked_attempt_leaves_record :
  jobStatus rerunWhileRunning = Some "rerun"
  /\ ~ attempt_writes_record rerunWhileRunning
  /\ rerunInfo (snd (handleSubmit rerunWhileRunning)) =
     rerunInfo rerunWhileRunning.
Proof.
  split; [reflexivity|]. split; [|reflexivity].
  intros [json H]. discriminate H.
Qed.

(** C10 (amended): in rerun mode, assembling the payload writes to the
    prior-job record itself: after [getFormData] the record holds the text
    of the panes named [driver] and [run_command] under those names, the
    JSON text of the other panes under [additional_files] and, when files
    are attached, their array under [files]; its other entries are as
    before, and the payload is read off the record so written.  Every rerun
    submission attempt that is not blocked by the guard on a job in flight
    leaves the record in that state; a blocked attempt leaves it as it
    was. *)
Theorem C10_rerun_writes_record (c : State) (panes : option (list Pane)) :
  jobStatus c = Some "rerun" ->
  multiPane c = Some panes ->
  let paneRefs := getPaneRefs panes in
  let written := rerunInfo (snd (getFormData c)) in
  fst (getFormData c) = Some (formDataOfRecord written)
  /\ getOwn written "additional_files" =
     Some (stringifyObject (additionalFilesOf c paneRefs))
  /\ (forall key,
        isDistinguishedKey key = true ->
        getOwn written key =
        match lastValue key paneRefs with
        | Some text => Some (VString text)
        | None => getOwn (rerunInfo c) key
        end)
  /\ getOwn written "files" =
     match globalFiles c with
     | Some (r, files) => Some (VArray r files)
     | None => getOwn (rerunInfo c) "files"
     end
  /\ (forall key,
        isDistinguishedKey key = false ->
        key <> "additional_files" -> key <> "files" ->
        getOwn written key = getOwn (rerunInfo c) key)
  /\ (isJobRunning c = false -> rerunInfo (snd (handleSubmit c)) = written)
  /\ (isJobRunning c = true ->
      rerunInfo (snd (handleSubmit c)) = rerunInfo c).
Proof.
  intros Hj Hm. cbv zeta. rewrite (getFormData_rerun c panes Hj Hm).
  cbn [fst snd set_rerunInfo rerunInfo].
  set (paneRefs := getPaneRefs panes).
  split; [reflexivity|]. split; [|split; [|split; [|split; [|split]]]].
  - rewrite rerunRecord_getOwn. cbv zeta.
    now destruct (globalFiles c) as [[r files]|].
  - intros key Hd.
    assert (Hkey : String.eqb "additional_files" key = false
                   /\ String.eqb "files" key = false).
    { destruct (isDistinguishedKey_cases key Hd) as [->| ->]; now split. }
    destruct Hkey as (Ha & Hf).
    rewrite rerunRecord_getOwn. cbv zeta. rewrite Ha, Hf.
    destruct (rerunLoop_getOwn c paneRefs key) as [H _].
    rewrite H, Hd. now destruct (globalFiles c) as [[r files]|].
  - rewrite rerunRecord_getOwn. cbv zeta.
    destruct (globalFiles c) as [[r files]|]; [reflexivity|].
    change (String.eqb "additional_files" "files") with false. cbv iota.
    destruct (rerunLoop_getOwn c paneRefs "files") as [H _].
    now rewrite H.
  - intros key Hd Ha Hf.
    apply String.eqb_neq in Ha, Hf.
    rewrite String.eqb_sym in Ha. rewrite String.eqb_sym in Hf.
    rewrite rerunRecord_getOwn. cbv zeta. rewrite Ha, Hf.
    destruct (rerunLoop_getOwn c paneRefs key) as [H _].
    rewrite H, Hd. now destruct (globalFiles c) as [[r files]|].
  - intros Hrun. unfold handleSubmit. rewrite Hrun.
    rewrite (getFormData_rerun c panes Hj Hm).
    destruct (FormData_get _ "name") as [[[|a s]|r f]|]; reflexivity.
  - intros Hrun. unfold handleSubmit. now rewrite Hrun.
Qed.

(** C10: the amended statement at a rerun with the two example panes while
    no job is in flight. *)
Lemma C10_rerun_writes_record_witness :
  getOwn (rerunInfo (snd (handleSubmit rerunWithoutName))) "driver" =
    Some (VString "echo hi")
  /\ getOwn (rerunInfo (snd (handleSubmit rerunWithoutName)))
            "additional_files" = Some (VString exampleAdditionalFiles)
  /\ getOwn (rerunInfo rerunWithoutName) "driver" = None.
Proof.
  destruct (C10_rerun_writes_record rerunWithoutName (Some examplePanes))
    as (_ & Ha & Hd & _ & _ & Hs & _); [reflexivity|reflexivity|].
  rewrite Hs by reflexivity. split; [|split; [|reflexivity]].
  - rewrite (Hd "driver") by reflexivity. reflexivity.
  - rewrite Ha. reflexivity.
Defined.

End ComposerFacts.


(* ===================================================================== *)
(** * Properties of option retrieval *)
(* ===================================================================== *)

Module DynamicRadioGroupFacts.
Import JS.
Import DynamicRadioGroup.

Lemma callSetError_provided (props : Props) (payload : ErrorPayload) :
  setError props = true -> callSetError props payload = [SetError payload].
Proof. intros H. unfold callSetError. now rewrite H. Qed.

Lemma getProperty_not_nullish (v : Value) (key : string) :
  isNullish v = false -> exists x, getProperty v key = Normal x.
Proof. destruct v; simpl; intros H; try discriminate; eauto. Qed.

(** An answer that is an array of option objects flags the selection when
    no option carries it, and leaves the selection itself alone. *)
Lemma settle_array_flags_selection (props : Props) (selected : string)
  (status : Z) (r : nat) (items : list Value) (st : State) :
  responseOk status = true ->
  selected <> "" ->
  someHasValue items selected = Normal false ->
  fetchOptions_settle props selected (Responded status (Normal (VArray r items)))
                      st =
  ({| st_options := items; st_value := st_value st; isLoading := false;
      isEvaluated := true; isValueInvalid := true |}, []).
Proof.
  intros Hok Hsel Hsome. unfold fetchOptions_settle. rewrite Hok.
  apply String.eqb_neq in Hsel. rewrite Hsel. simpl. now rewrite Hsome.
Qed.

(** C2: evaluated at two answers.  First, an ok answer whose body is JSON
    but not an array, to a group that holds the selection "normal": the
    options become the empty list and the group is marked evaluated, the
    test on the body then throws, and the flag stays false although no
    option carries the selection.  Second, a well-formed answer to the
    request of a debounce timer: the timer was armed while nothing was
    selected, "debug" is selected before the timer fires, and the answer
    offers only "normal"; the test uses the selection of the render that
    armed the timer, so the flag is false although the group holds "debug"
    and no option carries it. *)
Theorem C2_selection_not_flagged :
  fetchOptions_settle partitionProps "normal"
                      (Responded 200 (Normal (VObject 0 [])))
                      groupWithSelection =
  ({| st_options := []; st_value := "normal"; isLoading := false;
      isEvaluated := true; isValueInvalid := false |},
   [SetError (Thrown (TypeError "data.some is not a function"))])
  /\ option_map state
       (after [FormValuesChanged (environmentIs "cpu"); Elapsed 50;
               FetchSettled 0 (optionsResponse ["normal"; "debug"]);
               RadioChanged "debug"; Elapsed 250;
               FetchSettled 0 (optionsResponse ["normal"])]) =
     Some {| st_options := [radioOption "normal"]; st_value := "debug";
             isLoading := false; isEvaluated := true;
             isValueInvalid := false |}.
Proof. split; [reflexivity|vm_compute; reflexivity]. Qed.

(** C9: without a retriever path, [fetchOptions] hands the structured error
    to the sink at once and returns: no request is issued and the state,
    with its loading flag and its options, is as before. *)
Theorem C9_missing_retriever_path (props : Props)
  (formValuesRef : gmap string Value) (st : State) :
  configuredRetrieverPath props = None ->
  setError props = true ->
  fetchOptions_start props formValuesRef st =
    (st, [SetError (Structured (VString "Retriever path is not set") 400
                               (VString ""))])
  /\ (forall url,
        ~ In (FetchRequest url) (snd (fetchOptions_start props formValuesRef st)))
  /\ isLoading (fst (fetchOptions_start props formValuesRef st)) = isLoading st
  /\ st_options (fst (fetchOptions_start props formValuesRef st)) =
     st_options st
  /\ isLoading (fst (fetchOptions_start props formValuesRef (initialState props)))
     = false.
Proof.
  intros Hpath Hsink. unfold fetchOptions_start. rewrite Hpath.
  rewrite callSetError_provided by exact Hsink. simpl.
  repeat split. intros url [H|[]]. discriminate H.
Qed.

(** C9: the statement at a group without retriever path, before its first
    render. *)
Lemma C9_missing_retriever_path_witness :
  fetchOptions_start unconfiguredProps (environmentIs "gpu")
                     (initialState unconfiguredProps) =
  (initialState unconfiguredProps,
   [SetError (Structured (VString "Retriever path is not set") 400
                         (VString ""))]).
Proof.
  apply (C9_missing_retriever_path unconfiguredProps (environmentIs "gpu")
           (initialState unconfiguredProps)); reflexivity.
Defined.




Lemma In_omap_queryPair (ref : gmap string Value) (params : Properties)
  (entry : string * Value) (pair : string * string) :
  In entry params -> queryPair ref entry = Some pair ->
  In pair (omap (queryPair ref) params).
Proof.
  induction params as [|e params IH]; [easy|].
  intros [->|Hin] Hq; cbn [omap list_omap].
  - rewrite Hq. now left.
  - destruct (queryPair ref e); [right|]; now apply IH.
Qed.

(** A render leaves the latest FormValues in the held reference. *)
Lemma commit_formValuesRef (props : Props) (sys : System) :
  formValuesRef (fst (commit props sys)) = formValues sys.
Proof.
  unfold commit.
  repeat match goal with
         | |- context [let '(_, _) := ?x in _] => destruct x
         end.
  reflexivity.
Qed.

(** C5: the request carries one query pair for every entry of
    [retrieverParams] whose resolved value is neither undefined nor null, in
    the order of the entries; a string value that starts with [$] is
    resolved to the value of the named field in the FormValues held by the
    reference, which every render refreshes, and any other value stands for
    itself; a resolved string is appended as it is, a number as its text and
    a boolean as [true] or [false], without quotes, and any other value (an
    object, an array) as its JSON text; with the parameters
    [{env: "$environment"}] and the FormValues [{environment: "gpu"}] the
    query is [env=gpu]. *)
Theorem C5_query_resolution :
  (forall (props : Props) (formValuesRef : gmap string Value) (st : State)
          (path : string),
     configuredRetrieverPath props = Some path ->
     snd (fetchOptions_start props formValuesRef st) =
     [FetchRequest (requestUrl props path (buildParams props formValuesRef))])
  /\ (forall (props : Props) (formValuesRef : gmap string Value)
             (params : Properties),
        retrieverParams props = Some params ->
        buildParams props formValuesRef =
        omap (queryPair formValuesRef) params)
  /\ (forall (formValuesRef : gmap string Value) (key : string)
             (rawVal : Value),
        let resolved :=
          match rawVal with
          | VString (String "$"%char field) =>
              getFieldValue formValuesRef field
          | _ => rawVal
          end in
        match resolved with
        | VUndefined | VNull => queryPair formValuesRef (key, rawVal) = None
        | VString s => queryPair formValuesRef (key, rawVal) = Some (key, s)
        | VNumber n =>
            queryPair formValuesRef (key, rawVal) =
            Some (key, numberToString n)
        | VBool true =>
            queryPair formValuesRef (key, rawVal) = Some (key, "true")
        | VBool false =>
            queryPair formValuesRef (key, rawVal) = Some (key, "false")
        | VFile _ _ | VArray _ _ | VObject _ _ =>
            exists json,
              stringify resolved = Some json
              /\ queryPair formValuesRef (key, rawVal) = Some (key, json)
        end)
  /\ (forall (props : Props) (sys : System),
        formValuesRef (fst (commit props sys)) = formValues sys)
  /\ (forall (props : Props) (formValuesRef : gmap string Value),
        retrieverParams props = Some [("env", VString "$environment")] ->
        formValuesRef !! "environment" = Some (VString "gpu") ->
        URLSearchParams_toString (buildParams props formValuesRef) = "env=gpu").
Proof.
  assert (Hpair : forall (ref : gmap string Value) (key : string) (v : Value),
             match v with
             | VUndefined | VNull =>
                 (if isNullish v then None
                  else if isPrimitiveForQuery v then Some (key, toString v)
                  else Some (key, default "undefined" (stringify v))) = None
             | VString s =>
                 (if isNullish v then None
                  else if isPrimitiveForQuery v then Some (key, toString v)
                  else Some (key, default "undefined" (stringify v))) =
                 Some (key, s)
             | VNumber n =>
                 (if isNullish v then None
                  else if isPrimitiveForQuery v then Some (key, toString v)
                  else Some (key, default "undefined" (stringify v))) =
                 Some (key, numberToString n)
             | VBool true =>
                 (if isNullish v then None
                  else if isPrimitiveForQuery v then Some (key, toString v)
                  else Some (key, default "undefined" (stringify v))) =
                 Some (key, "true")
             | VBool false =>
                 (if isNullish v then None
                  else if isPrimitiveForQuery v then Some (key, toString v)
                  else Some (key, default "undefined" (stringify v))) =
                 Some (key, "false")
             | VFile _ _ | VArray _ _ | VObject _ _ =>
                 exists json,
                   stringify v = Some json
                   /\ (if isNullish v then None
                       else if isPrimitiveForQuery v
                            then Some (key, toString v)
                            else Some (key, default "undefined" (stringify v)))
                      = Some (key, json)
             end).
  { intros ref key [| |[|]|n|s|r f|r items|r props]; try reflexivity;
      eexists; split; reflexivity. }
  split; [|split; [|split; [|split]]].
  - intros props ref st path Hpath. unfold fetchOptions_start.
    now rewrite Hpath.
  - intros props ref params Hparams. unfold buildParams. now rewrite Hparams.
  - intros ref key rawVal. cbv zeta. unfold queryPair, resolveParam.
    destruct rawVal as [| |b|n|s|r f|r items|r props];
      [exact (Hpair ref key VUndefined)|exact (Hpair ref key VNull)
      |exact (Hpair ref key (VBool b))|exact (Hpair ref key (VNumber n))
      |
      |exact (Hpair ref key (VFile r f))
      |exact (Hpair ref key (VArray r items))
      |exact (Hpair ref key (VObject r props))].
    destruct s as [|a s]; [exact (Hpair ref key (VString ""))|].
    destruct (ascii_dec a "$") as [->|Hne].
    + assert (E : isFieldReference (VString (String "$" s)) = true).
      { unfold isFieldReference. cbn [String.prefix].
        destruct (ascii_dec "$" "$"); [now destruct s|congruence]. }
      rewrite E. cbn [referencedField]. exact (Hpair ref key _).
    + assert (E : isFieldReference (VString (String a s)) = false).
      { unfold isFieldReference. cbn [String.prefix].
        destruct (ascii_dec "$" a); [congruence|reflexivity]. }
      rewrite E.
      assert (M : match VString (String a s) with
                  | VString (String "$"%char field) => getFieldValue ref field
                  | _ => VString (String a s)
                  end = VString (String a s)).
      { destruct a as [[] [] [] [] [] [] [] []]; try reflexivity.
        now contradiction Hne. }
      rewrite M. exact (Hpair ref key (VString (String a s))).
  - apply commit_formValuesRef.
  - intros props ref Hparams Hfield. unfold buildParams. rewrite Hparams.
    assert (Hres : resolveParam ref (VString "$environment") = VString "gpu").
    { unfold resolveParam, getFieldValue. simpl. now rewrite Hfield. }
    cbn [omap list_omap queryPair]. rewrite Hres. reflexivity.
Qed.

(** C5: the statement at the group that depends on [environment], and at a
    group with parameters of every kind: a reference to a string and to a
    number, a number, a boolean, an object and an array, which go out as
    JSON text, a reference to a field without value and a null, which leave
    no pair, and a number from which [String] writes an exponent. *)
Lemma C5_query_resolution_witness :
  snd (fetchOptions_start partitionProps (environmentIs "gpu")
                          (initialState partitionProps)) =
  [FetchRequest
     "https://portal.example.org/dashboard/jobs/composer/evaluate_dynamic_text?retriever_path=retrievers%2Fpartitions.sh&env=gpu"]
  /\ snd (fetchOptions_start mixedProps mixedFormValues
                             (initialState mixedProps)) =
     [FetchRequest
        "https://portal.example.org/dashboard/jobs/composer/evaluate_dynamic_text?retriever_path=retrievers%2Fpartitions.sh&env=gpu&nodes=4&exclusive=true&limits=%7B%22mem%22%3A64%7D&tags=%5B%22a%22%2Cnull%5D&cores=8&label=on+call&walltime=1e%2B21"].
Proof.
  split.
  - rewrite (proj1 C5_query_resolution partitionProps (environmentIs "gpu")
               (initialState partitionProps) "retrievers/partitions.sh"
               eq_refl).
    unfold requestUrl.
    rewrite (proj2 (proj2 (proj2 (proj2 C5_query_resolution))) partitionProps
               (environmentIs "gpu") eq_refl eq_refl).
    reflexivity.
  - rewrite (proj1 C5_query_resolution mixedProps mixedFormValues
               (initialState mixedProps) "retrievers/partitions.sh"
               eq_refl).
    rewrite (proj1 (proj2 C5_query_resolution) mixedProps mixedFormValues
               _ eq_refl).
    vm_compute. reflexivity.
Defined.

(** The debounced function of a render has armed no timer when the effect
    calls it, so the call cancels nothing. *)
Lemma callDebounced_fresh (selected : string) (now fresh : nat)
  (ts : list Timer) :
  snd (callDebounced debouncedFactory selected now fresh ts) =
  ts ++ [{| timer_id := fresh; due := (now + debounceDelay)%nat;
            timer_selected := selected |}].
Proof. reflexivity. Qed.

(** A render never takes a pending timer away. *)
Lemma commit_keeps_timers (props : Props) (sys : System) :
  exists armed, timers (fst (commit props sys)) = timers sys ++ armed.
Proof.
  unfold commit.
  repeat match goal with
         | |- context [let '(_, _) := ?x in _] => destruct x
         end.
  cbn [fst timers].
  match goal with
  | |- context [if ?b then snd _ else _] => destruct b
  end.
  - rewrite callDebounced_fresh. eauto.
  - exists []. now rewrite app_nil_r.
Qed.

(** A timer armed under one value of the field asks, when it fires, for the
    options of the value the field has by then. *)
Example timer_reads_latest_values :
  option_map fetchLog
    (after [FormValuesChanged (environmentIs "cpu"); Elapsed 100;
            FormValuesChanged (environmentIs "tpu"); Elapsed 200]) =
  Some
    [(0%nat,
      "https://portal.example.org/dashboard/jobs/composer/evaluate_dynamic_text?retriever_path=retrievers%2Fpartitions.sh&env=gpu");
     (1000%nat,
      "https://portal.example.org/dashboard/jobs/composer/evaluate_dynamic_text?retriever_path=retrievers%2Fpartitions.sh&env=cpu");
     (1300%nat,
      "https://portal.example.org/dashboard/jobs/composer/evaluate_dynamic_text?retriever_path=retrievers%2Fpartitions.sh&env=tpu")].
Proof. vm_compute. reflexivity. Qed.

(** C1: evaluated at a shown, evaluated group whose field [environment]
    changes once, one second after the first answer.  The change arms one
    timer for 300 ms later, and the render that follows the change issues a
    request at once, because the group is no longer evaluated; the timer
    issues a second request when it fires.  When the first of the two is
    answered and the field changes again before the timer fires, a second
    timer is armed next to the first; no render ever cancels a timer. *)
Theorem C1_one_change_two_requests :
  option_map fetchTimes evaluatedGroup = Some [0%nat]
  /\ option_map (fun sys => isEvaluated (state sys)) evaluatedGroup = Some true
  /\ option_map fetchTimes
       (after [FormValuesChanged (environmentIs "cpu")]) =
     Some [0%nat; 1000%nat]
  /\ option_map (fun sys => map due (timers sys))
       (after [FormValuesChanged (environmentIs "cpu")]) =
     Some [1300%nat]
  /\ option_map fetchTimes
       (after [FormValuesChanged (environmentIs "cpu"); Elapsed 300]) =
     Some [0%nat; 1000%nat; 1300%nat]
  /\ option_map (fun sys => map due (timers sys))
       (after [FormValuesChanged (environmentIs "cpu"); Elapsed 50;
               FetchSettled 0 (optionsResponse ["normal"]);
               FormValuesChanged (environmentIs "tpu")]) =
     Some [1300%nat; 1350%nat]
  /\ (forall (props : Props) (sys : System),
        exists armed, timers (fst (commit props sys)) = timers sys ++ armed).
Proof.
  repeat (split; [vm_compute; reflexivity|]).
  apply commit_keeps_timers.
Qed.

(** ** The renders after an event come to rest *)

Lemma strictEquals_refl (v : Value) : strictEquals v v = true.
Proof.
  destruct v; simpl; auto using Z.eqb_refl, String.eqb_refl, Nat.eqb_refl.
  now destruct b.
Qed.

Lemma sameDeps_refl (deps : bool * bool * string) :
  sameDeps (Some deps) deps = true.
Proof.
  destruct deps as [[s e] v]. simpl. rewrite String.eqb_refl.
  now destruct s, e.
Qed.

Lemma detectStep_up_to_date (fv : gmap string Value)
  (acc : bool * gmap string Value) (m : string) :
  up_to_date fv (snd (detectStep fv acc m)) m
  /\ (forall n, up_to_date fv (snd acc) n ->
                up_to_date fv (snd (detectStep fv acc m)) n).
Proof.
  destruct acc as [changed prev]. unfold detectStep, up_to_date.
  destruct (strictEquals (getFieldValue fv m) (default VUndefined (prev !! m)))
    eqn:E; cbn [negb snd].
  - split; [exact E|auto].
  - split.
    + rewrite lookup_insert_eq. apply strictEquals_refl.
    + intros n Hn. destruct (decide (m = n)) as [->|Hne].
      * rewrite lookup_insert_eq. apply strictEquals_refl.
      * now rewrite lookup_insert_ne.
Qed.

Lemma detect_fold_up_to_date (fv : gmap string Value) (names : list string)
  (acc : bool * gmap string Value) (n : string) :
  In n names \/ up_to_date fv (snd acc) n ->
  up_to_date fv (snd (fold_left (detectStep fv) names acc)) n.
Proof.
  revert acc. induction names as [|m names IH]; intros acc H; simpl.
  - destruct H as [[]|H]. exact H.
  - apply IH. destruct (detectStep_up_to_date fv acc m) as [Hm Hkeep].
    destruct H as [[->|H]|H]; auto.
Qed.

Lemma detect_fold_unchanged (fv : gmap string Value) (names : list string)
  (changed : bool) (prev : gmap string Value) :
  (forall n, In n names -> up_to_date fv prev n) ->
  fold_left (detectStep fv) names (changed, prev) = (changed, prev).
Proof.
  induction names as [|m names IH]; intros H; [reflexivity|].
  cbn [fold_left].
  assert (Hstep : detectStep fv (changed, prev) m = (changed, prev)).
  { unfold detectStep. pose proof (H m (or_introl eq_refl)) as Hm.
    unfold up_to_date in Hm. now rewrite Hm. }
  rewrite Hstep. apply IH. intros n Hn. apply H. now right.
Qed.

(** Tracking twice over the same FormValues finds nothing the second time. *)
Lemma detectChanges_settled (fv : gmap string Value) (names : list string)
  (prev : gmap string Value) :
  detectChanges fv names (snd (detectChanges fv names prev)) =
  (false, snd (detectChanges fv names prev)).
Proof.
  unfold detectChanges at 1. apply detect_fold_unchanged.
  intros n Hn. unfold detectChanges. apply detect_fold_up_to_date. now left.
Qed.

Lemma fetchOptions_start_deps (props : Props) (ref : gmap string Value)
  (st : State) :
  initialFetchDepsOf props (fst (fetchOptions_start props ref st)) =
  initialFetchDepsOf props st.
Proof.
  unfold fetchOptions_start.
  now destruct (configuredRetrieverPath props).
Qed.

(** What one render leaves behind. *)
Lemma commit_summary (props : Props) (sys : System) :
  let next := fst (commit props sys) in
  formValues next = formValues sys
  /\ prevRelevantValuesRef next = snd (trackDependencies props sys)
  /\ initialFetchDeps next = Some (initialFetchDepsOf props (state sys))
  /\ (fst (trackDependencies props sys) = false ->
      initialFetchDepsOf props (state next) =
      initialFetchDepsOf props (state sys))
  /\ (fst (trackDependencies props sys) = false ->
      initialFetchRuns props sys = false ->
      snd (commit props sys) = false).
Proof.
  cbv zeta. unfold commit.
  pose proof (fetchOptions_start_deps props (formValues sys) (state sys))
    as Hdeps.
  destruct (fetchOptions_start props (formValues sys) (state sys))
    as [stF effF].
  destruct (trackDependencies props sys) as [changed prev].
  destruct (initialFetchRuns props sys); cbn [fst snd] in *;
    (split; [reflexivity|]); (split; [reflexivity|]);
    (split; [reflexivity|]); split; intros ->; cbn [andb];
    try assumption; try reflexivity; try discriminate.
Qed.

Lemma commit_tracked (props : Props) (sys : System) :
  tracked props (fst (commit props sys)).
Proof.
  destruct (commit_summary props sys) as (Hfv & Hprev & _).
  unfold tracked, trackDependencies. rewrite Hfv, Hprev.
  unfold trackDependencies.
  destruct (negb (shown props)
            || match retrieverParams props with
               | Some _ => false
               | None => true
               end
            || Nat.eqb (length (relevantFieldNames props)) 0);
    [reflexivity|].
  apply detectChanges_settled.
Qed.

(** After an event at most three renders follow: the first may start a
    refetch, the second may start the request that the first made due, and
    the third changes nothing. *)
Theorem settle_total (props : Props) (sys : System) :
  exists sys', settle renderBudget props sys = Some sys'.
Proof.
  unfold renderBudget. cbn [settle].
  pose proof (commit_tracked props sys) as T1.
  destruct (commit props sys) as [s1 d1]. cbn [fst] in T1.
  destruct d1; [|eauto].
  pose proof (commit_tracked props s1) as T2.
  destruct (commit_summary props s1) as (_ & _ & Hdeps & Hkeep & _).
  destruct (commit props s1) as [s2 d2]. cbn [fst] in *.
  destruct d2; [|eauto].
  destruct (commit_summary props s2) as (_ & _ & _ & _ & Hclean).
  destruct (commit props s2) as [s3 d3]. cbn [fst snd] in *.
  unfold tracked in T1, T2.
  rewrite Hclean; [eauto|now rewrite T2|].
  unfold initialFetchRuns. rewrite Hdeps, Hkeep by now rewrite T1.
  now rewrite sameDeps_refl.
Qed.

Lemma settle_S (fuel : nat) (props : Props) (sys : System) :
  settle (S fuel) props sys =
  let (sys', dirty) := commit props sys in
  if dirty then settle fuel props sys' else Some sys'.
Proof. reflexivity. Qed.

Lemma commit_tracked_timers (props : Props) (sys : System) :
  tracked props sys -> timers (fst (commit props sys)) = timers sys.
Proof.
  unfold tracked, commit. intros ->.
  now destruct (if initialFetchRuns props sys
                then fetchOptions_start props (formValues sys) (state sys)
                else (state sys, [])).
Qed.

(** While the fields are unchanged the renders arm no timer. *)
Lemma settle_tracked (fuel : nat) (props : Props) (sys sys' : System) :
  tracked props sys ->
  settle fuel props sys = Some sys' ->
  timers sys' = timers sys /\ tracked props sys'.
Proof.
  revert sys. induction fuel as [|fuel IH]; intros sys T H; [discriminate H|].
  cbn [settle] in H.
  pose proof (commit_tracked_timers props sys T) as Ht.
  pose proof (commit_tracked props sys) as T'.
  destruct (commit props sys) as [s1 d1]. cbn [fst] in *.
  destruct d1.
  - destruct (IH s1 T' H) as [H1 H2]. split; [congruence|exact H2].
  - injection H as <-. split; assumption.
Qed.

Lemma clearTimeout_shorter (t : Timer) (ts : list Timer) :
  In t ts -> (length (clearTimeout (timer_id t) ts) < length ts)%nat.
Proof.
  unfold clearTimeout. induction ts as [|u ts IH]; [easy|].
  intros [->|Hin]; simpl.
  - rewrite Nat.eqb_refl. simpl.
    pose proof (List.filter_length_le
                  (fun t0 => negb (Nat.eqb (timer_id t0) (timer_id t))) ts).
    lia.
  - specialize (IH Hin).
    destruct (negb (Nat.eqb (timer_id u) (timer_id t))); simpl; lia.
Qed.

(** A timer that fires is gone afterwards, and the renders that follow come
    to rest. *)
Lemma fireTimer_total (props : Props) (t : Timer) (sys : System) :
  tracked props sys -> In t (timers sys) ->
  exists sys',
    fireTimer props t sys = Some sys'
    /\ tracked props sys'
    /\ (length (timers sys') < length (timers sys))%nat.
Proof.
  intros T Hin. unfold fireTimer.
  destruct (fetchOptions_start props (formValuesRef sys) (state sys))
    as [st effects].
  match goal with
  | |- context [settle renderBudget props ?s] =>
      destruct (settle_total props s) as [sys' H];
      destruct (settle_tracked renderBudget props s sys' T H) as [Ht T']
  end.
  exists sys'. split; [exact H|]. split; [exact T'|].
  rewrite Ht. cbn [timers]. now apply clearTimeout_shorter.
Qed.

(** Time always passes: the due timers fire and the group comes to rest. *)
Lemma advance_total (fuel : nat) (props : Props) (target : nat)
  (sys : System) :
  tracked props sys ->
  (length (timers sys) < fuel)%nat ->
  exists sys', advance fuel props target sys = Some sys' /\ tracked props sys'.
Proof.
  revert sys. induction fuel as [|fuel IH]; intros sys T Hlen; [lia|].
  cbn [advance].
  destruct (find (fun t => Nat.leb (due t) target) (timers sys)) as [t|] eqn:F.
  - apply find_some in F. destruct F as [Hin _].
    destruct (fireTimer_total props t sys T Hin) as (s1 & -> & T1 & Hless).
    apply IH; [exact T1|lia].
  - eexists. split; [reflexivity|exact T].
Qed.

(** The renders come to rest whatever state they start from. *)
Lemma settle_rest (props : Props) (sys : System) :
  exists sys', settle renderBudget props sys = Some sys' /\ tracked props sys'.
Proof.
  destruct (settle_total props sys) as [sys' H].
  exists sys'. split; [exact H|].
  revert H. change renderBudget with (S 7). rewrite settle_S.
  pose proof (commit_tracked props sys) as T1.
  destruct (commit props sys) as [s1 d1]. cbn [fst] in T1. destruct d1.
  - intros H. now apply (settle_tracked _ _ _ _ T1 H).
  - now intros [= <-].
Qed.

(** The component mounts, and is at rest afterwards. *)
Theorem mount_total (props : Props) (formValues0 : gmap string Value) :
  exists sys, mount props formValues0 = Some sys /\ tracked props sys.
Proof. unfold mount. apply settle_rest. Qed.

(** Every event is handled, and the group is at rest afterwards. *)
Theorem step_total (props : Props) (sys : System) (ev : Event) :
  tracked props sys ->
  exists sys', step props sys ev = Some sys' /\ tracked props sys'.
Proof.
  intros T. destruct ev as [fv|ms|index outcome|newValue]; cbn [step].
  - apply settle_rest.
  - apply advance_total; [exact T|lia].
  - destruct (nth_error (inFlight sys) index) as [request|]; [|eauto].
    destruct (fetchOptions_settle props (request_selected request) outcome
                                  (state sys)) as [st effects].
    apply settle_rest.
  - apply settle_rest.
Qed.

(** So is every sequence of events. *)
Theorem run_total (props : Props) (events : list Event) (sys : System) :
  tracked props sys ->
  exists sys', run props sys events = Some sys' /\ tracked props sys'.
Proof.
  revert sys. induction events as [|ev events IH]; intros sys T; cbn [run].
  - eauto.
  - destruct (step_total props sys ev T) as (s1 & -> & T1). now apply IH.
Qed.

End DynamicRadioGroupFacts.

(* ===================================================================== *)
(** * Properties of the parts of a payload *)
(* ===================================================================== *)

Module PayloadFacts.
Import JS.
Import MultiPane.
Import Composer.
Import Payload.
Import JSFacts.
Import ComposerFacts.

(** ** Objects keep each property once *)

Lemma getOwn_None_iff (props : Properties) (key : string) :
  getOwn props key = None <-> ~ In key (map fst props).
Proof.
  induction props as [|[k v] props IH]; simpl; [tauto|].
  destruct (String.eqb k key) eqn:E.
  - apply String.eqb_eq in E. split; [discriminate|]. intros H. tauto.
  - apply String.eqb_neq in E. rewrite IH. tauto.
Qed.

Lemma hasOwn_true_iff (props : Properties) (key : string) :
  hasOwn props key = true <-> In key (map fst props).
Proof.
  unfold hasOwn. pose proof (getOwn_None_iff props key) as H.
  destruct (getOwn props key).
  - split; [intros _|reflexivity].
    destruct (in_dec String.string_dec key (map fst props)) as [Hin|Hn]; [exact Hin|].
    apply H in Hn. discriminate Hn.
  - split; [discriminate|]. intros Hin. now apply H in Hin.
Qed.

Lemma keys_replaceOwn (props : Properties) (key : string) (v : Value) :
  map fst (replaceOwn props key v) = map fst props.
Proof.
  induction props as [|[k x] props IH]; [reflexivity|]. simpl.
  destruct (String.eqb k key); simpl; [reflexivity|now rewrite IH].
Qed.

Lemma keys_insertIndexKey (props : Properties) (key : string) (n : N)
  (v : Value) :
  Permutation (map fst (insertIndexKey props key n v)) (key :: map fst props).
Proof.
  induction props as [|[k x] props IH]; simpl; [reflexivity|].
  destruct (arrayIndex k) as [m|]; [destruct (m <? n)%N|]; simpl;
    try reflexivity.
  rewrite IH. apply perm_swap.
Qed.

(** Writing a property that exists leaves the keys as they are. *)
Lemma keys_setProperty_existing (props : Properties) (key : string)
  (v : Value) :
  hasOwn props key = true ->
  map fst (setProperty props key v) = map fst props.
Proof.
  intros H. unfold setProperty. rewrite H. apply keys_replaceOwn.
Qed.

(** Writing a property keeps every property once. *)
Lemma wellFormed_setProperty (props : Properties) (key : string) (v : Value) :
  wellFormed props -> wellFormed (setProperty props key v).
Proof.
  unfold wellFormed, setProperty. intros Hnd.
  destruct (hasOwn props key) eqn:H.
  - now rewrite keys_replaceOwn.
  - assert (Hnot : ~ In key (map fst props)).
    { intros Hin. apply hasOwn_true_iff in Hin. congruence. }
    destruct (String.eqb key protoKey); [exact Hnd|].
    destruct (arrayIndex key) as [n|].
    + eapply Permutation_NoDup;
        [symmetry; apply keys_insertIndexKey|].
      now constructor.
    + rewrite map_app. simpl.
      eapply Permutation_NoDup; [apply Permutation_cons_append|].
      now constructor.
Qed.

(** Two objects with the same keys in the same order and the same value
    under every key are the same. *)
Lemma properties_ext (a b : Properties) :
  wellFormed a ->
  map fst a = map fst b ->
  (forall key, getOwn a key = getOwn b key) ->
  a = b.
Proof.
  unfold wellFormed. revert b.
  induction a as [|[k v] a IH]; intros [|[k' v'] b] Hnd Hkeys Hget;
    try discriminate Hkeys; [reflexivity|].
  simpl in Hkeys. injection Hkeys as <- Hkeys.
  inversion Hnd as [|? ? Hnotin Hnd']; subst.
  pose proof (Hget k) as Hk. simpl in Hk. rewrite String.eqb_refl in Hk.
  injection Hk as <-. f_equal. apply IH; [exact Hnd'|exact Hkeys|].
  intros key. specialize (Hget key). simpl in Hget.
  destruct (String.eqb k key) eqn:E; [|exact Hget].
  apply String.eqb_eq in E. subst key.
  assert (Ha : getOwn a k = None) by now apply getOwn_None_iff.
  assert (Hb : getOwn b k = None)
    by (apply getOwn_None_iff; now rewrite <- Hkeys).
  congruence.
Qed.

(** ** The two loops and the object of additional files *)

Lemma rerun_fold_bundle (paneRefs : list PaneRef)
  (data additional : Properties) :
  snd (fold_left rerunStep paneRefs (data, additional)) =
  fold_left bundleStep paneRefs additional.
Proof.
  revert data additional.
  induction paneRefs as [|ref paneRefs IH]; intros data additional;
    [reflexivity|].
  cbn [fold_left]. unfold rerunStep at 2, bundleStep at 2.
  destruct (current ref) as [cur|]; [|apply IH].
  destruct (isDistinguished (getAttribute cur "name")); apply IH.
Qed.

Lemma fresh_fold (paneRefs : list PaneRef) (formData : FormData)
  (additional : Properties) :
  fold_left freshStep paneRefs (formData, additional) =
  (formData ++ flat_map distinguishedField paneRefs,
   fold_left bundleStep paneRefs additional).
Proof.
  revert formData additional.
  induction paneRefs as [|ref paneRefs IH]; intros formData additional.
  - simpl. now rewrite app_nil_r.
  - cbn [fold_left flat_map]. unfold freshStep at 2.
    unfold distinguishedField at 1, bundleStep at 2.
    destruct (current ref) as [cur|]; [|apply IH].
    destruct (isDistinguished (getAttribute cur "name")); rewrite IH;
      unfold FormData_append; cbn [fieldValue toString app];
      now rewrite <- ?app_assoc.
Qed.

Lemma additionalFilesOf_bundle (c : State) (paneRefs : list PaneRef) :
  additionalFilesOf c paneRefs = bundle paneRefs.
Proof. apply rerun_fold_bundle. Qed.

Lemma stringifyObject_text (props : Properties) :
  exists json, stringifyObject props = VString json.
Proof. unfold stringifyObject. simpl. eauto. Qed.

Lemma FormData_get_distinguished_other (paneRefs : list PaneRef)
  (key : string) :
  isDistinguishedKey key = false ->
  FormData_get (flat_map distinguishedField paneRefs) key = None.
Proof.
  intros Hkey. induction paneRefs as [|ref paneRefs IH]; [reflexivity|].
  cbn [flat_map]. rewrite FormData_get_app, IH.
  unfold distinguishedField. destruct (current ref) as [cur|]; [|reflexivity].
  change (getAttribute cur "name") with (Some (elem_pane_name cur)).
  cbn [propertyKey].
  change (isDistinguished (Some (elem_pane_name cur)))
    with (isDistinguishedKey (elem_pane_name cur)).
  destruct (isDistinguishedKey (elem_pane_name cur)) eqn:Hd; [|reflexivity].
  simpl. destruct (String.eqb (elem_pane_name cur) key) eqn:E; [|reflexivity].
  apply String.eqb_eq in E. congruence.
Qed.

Lemma getFormData_fresh (c : State) (panes : option (list Pane)) :
  multiPane c = Some panes ->
  jobStatus c <> Some "rerun" ->
  getFormData c =
  (Some (formFields c
         ++ flat_map distinguishedField (getPaneRefs panes)
         ++ [("additional_files",
              fieldValue (stringifyObject (bundle (getPaneRefs panes))))]
         ++ envField c ++ fileFields c),
   c).
Proof.
  intros Hm Hj. unfold getFormData. rewrite Hm.
  assert (Hmode : match jobStatus c with
                  | Some s => String.eqb s "rerun"
                  | None => false
                  end = false).
  { destruct (jobStatus c) as [s|]; [|reflexivity].
    destruct (String.eqb s "rerun") eqn:E; [|reflexivity].
    apply String.eqb_eq in E. subst s. contradiction. }
  rewrite Hmode. f_equal. f_equal.
  unfold freshFormData. rewrite fresh_fold.
  unfold envField, fileFields, bundle.
  destruct (environment c) as [e|]; [destruct (truthy (src e))|];
    destruct (globalFiles c) as [[r files]|];
    rewrite ?fold_append_items; unfold FormData_append;
    rewrite ?app_nil_r, <- ?app_assoc; reflexivity.
Qed.

Lemma getFormData_formAction (c : State) :
  formAction (snd (getFormData c)) = formAction c.
Proof.
  unfold getFormData. destruct (multiPane c); [|reflexivity].
  now destruct (match jobStatus c with
                | Some s => String.eqb s "rerun"
                | None => false
                end).
Qed.

(** A submission attempt prevents the default action of the form and then
    does one thing, an alert or a call of [submitJob]; it calls [submitJob]
    exactly when no job is in flight, the payload could be assembled and its
    name is not the empty string, and then with the action of the form and
    that payload. *)
Theorem handleSubmit_outcome (c : State) :
  (exists a,
     fst (handleSubmit c) = [PreventDefault; a]
     /\ (isAlert a = true \/ isSubmitJob a = true))
  /\ (forall action formData,
        In (SubmitJob action formData) (fst (handleSubmit c)) <->
        isJobRunning c = false
        /\ fst (getFormData c) = Some formData
        /\ FormData_get formData "name" <> Some (FDString "")
        /\ action = formAction c).
Proof.
  pose proof (getFormData_formAction c) as Hact.
  unfold handleSubmit. destruct (isJobRunning c).
  - split; [eexists; split; [reflexivity|now left]|].
    intros action fd. split.
    + intros [H|[H|[]]]; discriminate H.
    + intros [H _]. discriminate H.
  - destruct (getFormData c) as [[fd|] c'] eqn:Hfd; cbn [fst snd] in *.
    + assert (Hsubmit :
        FormData_get fd "name" <> Some (FDString "") ->
        forall action fd',
          In (SubmitJob action fd')
             [PreventDefault; SubmitJob (formAction c') fd] <->
          false = false /\ Some fd = Some fd'
          /\ FormData_get fd' "name" <> Some (FDString "")
          /\ action = formAction c).
      { intros Hne action fd'. split.
        - intros [H|[H|[]]]; [discriminate H|].
          injection H as <- <-. repeat split; [exact Hne|exact Hact].
        - intros (_ & Hfd' & _ & ->). injection Hfd' as <-.
          right. left. now rewrite Hact. }
      destruct (FormData_get fd "name") as [[[|a s]|r f]|] eqn:Hname;
        cbn [fst].
      * split; [eexists; split; [reflexivity|now left]|].
        intros action fd'. split.
        -- intros [H|[H|[]]]; discriminate H.
        -- intros (_ & Hfd' & Hne & _). injection Hfd' as <-. congruence.
      * split; [eexists; split; [reflexivity|now right]|].
        apply Hsubmit. discriminate.
      * split; [eexists; split; [reflexivity|now right]|].
        apply Hsubmit. discriminate.
      * split; [eexists; split; [reflexivity|now right]|].
        apply Hsubmit. discriminate.
    + split; [eexists; split; [reflexivity|now left]|].
      intros action fd. split.
      * intros [H|[H|[]]]; discriminate H.
      * intros (_ & H & _). discriminate H.
Qed.

(** The payload is null exactly when the editor is not mounted; a
    submission attempt then shows the alert about the form data and leaves
    everything as it was. *)
Theorem getFormData_null_when_not_mounted (c : State) :
  (fst (getFormData c) = None <-> multiPane c = None)
  /\ (multiPane c = None ->
      isJobRunning c = false ->
      handleSubmit c =
      ([PreventDefault; Alert "Error preparing form data."], c)).
Proof.
  split.
  - unfold getFormData. destruct (multiPane c) as [panes|]; [|easy].
    destruct (match jobStatus c with
              | Some s => String.eqb s "rerun"
              | None => false
              end); split; discriminate.
  - intros Hm Hrun. unfold handleSubmit, getFormData. now rewrite Hrun, Hm.
Qed.

Lemma getFormData_null_when_not_mounted_witness :
  handleSubmit editorNotMounted =
  ([PreventDefault; Alert "Error preparing form data."], editorNotMounted).
Proof.
  apply (proj2 (getFormData_null_when_not_mounted editorNotMounted));
    reflexivity.
Defined.

(** In fresh mode the payload is the fields of the form element, then one
    field for every pane named [driver] or [run_command] in pane order,
    then [additional_files], then [env_dir] when the environment has a
    directory, then one [files[]] field for every attached file; the state
    is left as it was, and a field of the form element is not displaced by a
    later field of the same name.  The object whose JSON text goes under
    [additional_files] has one entry for every other pane name but
    [__proto__], with the text of the last pane of that name; a pane named
    [__proto__] leaves no entry. *)
Theorem fresh_payload (c : State) (panes : option (list Pane)) :
  multiPane c = Some panes ->
  jobStatus c <> Some "rerun" ->
  let payload :=
    formFields c
    ++ flat_map distinguishedField (getPaneRefs panes)
    ++ [("additional_files",
         fieldValue (stringifyObject (bundle (getPaneRefs panes))))]
    ++ envField c ++ fileFields c in
  getFormData c = (Some payload, c)
  /\ (forall key v,
        FormData_get (formFields c) key = Some v ->
        FormData_get payload key = Some v)
  /\ (FormData_get (formFields c) "additional_files" = None ->
      FormData_get payload "additional_files" =
      Some (fieldValue (stringifyObject (bundle (getPaneRefs panes)))))
  /\ (forall key,
        getOwn (bundle (getPaneRefs panes)) key =
        if isDistinguishedKey key || String.eqb key "__proto__" then None
        else option_map VString (lastValue key (getPaneRefs panes))).
Proof.
  intros Hm Hj. cbv zeta. split; [now apply getFormData_fresh|].
  split; [|split].
  - intros key v H. now rewrite FormData_get_app, H.
  - intros H. rewrite FormData_get_app, H, FormData_get_app.
    now rewrite FormData_get_distinguished_other by reflexivity.
  - intros key. rewrite <- (additionalFilesOf_bundle c).
    apply (rerunLoop_getOwn c (getPaneRefs panes) key).
Qed.

Lemma fresh_payload_witness :
  getFormData freshSubmission =
  (Some [("name", FDString "job-18"); ("location", FDString "/scratch");
         ("driver", FDString "echo hi");
         ("additional_files", FDString exampleAdditionalFiles);
         ("env_dir", FDString "/envs/generic");
         ("files[]", FDFile 3 "input.dat")],
   freshSubmission)
  /\ getFormData freshWithProtoPane =
     (Some [("name", FDString "job-18"); ("driver", FDString "echo hi");
            ("additional_files", FDString additionalFilesWithoutProto)],
      freshWithProtoPane).
Proof.
  destruct (fresh_payload freshSubmission (Some examplePanes))
    as (H & _); [reflexivity|discriminate|].
  destruct (fresh_payload freshWithProtoPane (Some panesWithProto))
    as (H' & _); [reflexivity|discriminate|].
  rewrite H, H'. split; reflexivity.
Defined.

(** The two modes bundle the panes into the same text: for the same panes,
    the field [additional_files] of a rerun payload and that of a fresh
    payload (whose form element has no field of that name) are equal. *)
Theorem additional_files_same_in_both_modes (rerun fresh : State)
  (panes : option (list Pane)) :
  multiPane rerun = Some panes -> jobStatus rerun = Some "rerun" ->
  multiPane fresh = Some panes -> jobStatus fresh <> Some "rerun" ->
  FormData_get (formFields fresh) "additional_files" = None ->
  exists rerunPayload freshPayload json,
    fst (getFormData rerun) = Some rerunPayload
    /\ fst (getFormData fresh) = Some freshPayload
    /\ stringify (VObject 0 (bundle (getPaneRefs panes))) = Some json
    /\ FormData_get rerunPayload "additional_files" = Some (FDString json)
    /\ FormData_get freshPayload "additional_files" = Some (FDString json).
Proof.
  intros Hm1 Hj1 Hm2 Hj2 Hform.
  rewrite (getFormData_rerun rerun panes Hj1 Hm1),
          (getFormData_fresh fresh panes Hm2 Hj2). cbn [fst].
  destruct (stringify (VObject 0 (bundle (getPaneRefs panes))))
    as [json|] eqn:Hjson; [|discriminate Hjson].
  do 2 eexists. exists json.
  split; [reflexivity|]. split; [reflexivity|]. split; [reflexivity|].
  split.
  - apply FormData_get_formDataOfRecord; [|reflexivity].
    rewrite rerunRecord_getOwn. cbv zeta.
    rewrite additionalFilesOf_bundle. unfold stringifyObject. rewrite Hjson.
    now destruct (globalFiles rerun) as [[r files]|].
  - transitivity
      (Some (fieldValue (stringifyObject (bundle (getPaneRefs panes))))).
    + rewrite FormData_get_app, Hform, FormData_get_app.
      now rewrite FormData_get_distinguished_other by reflexivity.
    + unfold stringifyObject. now rewrite Hjson.
Qed.

Lemma additional_files_same_in_both_modes_witness :
  exists rerunPayload freshPayload,
    fst (getFormData rerunWithoutName) = Some rerunPayload
    /\ fst (getFormData freshSubmission) = Some freshPayload
    /\ FormData_get rerunPayload "additional_files" =
       FormData_get freshPayload "additional_files".
Proof.
  destruct (additional_files_same_in_both_modes rerunWithoutName
              freshSubmission (Some examplePanes))
    as (p1 & p2 & json & H1 & H2 & _ & G1 & G2);
    [reflexivity|reflexivity|reflexivity|discriminate|reflexivity|].
  exists p1, p2. split; [exact H1|]. split; [exact H2|]. congruence.
Defined.

(** ** The rerun payload and the record it is read from *)

Lemma FormData_get_record (data : Properties) (key : string) :
  wellFormed data ->
  endsWithBrackets key = false ->
  FormData_get (formDataOfRecord data) key = recordField (getOwn data key).
Proof.
  intros Hwf Hkey. unfold formDataOfRecord. rewrite formDataOfRecord_from.
  cbn [app]. induction data as [|[k v] data IH]; [reflexivity|].
  inversion Hwf as [|? ? Hnotin Hwf']; subst.
  cbn [flat_map getOwn]. rewrite FormData_get_app.
  destruct (String.eqb k key) eqn:E.
  - apply String.eqb_eq in E. subst k.
    assert (Hrest : FormData_get (flat_map entryFields data) key = None).
    { rewrite (IH Hwf').
      assert (Hnone : getOwn data key = None) by now apply getOwn_None_iff.
      now rewrite Hnone. }
    unfold entryFields at 1, appendEntry.
    destruct v; rewrite ?fold_append_items; unfold FormData_append;
      cbn [app FormData_get recordField fieldValue toString];
      rewrite ?String.eqb_refl; try reflexivity; try exact Hrest.
    rewrite FormData_get_items_other; [exact Hrest|].
    intros Heq. rewrite <- Heq, endsWithBrackets_app in Hkey.
    discriminate Hkey.
  - apply String.eqb_neq in E.
    rewrite FormData_get_entryFields_other by assumption.
    now apply IH.
Qed.

Lemma wellFormed_rerun_fold (paneRefs : list PaneRef)
  (data additional : Properties) :
  wellFormed data ->
  wellFormed (fst (fold_left rerunStep paneRefs (data, additional))).
Proof.
  revert data additional.
  induction paneRefs as [|ref paneRefs IH]; intros data additional Hwf;
    [exact Hwf|].
  cbn [fold_left]. unfold rerunStep at 2.
  destruct (current ref) as [cur|]; [|now apply IH].
  destruct (isDistinguished (getAttribute cur "name")); apply IH;
    [now apply wellFormed_setProperty|exact Hwf].
Qed.

Lemma wellFormed_rerunRecord (c : State) (paneRefs : list PaneRef) :
  wellFormed (rerunInfo c) -> wellFormed (rerunRecord c paneRefs).
Proof.
  intros Hwf. unfold rerunRecord.
  assert (H : wellFormed (fst (rerunLoop c paneRefs)))
    by (unfold rerunLoop; apply wellFormed_rerun_fold; exact Hwf).
  destruct (rerunLoop c paneRefs) as [d a]. cbn [fst] in H.
  destruct (globalFiles c) as [[r files]|];
    repeat apply wellFormed_setProperty; exact H.
Qed.

Lemma rerun_unwritten_entry (c : State) (panes : option (list Pane))
  (key : string) :
  wellFormed (rerunInfo c) ->
  isWrittenKey key = false ->
  endsWithBrackets key = false ->
  FormData_get (formDataOfRecord (rerunRecord c (getPaneRefs panes))) key =
  recordField (getOwn (rerunInfo c) key).
Proof.
  intros Hwf Hkey Hb.
  rewrite FormData_get_record
    by (try apply wellFormed_rerunRecord; assumption).
  f_equal. unfold isWrittenKey in Hkey.
  apply orb_false_iff in Hkey. destruct Hkey as [Hkey Hf].
  apply orb_false_iff in Hkey. destruct Hkey as [Hd Ha].
  rewrite String.eqb_sym in Hf. rewrite String.eqb_sym in Ha.
  rewrite rerunRecord_getOwn. cbv zeta. rewrite Ha, Hf.
  destruct (rerunLoop_getOwn c (getPaneRefs panes) key) as [H _].
  rewrite H, Hd. now destruct (globalFiles c) as [[r files]|].
Qed.

(** In rerun mode the entries of the prior-job record that the branch does
    not write to pass into the payload under their own names: a string as it
    is, a Number as the text [String] gives it (decimal digits up to 21 of
    them, with an exponent beyond), a boolean as [true] or [false], any
    other object as [[object Object]], a file as the file; an entry that is
    undefined or null gives no field, and the items of an array go under
    another name. *)
Theorem rerun_passes_record_entries (c : State) (panes : option (list Pane))
  (key : string) :
  jobStatus c = Some "rerun" ->
  multiPane c = Some panes ->
  wellFormed (rerunInfo c) ->
  isWrittenKey key = false ->
  endsWithBrackets key = false ->
  exists payload,
    fst (getFormData c) = Some payload
    /\ FormData_get payload key =
       match getOwn (rerunInfo c) key with
       | Some (VString s) => Some (FDString s)
       | Some (VNumber n) => Some (FDString (numberToString n))
       | Some (VBool true) => Some (FDString "true")
       | Some (VBool false) => Some (FDString "false")
       | Some (VObject _ _) => Some (FDString "[object Object]")
       | Some (VFile r f) => Some (FDFile r f)
       | Some (VArray _ _) | Some VUndefined | Some VNull | None => None
       end.
Proof.
  intros Hj Hm Hwf Hkey Hb. rewrite (getFormData_rerun c panes Hj Hm).
  eexists. split; [reflexivity|]. cbn [fst].
  rewrite (rerun_unwritten_entry c panes key Hwf Hkey Hb).
  now destruct (getOwn (rerunInfo c) key) as [[| |[|]| | | | |]|].
Qed.

Lemma rerun_passes_record_entries_witness :
  exists payload,
    fst (getFormData rerunWithNumbers) = Some payload
    /\ FormData_get payload "nodes" = Some (FDString "4")
    /\ FormData_get payload "walltime" = Some (FDString "1e+21")
    /\ FormData_get payload "exclusive" = Some (FDString "true")
    /\ FormData_get payload "account" = None
    /\ FormData_get payload "limits" = Some (FDString "[object Object]").
Proof.
  assert (Hwf : wellFormed (rerunInfo rerunWithNumbers)).
  { repeat constructor; simpl; intuition discriminate. }
  pose proof (fun key =>
                rerun_passes_record_entries rerunWithNumbers
                  (Some examplePanes) key eq_refl eq_refl Hwf) as H.
  destruct (H "nodes" eq_refl eq_refl) as (payload & Hp & Hnodes).
  destruct (H "walltime" eq_refl eq_refl) as (p1 & Hp1 & Hwall).
  destruct (H "exclusive" eq_refl eq_refl) as (p2 & Hp2 & Hexcl).
  destruct (H "account" eq_refl eq_refl) as (p3 & Hp3 & Hacc).
  destruct (H "limits" eq_refl eq_refl) as (p4 & Hp4 & Hlim).
  assert (E1 : p1 = payload) by congruence.
  assert (E2 : p2 = payload) by congruence.
  assert (E3 : p3 = payload) by congruence.
  assert (E4 : p4 = payload) by congruence.
  subst p1 p2 p3 p4.
  exists payload. split; [exact Hp|].
  split; [exact Hnodes|]. split; [exact Hwall|]. split; [exact Hexcl|].
  split; [exact Hacc|exact Hlim].
Defined.

(** The empty-name guard looks for the empty string only: a rerun whose
    record has no name at all is submitted. *)
Theorem rerun_without_name_entry_is_submitted (c : State)
  (panes : option (list Pane)) :
  jobStatus c = Some "rerun" ->
  multiPane c = Some panes ->
  wellFormed (rerunInfo c) ->
  isJobRunning c = false ->
  recordField (getOwn (rerunInfo c) "name") = None ->
  exists payload,
    fst (getFormData c) = Some payload
    /\ FormData_get payload "name" = None
    /\ fst (handleSubmit c) = [PreventDefault; SubmitJob (formAction c) payload].
Proof.
  intros Hj Hm Hwf Hrun Hname.
  pose proof (rerun_unwritten_entry c panes "name" Hwf eq_refl eq_refl)
    as Hget.
  assert (Hp : fst (getFormData c) =
               Some (formDataOfRecord (rerunRecord c (getPaneRefs panes))))
    by now rewrite (getFormData_rerun c panes Hj Hm).
  eexists. rewrite Hname in Hget. split; [exact Hp|].
  split; [exact Hget|].
  pose proof (getFormData_formAction c) as Hact.
  unfold handleSubmit. rewrite Hrun.
  destruct (getFormData c) as [fd c']. cbn [fst snd] in *.
  subst fd. now rewrite Hget, Hact.
Qed.

Lemma rerun_without_name_entry_is_submitted_witness :
  exists payload,
    fst (handleSubmit rerunUnnamed) =
    [PreventDefault; SubmitJob (Some "/jobs/composer/submit") payload]
    /\ FormData_get payload "name" = None.
Proof.
  destruct (rerun_without_name_entry_is_submitted rerunUnnamed
              (Some examplePanes))
    as (payload & _ & Hget & Hs); try reflexivity.
  - repeat constructor; simpl; intuition discriminate.
  - exists payload. split; [exact Hs|exact Hget].
Defined.

(** ** Assembling a rerun payload twice *)

Lemma lastValue_of_member (key : string) (paneRefs : list PaneRef)
  (ref : PaneRef) (text : string) :
  In ref paneRefs -> refValue key ref = Some text ->
  exists text', lastValue key paneRefs = Some text'.
Proof.
  induction paneRefs as [|r paneRefs IH]; [easy|].
  intros [->|Hin] Href; cbn [lastValue].
  - destruct (lastValue key paneRefs); [eauto|]. rewrite Href. eauto.
  - destruct (IH Hin Href) as [t Ht]. rewrite Ht. eauto.
Qed.

Lemma keys_rerun_fold (paneRefs : list PaneRef)
  (data additional : Properties) :
  (forall ref cur,
     In ref paneRefs -> current ref = Some cur ->
     isDistinguishedKey (elem_pane_name cur) = true ->
     hasOwn data (elem_pane_name cur) = true) ->
  map fst (fst (fold_left rerunStep paneRefs (data, additional))) =
  map fst data.
Proof.
  revert data additional.
  induction paneRefs as [|ref paneRefs IH]; intros data additional H;
    [reflexivity|].
  cbn [fold_left]. unfold rerunStep at 2.
  destruct (current ref) as [cur|] eqn:Hcur;
    [|apply IH; intros r c0 Hin; apply H; now right].
  change (getAttribute cur "name") with (Some (elem_pane_name cur)).
  cbn [propertyKey].
  change (isDistinguished (Some (elem_pane_name cur)))
    with (isDistinguishedKey (elem_pane_name cur)).
  destruct (isDistinguishedKey (elem_pane_name cur)) eqn:Hd;
    [|apply IH; intros r c0 Hin; apply H; now right].
  assert (Hhas : hasOwn data (elem_pane_name cur) = true)
    by (apply (H ref cur); auto; now left).
  rewrite IH.
  - now apply keys_setProperty_existing.
  - intros r c0 Hin Hc0 Hd0. apply hasOwn_true_iff.
    rewrite keys_setProperty_existing by exact Hhas.
    apply hasOwn_true_iff. apply (H r c0); auto. now right.
Qed.

Lemma rerunRecord_distinguished (c : State) (paneRefs : list PaneRef)
  (key text : string) :
  isDistinguishedKey key = true ->
  lastValue key paneRefs = Some text ->
  getOwn (rerunRecord c paneRefs) key = Some (VString text).
Proof.
  intros Hd Hlast.
  assert (Hkey : String.eqb "additional_files" key = false
                 /\ String.eqb "files" key = false).
  { destruct (isDistinguishedKey_cases key Hd) as [->| ->]; now split. }
  destruct Hkey as [Ha Hf].
  rewrite rerunRecord_getOwn. cbv zeta. rewrite Ha, Hf.
  destruct (rerunLoop_getOwn c paneRefs key) as [H _].
  rewrite H, Hd, Hlast. now destruct (globalFiles c) as [[r files]|].
Qed.

Lemma rerunRecord_again (c : State) (paneRefs : list PaneRef) :
  wellFormed (rerunInfo c) ->
  rerunRecord (set_rerunInfo c (rerunRecord c paneRefs)) paneRefs =
  rerunRecord c paneRefs.
Proof.
  intros Hwf. set (d := rerunRecord c paneRefs). set (c' := set_rerunInfo c d).
  assert (Hwfd : wellFormed d) by now apply wellFormed_rerunRecord.
  assert (Hget : forall key,
             getOwn (rerunRecord c' paneRefs) key = getOwn d key).
  { intros key. rewrite (rerunRecord_getOwn c' paneRefs key). cbv zeta.
    change (globalFiles c') with (globalFiles c).
    assert (Hwritten :
      (if String.eqb "additional_files" key
       then Some (stringifyObject (additionalFilesOf c' paneRefs))
       else getOwn (fst (rerunLoop c' paneRefs)) key) =
      (if String.eqb "additional_files" key
       then Some (stringifyObject (additionalFilesOf c paneRefs))
       else getOwn (fst (rerunLoop c paneRefs)) key) \/
      (String.eqb "additional_files" key = false /\
       (if String.eqb "additional_files" key
        then Some (stringifyObject (additionalFilesOf c' paneRefs))
        else getOwn (fst (rerunLoop c' paneRefs)) key) = getOwn d key)).
    { destruct (String.eqb "additional_files" key) eqn:Ea.
      - left. now rewrite !additionalFilesOf_bundle.
      - destruct (rerunLoop_getOwn c' paneRefs key) as [H' _].
        destruct (rerunLoop_getOwn c paneRefs key) as [H _].
        rewrite H', H. change (rerunInfo c') with d.
        destruct (isDistinguishedKey key) eqn:Hd; [|now right].
        destruct (lastValue key paneRefs) as [text|] eqn:Hlast;
          [now left|now right]. }
    pose proof (rerunRecord_getOwn c paneRefs key) as Hd_get.
    cbv zeta in Hd_get.
    change (getOwn (rerunRecord c paneRefs) key) with (getOwn d key)
      in Hd_get.
    rewrite Hd_get.
    destruct (globalFiles c) as [[r files]|] eqn:G.
    - destruct (String.eqb "files" key) eqn:Ef; [reflexivity|].
      destruct Hwritten as [->|[Ea ->]]; [reflexivity|]. exact Hd_get.
    - destruct Hwritten as [->|[Ea ->]]; [reflexivity|]. exact Hd_get. }
  apply properties_ext; [now apply wellFormed_rerunRecord| |exact Hget].
  assert (Hloop : map fst (fst (rerunLoop c' paneRefs)) = map fst d).
  { unfold rerunLoop. change (rerunInfo c') with d.
    apply keys_rerun_fold. intros ref cur Hin Hcur Hd.
    assert (Href : refValue (elem_pane_name cur) ref = Some (value cur)).
    { unfold refValue. rewrite Hcur.
      change (getAttribute cur "name") with (Some (elem_pane_name cur)).
      cbn [propertyKey]. now rewrite String.eqb_refl. }
    destruct (lastValue_of_member _ _ _ _ Hin Href) as [t Ht].
    unfold hasOwn, d.
    now rewrite (rerunRecord_distinguished c paneRefs _ t Hd Ht). }
  assert (Hadd : hasOwn d "additional_files" = true).
  { unfold hasOwn, d. rewrite rerunRecord_getOwn. cbv zeta.
    now destruct (globalFiles c) as [[r files]|]. }
  unfold rerunRecord at 1.
  destruct (rerunLoop c' paneRefs) as [d1 a1]. cbn [fst] in Hloop.
  assert (Hadd1 : hasOwn d1 "additional_files" = true).
  { apply hasOwn_true_iff. rewrite Hloop. now apply hasOwn_true_iff. }
  change (globalFiles c') with (globalFiles c).
  destruct (globalFiles c) as [[r files]|] eqn:G.
  - assert (Hfiles : hasOwn d "files" = true).
    { unfold hasOwn, d. rewrite rerunRecord_getOwn. cbv zeta.
      now rewrite G. }
    rewrite keys_setProperty_existing.
    + now rewrite keys_setProperty_existing.
    + apply hasOwn_true_iff. rewrite keys_setProperty_existing by exact Hadd1.
      rewrite Hloop. now apply hasOwn_true_iff.
  - now rewrite keys_setProperty_existing.
Qed.

(** Assembling a rerun payload is idempotent: from the state the first
    assembly leaves, a second assembly with the same panes gives the same
    payload and leaves the record as the first one left it. *)
Theorem rerun_assembly_idempotent (c : State) (panes : option (list Pane)) :
  jobStatus c = Some "rerun" ->
  multiPane c = Some panes ->
  wellFormed (rerunInfo c) ->
  getFormData (snd (getFormData c)) =
  (fst (getFormData c), snd (getFormData c)).
Proof.
  intros Hj Hm Hwf. rewrite (getFormData_rerun c panes Hj Hm). cbn [fst snd].
  set (d := rerunRecord c (getPaneRefs panes)).
  rewrite (getFormData_rerun (set_rerunInfo c d) panes Hj Hm).
  unfold d. now rewrite (rerunRecord_again c (getPaneRefs panes) Hwf).
Qed.

Lemma rerun_assembly_idempotent_witness :
  getFormData (snd (getFormData rerunWithoutName)) =
  (fst (getFormData rerunWithoutName), snd (getFormData rerunWithoutName)).
Proof.
  apply (rerun_assembly_idempotent rerunWithoutName (Some examplePanes));
    try reflexivity.
  repeat constructor; simpl; intuition discriminate.
Defined.

End PayloadFacts.

(* ===================================================================== *)
(** * Properties of runs of the radio group *)
(* ===================================================================== *)

Module RadioGroupRunsFacts.
Import JS.
Import DynamicRadioGroup.
Import RadioGroupRuns.
Import DynamicRadioGroupFacts.

(** ** One render, field by field *)

Lemma commit_fields (props : Props) (sys : System) :
  let next := fst (commit props sys) in
  let st1 := fst (afterInitialFetch props sys) in
  let effects1 := snd (afterInitialFetch props sys) in
  state next =
    (if refetches props sys then setOptions (setIsEvaluated st1 false) []
     else st1)
  /\ timers next =
     (if refetches props sys
      then timers sys ++ [{| timer_id := nextTimerId sys;
                             due := (clock sys + debounceDelay)%nat;
                             timer_selected := st_value (state sys) |}]
      else timers sys)
  /\ log next = log sys ++ stamp (clock sys) effects1
  /\ inFlight next =
     inFlight sys ++ requestsOf (st_value (state sys)) effects1
  /\ clock next = clock sys
  /\ formValues next = formValues sys
  /\ formValuesRef next = formValues sys
  /\ initialFetchDeps next = Some (initialFetchDepsOf props (state sys))
  /\ snd (commit props sys) =
     (initialFetchRuns props sys
      && negb (Bool.eqb (isLoading st1) (isLoading (state sys)))
      || refetches props sys).
Proof.
  cbv zeta. unfold commit, refetches, afterInitialFetch.
  destruct (if initialFetchRuns props sys
            then fetchOptions_start props (formValues sys) (state sys)
            else (state sys, [])) as [st1 effects1].
  destruct (trackDependencies props sys) as [changed prev].
  cbn [fst snd state timers log inFlight clock formValues formValuesRef
       initialFetchDeps].
  destruct (changed && isEvaluated (state sys)); repeat split.
Qed.

Lemma initialFetchDepsOf_setIsLoading (props : Props) (st : State) (b : bool) :
  initialFetchDepsOf props (setIsLoading st b) = initialFetchDepsOf props st.
Proof. reflexivity. Qed.

Lemma tracked_irrelevant (props : Props) (a b : System) :
  formValues a = formValues b ->
  prevRelevantValuesRef a = prevRelevantValuesRef b ->
  tracked props a -> tracked props b.
Proof.
  unfold tracked, trackDependencies. intros -> ->. auto.
Qed.

(** A render of a component at rest does nothing. *)
Lemma commit_rested (props : Props) (sys : System) :
  rested props sys ->
  snd (commit props sys) = false
  /\ state (fst (commit props sys)) = state sys
  /\ timers (fst (commit props sys)) = timers sys
  /\ log (fst (commit props sys)) = log sys
  /\ inFlight (fst (commit props sys)) = inFlight sys
  /\ rested props (fst (commit props sys)).
Proof.
  intros (T & Hdeps & Href).
  destruct (commit_fields props sys)
    as (Hst & Htm & Hlog & Hfl & _ & Hfv & Hfr & Hmemo & Hdirty).
  pose proof (commit_tracked props sys) as T'.
  assert (Hruns : initialFetchRuns props sys = false).
  { unfold initialFetchRuns. now rewrite Hdeps, sameDeps_refl. }
  assert (Hre : refetches props sys = false).
  { unfold refetches. unfold tracked in T. now rewrite T. }
  unfold afterInitialFetch in *. rewrite Hruns, Hre in *.
  cbn [fst snd stamp requestsOf map omap list_omap andb orb] in *.
  rewrite app_nil_r in Hlog, Hfl.
  repeat split; try assumption.
  - now rewrite Hmemo, Hst.
  - now rewrite Hfr, Hfv.
Qed.

(** The renders after an event end at rest. *)
Lemma settle_ends_rested (fuel : nat) (props : Props) (sys sys' : System) :
  settle fuel props sys = Some sys' -> rested props sys'.
Proof.
  revert sys. induction fuel as [|fuel IH]; intros sys H; [discriminate H|].
  rewrite settle_S in H.
  destruct (commit_fields props sys)
    as (Hst & _ & _ & _ & _ & Hfv & Hfr & Hmemo & Hdirty).
  pose proof (commit_tracked props sys) as T.
  destruct (commit props sys) as [s1 d1]. cbn [fst snd] in *.
  destruct d1; [now apply (IH s1)|]. injection H as <-.
  split; [exact T|]. split; [|now rewrite Hfr, Hfv].
  rewrite Hmemo, Hst. symmetry in Hdirty.
  apply orb_false_iff in Hdirty. destruct Hdirty as [_ Hre]. rewrite Hre.
  unfold afterInitialFetch.
  destruct (initialFetchRuns props sys); [|reflexivity].
  now rewrite fetchOptions_start_deps.
Qed.

Lemma settle_of_rested (props : Props) (sys : System) :
  rested props sys ->
  exists sys',
    settle renderBudget props sys = Some sys'
    /\ state sys' = state sys /\ timers sys' = timers sys
    /\ log sys' = log sys /\ inFlight sys' = inFlight sys
    /\ clock sys' = clock sys /\ formValues sys' = formValues sys.
Proof.
  intros R. change renderBudget with (S 7). rewrite settle_S.
  destruct (commit_rested props sys R) as (Hd & Hst & Htm & Hlog & Hfl & _).
  destruct (commit_fields props sys) as (_ & _ & _ & _ & Hck & Hfv & _).
  destruct (commit props sys) as [s1 d1]. cbn [fst snd] in *. subst d1.
  exists s1. repeat split; assumption.
Qed.

Lemma mount_rested (props : Props) (fv : gmap string Value) (sys : System) :
  mount props fv = Some sys -> rested props sys.
Proof. apply settle_ends_rested. Qed.

Lemma advance_rested (fuel : nat) (props : Props) (target : nat)
  (sys sys' : System) :
  rested props sys ->
  advance fuel props target sys = Some sys' -> rested props sys'.
Proof.
  revert sys. induction fuel as [|fuel IH]; intros sys R H.
  - cbn [advance] in H.
    destruct (find (fun t => Nat.leb (due t) target) (timers sys));
      [discriminate H|]. injection H as <-. exact R.
  - cbn [advance] in H.
    destruct (find (fun t => Nat.leb (due t) target) (timers sys)) as [t|].
    + destruct (fireTimer props t sys) as [s1|] eqn:F; [|discriminate H].
      apply (IH s1); [|exact H].
      unfold fireTimer in F.
      destruct (fetchOptions_start props (formValuesRef sys) (state sys)).
      now apply settle_ends_rested in F.
    + injection H as <-. exact R.
Qed.

Lemma step_rested (props : Props) (sys sys' : System) (ev : Event) :
  rested props sys -> step props sys ev = Some sys' -> rested props sys'.
Proof.
  intros R H. destruct ev as [fv|ms|index outcome|newValue]; cbn [step] in H.
  - now apply settle_ends_rested in H.
  - now apply (advance_rested _ _ _ _ _ R H).
  - destruct (nth_error (inFlight sys) index) as [request|];
      [|now injection H as <-].
    destruct (fetchOptions_settle props (request_selected request) outcome
                                  (state sys)).
    now apply settle_ends_rested in H.
  - now apply settle_ends_rested in H.
Qed.

Lemma run_rested (props : Props) (events : list Event) (sys sys' : System) :
  rested props sys -> run props sys events = Some sys' -> rested props sys'.
Proof.
  revert sys. induction events as [|ev events IH]; intros sys R H;
    cbn [run] in H.
  - now injection H as <-.
  - destruct (step props sys ev) as [s1|] eqn:S; [|discriminate H].
    apply (IH s1); [|exact H]. now apply (step_rested _ _ _ _ R S).
Qed.

(** A component is at rest after every sequence of events. *)
Lemma history_rested (props : Props) (fv : gmap string Value)
  (events : list Event) (sys : System) :
  history props fv events = Some sys -> rested props sys.
Proof.
  unfold history. destruct (mount props fv) as [s0|] eqn:M; [|discriminate].
  apply run_rested. now apply (mount_rested _ _ _ M).
Qed.

Lemma history_total (props : Props) (fv : gmap string Value)
  (events : list Event) :
  exists sys, history props fv events = Some sys.
Proof.
  unfold history. destruct (mount_total props fv) as (s0 & -> & T).
  destruct (run_total props events s0 T) as (sys & H & _). eauto.
Qed.

(** ** Renders that start nothing *)

Lemma settle_without_fetch (fuel : nat) (props : Props) (sys : System) :
  tracked props sys ->
  initialFetchRuns props sys = false ->
  exists sys',
    settle (S fuel) props sys = Some sys'
    /\ state sys' = state sys /\ timers sys' = timers sys
    /\ log sys' = log sys /\ inFlight sys' = inFlight sys
    /\ clock sys' = clock sys /\ formValues sys' = formValues sys.
Proof.
  intros T Hruns. rewrite settle_S.
  destruct (commit_fields props sys)
    as (Hst & Htm & Hlog & Hfl & Hck & Hfv & _ & _ & Hdirty).
  assert (Hre : refetches props sys = false).
  { unfold refetches. unfold tracked in T. now rewrite T. }
  unfold afterInitialFetch in *. rewrite Hruns, Hre in *.
  cbn [fst snd stamp requestsOf map omap list_omap andb orb] in *.
  rewrite app_nil_r in Hlog, Hfl.
  destruct (commit props sys) as [s1 d1]. cbn [fst snd] in *. subst d1.
  exists s1. repeat split; assumption.
Qed.

Lemma strictEquals_sym (a b : Value) : strictEquals a b = strictEquals b a.
Proof.
  destruct a, b; simpl; try reflexivity.
  - now destruct b, b0.
  - apply Z.eqb_sym.
  - apply String.eqb_sym.
  - apply Nat.eqb_sym.
  - apply Nat.eqb_sym.
  - apply Nat.eqb_sym.
Qed.

Lemma strictEquals_trans (a b c : Value) :
  strictEquals a b = true -> strictEquals b c = true ->
  strictEquals a c = true.
Proof.
  destruct a, b; simpl; try discriminate; destruct c; simpl;
    try discriminate; try reflexivity.
  - destruct b, b0, b1; simpl; congruence.
  - rewrite !Z.eqb_eq. congruence.
  - rewrite !String.eqb_eq. congruence.
  - rewrite !Nat.eqb_eq. congruence.
  - rewrite !Nat.eqb_eq. congruence.
  - rewrite !Nat.eqb_eq. congruence.
Qed.

Lemma detect_fold_changed (fv : gmap string Value) (names : list string)
  (prev : gmap string Value) :
  fst (fold_left (detectStep fv) names (true, prev)) = true.
Proof.
  revert prev. induction names as [|m names IH]; intros prev; [reflexivity|].
  cbn [fold_left]. unfold detectStep at 2.
  destruct (negb (strictEquals (getFieldValue fv m)
                               (default VUndefined (prev !! m)))); apply IH.
Qed.

(** When tracking finds nothing changed, the previous values hold the
    current value of every relevant field. *)
Lemma detect_unchanged_up_to_date (fv : gmap string Value)
  (names : list string) (prev : gmap string Value) :
  fst (detectChanges fv names prev) = false ->
  forall n, In n names -> up_to_date fv prev n.
Proof.
  unfold detectChanges. induction names as [|m names IH]; [easy|].
  cbn [fold_left]. unfold detectStep at 2.
  destruct (strictEquals (getFieldValue fv m) (default VUndefined (prev !! m)))
    eqn:E; cbn [negb].
  - intros H n [<-|Hin]; [exact E|now apply IH].
  - rewrite detect_fold_changed. discriminate.
Qed.

Lemma tracked_after_unrelated_change (props : Props) (sys next : System) :
  tracked props sys ->
  prevRelevantValuesRef next = prevRelevantValuesRef sys ->
  (forall n, In n (relevantFieldNames props) ->
             strictEquals (getFieldValue (formValues next) n)
                          (getFieldValue (formValues sys) n) = true) ->
  tracked props next.
Proof.
  unfold tracked, trackDependencies. intros T Hprev Hsame. rewrite Hprev.
  destruct (negb (shown props)
            || match retrieverParams props with
               | Some _ => false
               | None => true
               end
            || Nat.eqb (length (relevantFieldNames props)) 0);
    [reflexivity|].
  unfold detectChanges. apply detect_fold_unchanged. intros n Hn.
  unfold up_to_date.
  apply (strictEquals_trans _ (getFieldValue (formValues sys) n));
    [now apply Hsame|].
  apply (detect_unchanged_up_to_date (formValues sys)
           (relevantFieldNames props) (prevRelevantValuesRef sys));
    [now rewrite T|exact Hn].
Qed.

(** A change of FormValues that leaves every field the options depend on
    strictly equal starts nothing: no request, no timer, and the state of
    the group is as before. *)
Theorem unrelated_change_starts_nothing (props : Props)
  (fv0 : gmap string Value) (events : list Event) (sys : System)
  (fv : gmap string Value) :
  history props fv0 events = Some sys ->
  (forall n, In n (relevantFieldNames props) ->
             strictEquals (getFieldValue fv n)
                          (getFieldValue (formValues sys) n) = true) ->
  exists sys',
    step props sys (FormValuesChanged fv) = Some sys'
    /\ state sys' = state sys /\ timers sys' = timers sys
    /\ log sys' = log sys /\ inFlight sys' = inFlight sys
    /\ formValues sys' = fv.
Proof.
  intros H Hsame. apply history_rested in H. destruct H as (T & Hdeps & _).
  cbn [step]. change renderBudget with (S 7).
  match goal with
  | |- context [settle (S 7) props ?s] =>
      destruct (settle_without_fetch 7 props s)
        as (sys' & Hs & Hst & Htm & Hlog & Hfl & _ & Hfv)
  end.
  - apply (tracked_after_unrelated_change props sys); auto.
  - unfold initialFetchRuns. cbn [initialFetchDeps state].
    now rewrite Hdeps, sameDeps_refl.
  - exists sys'. repeat split; assumption.
Qed.

Lemma unrelated_change_starts_nothing_witness :
  exists sys sys',
    evaluatedGroup = Some sys
    /\ step partitionProps sys
         (FormValuesChanged (<["nodes" := VNumber 4]> (environmentIs "gpu"))) =
       Some sys'
    /\ log sys' = log sys /\ timers sys' = timers sys.
Proof.
  destruct (history_total partitionProps (environmentIs "gpu")
              [FetchSettled 0 (optionsResponse ["normal"; "debug"]);
               Elapsed 1000]) as [sys H].
  destruct (unrelated_change_starts_nothing partitionProps
              (environmentIs "gpu")
              [FetchSettled 0 (optionsResponse ["normal"; "debug"]);
               Elapsed 1000] sys
              (<["nodes" := VNumber 4]> (environmentIs "gpu")) H)
    as (sys' & Hs & _ & Htm & Hlog & _).
  - intros n [<-|[]].
    assert (Hfv : from_option
                    (fun sys => formValues sys = environmentIs "gpu") True
                    (history partitionProps (environmentIs "gpu")
                       [FetchSettled 0 (optionsResponse ["normal"; "debug"]);
                        Elapsed 1000])).
    { vm_compute. reflexivity. }
    rewrite H in Hfv. cbn [from_option] in Hfv. rewrite Hfv. reflexivity.
  - exists sys, sys'. repeat split; assumption.
Defined.

(** A group that is not shown issues no request, arms no timer and reports
    no error, whatever happens around it. *)
Theorem hidden_group_stays_silent (props : Props) (fv0 : gmap string Value)
  (events : list Event) :
  shown props = false ->
  exists sys,
    history props fv0 events = Some sys
    /\ log sys = [] /\ timers sys = [] /\ inFlight sys = []
    /\ isLoading (state sys) = false.
Proof.
  intros Hidden.
  assert (Htracked : forall s, tracked props s).
  { intros s. unfold tracked, trackDependencies. now rewrite Hidden. }
  assert (Hruns : forall s, initialFetchRuns props s = false).
  { intros s. unfold initialFetchRuns. rewrite Hidden.
    now rewrite andb_false_r. }
  assert (Hsettle : forall s,
             log s = [] -> timers s = [] -> inFlight s = [] ->
             isLoading (state s) = false ->
             exists s', settle renderBudget props s = Some s'
                        /\ log s' = [] /\ timers s' = [] /\ inFlight s' = []
                        /\ isLoading (state s') = false).
  { intros s H1 H2 H3 H4. change renderBudget with (S 7).
    destruct (settle_without_fetch 7 props s (Htracked s) (Hruns s))
      as (s' & Hs & Hst & Htm & Hlog & Hfl & _).
    exists s'. rewrite Hst, Htm, Hlog, Hfl. auto. }
  unfold history, mount.
  match goal with
  | |- context [settle renderBudget props ?s] =>
      destruct (Hsettle s) as (s0 & -> & L0 & T0 & F0 & I0)
  end; try reflexivity.
  clear fv0. revert s0 L0 T0 F0 I0.
  induction events as [|ev events IH]; intros s0 L0 T0 F0 I0; cbn [run].
  - eauto 6.
  - assert (Hstep : exists s1, step props s0 ev = Some s1
                               /\ log s1 = [] /\ timers s1 = []
                               /\ inFlight s1 = []
                               /\ isLoading (state s1) = false).
    { destruct ev as [fv|ms|index outcome|newValue]; cbn [step].
      - now apply Hsettle.
      - cbn [advance]. rewrite T0. cbn [find].
        eexists. split; [reflexivity|]. cbn. auto.
      - rewrite F0. destruct index; cbn [nth_error]; eauto 6.
      - now apply Hsettle. }
    destruct Hstep as (s1 & -> & L1 & T1 & F1 & I1). now apply IH.
Qed.

Lemma hidden_group_stays_silent_witness :
  exists sys,
    history hiddenProps (environmentIs "gpu")
      [FormValuesChanged (environmentIs "cpu"); Elapsed 300] = Some sys
    /\ log sys = [].
Proof.
  destruct (hidden_group_stays_silent hiddenProps (environmentIs "gpu")
              [FormValuesChanged (environmentIs "cpu"); Elapsed 300])
    as (sys & H & L & _); [reflexivity|].
  exists sys. split; assumption.
Defined.

(** ** Renders that start a request *)

Lemma fetchOptions_start_configured (props : Props) (path : string)
  (ref : gmap string Value) (st : State) :
  configuredRetrieverPath props = Some path ->
  fetchOptions_start props ref st =
  (setIsLoading st true, [requestFor props path ref]).
Proof. intros H. unfold fetchOptions_start. now rewrite H. Qed.

Lemma settle_after_fetch_start (fuel : nat) (props : Props) (path : string)
  (sys : System) :
  configuredRetrieverPath props = Some path ->
  initialFetchRuns props sys = true ->
  refetches props sys = false ->
  exists sys',
    settle (S (S fuel)) props sys = Some sys'
    /\ state sys' = setIsLoading (state sys) true
    /\ timers sys' = timers sys
    /\ log sys' =
       log sys ++ [(clock sys, requestFor props path (formValues sys))]
    /\ inFlight sys' =
       inFlight sys
       ++ [{| request_url :=
                requestUrl props path (buildParams props (formValues sys));
              request_selected := st_value (state sys) |}]
    /\ clock sys' = clock sys /\ formValues sys' = formValues sys.
Proof.
  intros Hpath Hruns Hre. rewrite settle_S.
  destruct (commit_fields props sys)
    as (Hst & Htm & Hlog & Hfl & Hck & Hfv & _ & Hmemo & Hdirty).
  pose proof (commit_tracked props sys) as T.
  unfold afterInitialFetch in *. rewrite Hruns, Hre in *.
  rewrite (fetchOptions_start_configured props path _ _ Hpath) in *.
  cbn [fst snd stamp requestsOf map omap list_omap requestFor] in *.
  destruct (commit props sys) as [s1 d1]. cbn [fst snd] in *.
  assert (Hruns1 : initialFetchRuns props s1 = false).
  { unfold initialFetchRuns. rewrite Hmemo, Hst.
    now rewrite initialFetchDepsOf_setIsLoading, sameDeps_refl. }
  destruct d1.
  - destruct (settle_without_fetch fuel props s1 T Hruns1)
      as (sys' & Hs & Hst' & Htm' & Hlog' & Hfl' & Hck' & Hfv').
    exists sys'. rewrite Hs, Hst', Htm', Hlog', Hfl', Hck', Hfv'.
    repeat split; assumption.
  - exists s1. repeat split; assumption.
Qed.

(** A shown group with a retriever path asks for its options once when it
    is mounted, with the FormValues of that moment, and shows that it is
    loading. *)
Theorem mount_requests_once (props : Props) (path : string)
  (fv0 : gmap string Value) :
  shown props = true ->
  configuredRetrieverPath props = Some path ->
  exists sys,
    mount props fv0 = Some sys
    /\ log sys = [(0%nat, requestFor props path fv0)]
    /\ state sys = setIsLoading (initialState props) true
    /\ timers sys = []
    /\ length (inFlight sys) = 1%nat.
Proof.
  intros Hshown Hpath. unfold mount. change renderBudget with (S (S 6)).
  match goal with
  | |- context [settle _ props ?s] =>
      destruct (settle_after_fetch_start 6 props path s Hpath)
        as (sys & Hs & Hst & Htm & Hlog & Hfl & _)
  end.
  - unfold initialFetchRuns. cbn [initialFetchDeps state sameDeps].
    now rewrite Hshown.
  - unfold refetches. cbn [state initialState isEvaluated].
    apply andb_false_r.
  - exists sys. rewrite Hs, Hst, Htm, Hlog, Hfl. repeat split.
Qed.

Lemma mount_requests_once_witness :
  exists sys,
    mount partitionProps (environmentIs "gpu") = Some sys
    /\ log sys =
       [(0%nat,
         requestFor partitionProps "retrievers/partitions.sh"
                    (environmentIs "gpu"))].
Proof.
  destruct (mount_requests_once partitionProps "retrievers/partitions.sh"
              (environmentIs "gpu")) as (sys & H & L & _);
    [reflexivity|reflexivity|].
  exists sys. split; assumption.
Defined.

Lemma detect_some_changed (fv : gmap string Value) (names : list string)
  (acc : bool * gmap string Value) (n : string) :
  In n names ->
  strictEquals (getFieldValue fv n) (default VUndefined (snd acc !! n)) = false ->
  fst (fold_left (detectStep fv) names acc) = true.
Proof.
  revert acc. induction names as [|m names IH]; intros [changed prev] Hin Hne;
    [easy|].
  cbn [fold_left]. unfold detectStep at 2. cbn [snd] in Hne.
  destruct (strictEquals (getFieldValue fv m) (default VUndefined (prev !! m)))
    eqn:E; cbn [negb].
  - destruct Hin as [->|Hin]; [congruence|]. now apply IH.
  - apply detect_fold_changed.
Qed.

(** Every change of a field the options depend on, made while the group is
    shown and evaluated, empties the options, appends a timer due 300 ms
    later to the pending timers, and issues a request at once, built from
    the changed FormValues. *)
Theorem relevant_change_requests_at_once (props : Props) (path : string)
  (fv0 : gmap string Value) (events : list Event) (sys : System)
  (fv : gmap string Value) (fieldName : string) :
  history props fv0 events = Some sys ->
  shown props = true ->
  configuredRetrieverPath props = Some path ->
  isEvaluated (state sys) = true ->
  In fieldName (relevantFieldNames props) ->
  strictEquals (getFieldValue fv fieldName)
               (getFieldValue (formValues sys) fieldName) = false ->
  exists sys',
    step props sys (FormValuesChanged fv) = Some sys'
    /\ state sys' =
       setIsLoading (setOptions (setIsEvaluated (state sys) false) []) true
    /\ timers sys' =
       timers sys ++ [{| timer_id := nextTimerId sys;
                         due := (clock sys + debounceDelay)%nat;
                         timer_selected := st_value (state sys) |}]
    /\ log sys' = log sys ++ [(clock sys, requestFor props path fv)].
Proof.
  intros H Hshown Hpath Heval Hin Hne.
  apply history_rested in H. destruct H as (T & Hdeps & _).
  assert (Hparams : exists params, retrieverParams props = Some params).
  { unfold relevantFieldNames in Hin.
    destruct (retrieverParams props); [eauto|destruct Hin]. }
  destruct Hparams as [params Hparams].
  cbn [step]. change renderBudget with (S (S (S 5))). rewrite settle_S.
  match goal with
  | |- context [commit props ?s] => set (changed := s)
  end.
  assert (Hre : refetches props changed = true).
  { unfold refetches. cbn [state changed]. rewrite Heval, andb_true_r.
    unfold trackDependencies. cbn [formValues prevRelevantValuesRef changed].
    rewrite Hshown, Hparams. cbn [negb orb].
    destruct (Nat.eqb (length (relevantFieldNames props)) 0) eqn:E.
    { apply Nat.eqb_eq in E.
      destruct (relevantFieldNames props); [destruct Hin|discriminate E]. }
    unfold detectChanges. apply (detect_some_changed _ _ _ fieldName Hin).
    cbn [snd].
    destruct (strictEquals (getFieldValue fv fieldName)
                (default VUndefined (prevRelevantValuesRef sys !! fieldName)))
      eqn:E'; [|reflexivity].
    assert (Hold : up_to_date (formValues sys) (prevRelevantValuesRef sys)
                              fieldName).
    { apply (detect_unchanged_up_to_date (formValues sys)
               (relevantFieldNames props)); [|exact Hin].
      unfold tracked, trackDependencies in T.
      rewrite Hshown, Hparams, E in T. cbn [negb orb] in T. now rewrite T. }
    unfold up_to_date in Hold. rewrite strictEquals_sym in Hold.
    now rewrite (strictEquals_trans _ _ _ E' Hold) in Hne. }
  assert (Hruns : initialFetchRuns props changed = false).
  { unfold initialFetchRuns. cbn [initialFetchDeps state changed].
    now rewrite Hdeps, sameDeps_refl. }
  destruct (commit_fields props changed)
    as (Hst & Htm & Hlog & Hfl & Hck & Hfv & _ & Hmemo & Hdirty).
  pose proof (commit_tracked props changed) as T1.
  unfold afterInitialFetch in *. rewrite Hruns, Hre in *.
  cbn [fst snd stamp requestsOf map omap list_omap andb orb state timers
       log inFlight clock formValues nextTimerId changed] in *.
  rewrite app_nil_r in Hlog, Hfl.
  destruct (commit props changed) as [s1 d1]. cbn [fst snd] in *. subst d1.
  destruct (settle_after_fetch_start 5 props path s1 Hpath)
    as (sys' & Hs & Hst' & Htm' & Hlog' & _).
  - unfold initialFetchRuns. rewrite Hmemo, Hst, Hshown.
    unfold initialFetchDepsOf. cbn [isEvaluated st_value setOptions
      setIsEvaluated sameDeps]. rewrite Heval.
    cbn [Bool.eqb andb negb]. now rewrite andb_false_r.
  - unfold refetches. unfold tracked in T1. now rewrite T1.
  - exists sys'. rewrite Hs, Hst', Htm', Hlog', Hst, Htm, Hlog, Hck, Hfv.
    repeat split.
Qed.

Lemma relevant_change_requests_at_once_witness :
  exists sys sys',
    evaluatedGroup = Some sys
    /\ step partitionProps sys (FormValuesChanged (environmentIs "cpu")) =
       Some sys'
    /\ log sys' =
       log sys ++ [(clock sys,
                    requestFor partitionProps "retrievers/partitions.sh"
                               (environmentIs "cpu"))].
Proof.
  destruct (history_total partitionProps (environmentIs "gpu")
              [FetchSettled 0 (optionsResponse ["normal"; "debug"]);
               Elapsed 1000]) as [sys H].
  assert (Hsys : from_option
                   (fun sys => formValues sys = environmentIs "gpu"
                               /\ isEvaluated (state sys) = true) True
                   (history partitionProps (environmentIs "gpu")
                      [FetchSettled 0 (optionsResponse ["normal"; "debug"]);
                       Elapsed 1000])).
  { vm_compute. split; reflexivity. }
  rewrite H in Hsys. destruct Hsys as [Hfv Heval].
  destruct (relevant_change_requests_at_once partitionProps
              "retrievers/partitions.sh" (environmentIs "gpu")
              [FetchSettled 0 (optionsResponse ["normal"; "debug"]);
               Elapsed 1000] sys (environmentIs "cpu") "environment" H)
    as (sys' & Hs & _ & _ & Hlog);
    try reflexivity; try exact Heval; try (now left).
  - rewrite Hfv. reflexivity.
  - exists sys, sys'. repeat split; assumption.
Defined.

(** ** Timers and answers *)

(** When a debounce timer fires, the request is built from the FormValues
    of that moment, not from those of the render that armed the timer; the
    selection that travels with the request is the one of that render.  The
    timer is gone afterwards and no other timer is touched. *)
Theorem timer_requests_current_values (props : Props) (path : string)
  (fv0 : gmap string Value) (events : list Event) (sys : System) (t : Timer) :
  history props fv0 events = Some sys ->
  In t (timers sys) ->
  configuredRetrieverPath props = Some path ->
  exists sys',
    fireTimer props t sys = Some sys'
    /\ log sys' = log sys ++ [(due t, requestFor props path (formValues sys))]
    /\ inFlight sys' =
       inFlight sys
       ++ [{| request_url :=
                requestUrl props path (buildParams props (formValues sys));
              request_selected := timer_selected t |}]
    /\ timers sys' = clearTimeout (timer_id t) (timers sys)
    /\ state sys' = setIsLoading (state sys) true.
Proof.
  intros H _ Hpath. apply history_rested in H.
  destruct H as (T & Hdeps & Href).
  unfold fireTimer.
  rewrite (fetchOptions_start_configured props path _ _ Hpath), Href.
  change renderBudget with (S 7).
  match goal with
  | |- context [settle (S 7) props ?s] =>
      destruct (settle_without_fetch 7 props s)
        as (sys' & Hs & Hst & Htm & Hlog & Hfl & _)
  end.
  - exact (tracked_irrelevant props sys _ eq_refl eq_refl T).
  - unfold initialFetchRuns. cbn [initialFetchDeps state].
    now rewrite Hdeps, initialFetchDepsOf_setIsLoading, sameDeps_refl.
  - exists sys'. rewrite Hs, Hst, Htm, Hlog, Hfl. repeat split.
Qed.

Lemma timer_requests_current_values_witness :
  exists sys sys',
    history partitionProps (environmentIs "gpu")
      [FetchSettled 0 (optionsResponse ["normal"; "debug"]);
       Elapsed 1000; FormValuesChanged (environmentIs "cpu");
       Elapsed 100; FormValuesChanged (environmentIs "tpu")] = Some sys
    /\ fireTimer partitionProps
         {| timer_id := 0; due := 1300; timer_selected := "" |} sys =
       Some sys'
    /\ log sys' =
       log sys ++ [(1300%nat,
                    requestFor partitionProps "retrievers/partitions.sh"
                               (environmentIs "tpu"))].
Proof.
  destruct (history_total partitionProps (environmentIs "gpu")
              [FetchSettled 0 (optionsResponse ["normal"; "debug"]);
               Elapsed 1000; FormValuesChanged (environmentIs "cpu");
               Elapsed 100; FormValuesChanged (environmentIs "tpu")])
    as [sys H].
  assert (Hsys : from_option
                   (fun sys =>
                      formValues sys = environmentIs "tpu"
                      /\ timers sys =
                         [{| timer_id := 0; due := 1300;
                             timer_selected := "" |}]) True
                   (history partitionProps (environmentIs "gpu")
                      [FetchSettled 0 (optionsResponse ["normal"; "debug"]);
                       Elapsed 1000; FormValuesChanged (environmentIs "cpu");
                       Elapsed 100;
                       FormValuesChanged (environmentIs "tpu")])).
  { vm_compute. split; reflexivity. }
  rewrite H in Hsys. destruct Hsys as [Hfv Htm].
  destruct (timer_requests_current_values partitionProps
              "retrievers/partitions.sh" (environmentIs "gpu") _ sys
              {| timer_id := 0; due := 1300; timer_selected := "" |} H)
    as (sys' & Hs & Hlog & _).
  - rewrite Htm. now left.
  - reflexivity.
  - exists sys, sys'. split; [exact H|]. split; [exact Hs|].
    now rewrite Hlog, Hfv.
Defined.





(** ** A good answer and what is rendered from it *)

Lemma someHasValue_carries (items : list Value) (selected : string) :
  (forall o, In o items -> isNullish o = false) ->
  someHasValue items selected = Normal (existsb (carries selected) items).
Proof.
  induction items as [|o items IH]; intros H; [reflexivity|].
  cbn [someHasValue existsb]. unfold carries at 1.
  destruct (getProperty_not_nullish o "value" (H o (or_introl eq_refl)))
    as [v Hv].
  rewrite Hv. destruct (strictEquals v (VString selected)); [reflexivity|].
  apply IH. intros o' Hin. apply H. now right.
Qed.

Lemma renderOptions_checked (props : Props) (st : State) (items : list Value) :
  (forall o, In o items -> isNullish o = false) ->
  exists radios,
    renderOptions props st items = Normal radios
    /\ map radio_checked radios = map (carries (st_value st)) items.
Proof.
  induction items as [|o items IH]; intros H; [exists []; now split|].
  destruct IH as (radios & Hr & Hc); [intros o' Hin; apply H; now right|].
  pose proof (H o (or_introl eq_refl)) as Ho.
  destruct (getProperty_not_nullish o "value" Ho) as [v Hv].
  destruct (getProperty_not_nullish o "isDeprecated" Ho) as [d Hd].
  destruct (getProperty_not_nullish o "label" Ho) as [l Hl].
  cbn [renderOptions]. unfold renderOption. rewrite Hv, Hd, Hl, Hr.
  eexists. split; [reflexivity|]. cbn [map radio_checked]. f_equal.
  - unfold carries. rewrite Hv. apply strictEquals_sym.
  - exact Hc.
Qed.

Lemma existsb_map {A : Type} (f : A -> bool) (l : list A) :
  existsb f l = existsb (fun b => b) (map f l).
Proof.
  induction l as [|x l IH]; [reflexivity|]. simpl. now rewrite IH.
Qed.

(** An ok answer that is an array of option objects replaces the options by
    that array, marks the group evaluated and not loading, leaves the
    selection as it is and reports nothing.  The flag of an invalid
    selection is computed from the selection the requesting [fetchOptions]
    closed over, the one of the render that made the request or armed its
    timer: the flag is up exactly when that selection is not empty and no
    option carries it.  In the render that follows there is one button for
    every option, checked when the option carries the selection the group
    holds.  When the group still holds the selection the request went out
    with, a flagged selection has no button checked and a selection that is
    neither empty nor flagged has one. *)
Theorem ok_answer_replaces_options (props : Props) (st : State)
  (selected : string) (status : Z) (r : nat) (items : list Value) :
  responseOk status = true ->
  (forall o, In o items -> isNullish o = false) ->
  let settled :=
    fetchOptions_settle props selected
                        (Responded status (Normal (VArray r items))) st in
  let st' := fst settled in
  snd settled = []
  /\ st' = {| st_options := items; st_value := st_value st;
              isLoading := false; isEvaluated := true;
              isValueInvalid :=
                negb (String.eqb selected "")
                && negb (existsb (carries selected) items) |}
  /\ (items = [] ->
      render props st' =
      Normal {| body := NoOptionsAvailable;
                invalidMessage := negb (String.eqb selected "") |})
  /\ (items <> [] ->
      exists radios,
        render props st' =
        Normal {| body := Buttons radios;
                  invalidMessage := isValueInvalid st' |}
        /\ length radios = length items
        /\ map radio_checked radios = map (carries (st_value st)) items
        /\ (selected = st_value st ->
            isValueInvalid st' = true ->
            existsb radio_checked radios = false)
        /\ (selected = st_value st ->
            isValueInvalid st' = false -> st_value st <> "" ->
            existsb radio_checked radios = true)).
Proof.
  intros Hok Hitems. cbv zeta.
  assert (Hsettled :
    fetchOptions_settle props selected
                        (Responded status (Normal (VArray r items))) st =
    ({| st_options := items; st_value := st_value st;
        isLoading := false; isEvaluated := true;
        isValueInvalid :=
          negb (String.eqb selected "")
          && negb (existsb (carries selected) items) |}, [])).
  { unfold fetchOptions_settle. rewrite Hok. cbn [dataSome].
    rewrite (someHasValue_carries items selected Hitems).
    now destruct (String.eqb selected ""). }
  rewrite Hsettled. cbn [fst snd]. split; [reflexivity|].
  split; [reflexivity|]. split.
  - intros ->. unfold render. cbn. now rewrite andb_true_r.
  - intros Hne.
    match goal with
    | |- context [render props ?s] => set (st' := s)
    end.
    destruct (renderOptions_checked props st' items Hitems)
      as (radios & Hr & Hc).
    exists radios. unfold render. cbn [isLoading st_options isEvaluated st'].
    assert (Hlen : Nat.eqb (length items) 0 = false).
    { destruct items; [contradiction|reflexivity]. }
    rewrite Hlen. cbn [andb]. fold st'. rewrite Hr.
    split; [reflexivity|].
    assert (Hex : existsb radio_checked radios =
                  existsb (carries (st_value st)) items).
    { rewrite (existsb_map radio_checked), Hc. symmetry.
      apply existsb_map. }
    split; [|split; [|split]].
    + rewrite <- (length_map radio_checked), Hc. apply length_map.
    + exact Hc.
    + cbn [isValueInvalid st']. rewrite Hex. intros -> H.
      apply andb_true_iff in H. destruct H as [_ H].
      now apply negb_true_iff in H.
    + cbn [isValueInvalid st']. rewrite Hex. intros -> H Hsel.
      apply String.eqb_neq in Hsel. rewrite Hsel in H. cbn [negb andb] in H.
      now apply negb_false_iff in H.
Qed.

Lemma ok_answer_replaces_options_witness :
  fst (fetchOptions_settle partitionProps "normal"
         (Responded 200 (Normal (VArray 0 [radioOption "debug"])))
         groupWithSelection) =
  {| st_options := [radioOption "debug"]; st_value := "normal";
     isLoading := false; isEvaluated := true; isValueInvalid := true |}
  /\ fst (fetchOptions_settle partitionProps ""
            (Responded 200 (Normal (VArray 0 [radioOption "normal"])))
            (setValue groupWithSelection "debug")) =
     {| st_options := [radioOption "normal"]; st_value := "debug";
        isLoading := false; isEvaluated := true; isValueInvalid := false |}.
Proof.
  destruct (ok_answer_replaces_options partitionProps groupWithSelection
              "normal" 200 0 [radioOption "debug"]) as (_ & H & _).
  { reflexivity. }
  { intros o [<-|[]]. reflexivity. }
  destruct (ok_answer_replaces_options partitionProps
              (setValue groupWithSelection "debug")
              "" 200 0 [radioOption "normal"]) as (_ & H' & _).
  { reflexivity. }
  { intros o [<-|[]]. reflexivity. }
  split; [exact H|exact H'].
Defined.

(** ** The query of a request *)

Lemma buildParams_keys (ref : gmap string Value) (params : Properties) :
  map fst (omap (queryPair ref) params) =
  map fst (List.filter
             (fun e => negb (isNullish (resolveParam ref (snd e)))) params).
Proof.
  induction params as [|[key rawVal] params IH]; [reflexivity|].
  cbn [omap list_omap List.filter snd]. unfold queryPair at 1.
  destruct (isNullish (resolveParam ref rawVal)); cbn [negb]; [exact IH|].
  destruct (isPrimitiveForQuery (resolveParam ref rawVal));
    cbn [map fst]; f_equal; exact IH.
Qed.

(** The query holds one pair for every entry of [retrieverParams] whose
    resolved value is neither undefined nor null, under the key of the entry
    and in the order of the entries; a reference to a field that has no
    value leaves no pair. *)
Theorem query_has_one_pair_per_resolved_entry (props : Props)
  (formValuesRef : gmap string Value) (params : Properties) :
  retrieverParams props = Some params ->
  map fst (buildParams props formValuesRef) =
    map fst (List.filter
               (fun e => negb (isNullish (resolveParam formValuesRef (snd e))))
               params)
  /\ (forall key field,
        formValuesRef !! field = None ->
        queryPair formValuesRef (key, VString (String "$" field)) = None).
Proof.
  intros Hparams. unfold buildParams. rewrite Hparams. split.
  - apply buildParams_keys.
  - intros key field Hnone. unfold queryPair.
    assert (Hres : resolveParam formValuesRef (VString (String "$" field)) =
                   VUndefined).
    { unfold resolveParam, getFieldValue, isFieldReference, referencedField.
      cbn [String.prefix]. destruct (ascii_dec "$" "$"); [|congruence].
      destruct field; cbn [String.prefix]; now rewrite Hnone. }
    now rewrite Hres.
Qed.

Lemma query_has_one_pair_per_resolved_entry_witness :
  buildParams partitionProps ∅ = [].
Proof.
  destruct (query_has_one_pair_per_resolved_entry partitionProps ∅
              [("env", VString "$environment")] eq_refl) as [_ H].
  unfold buildParams. cbn [retrieverParams partitionProps omap list_omap].
  now rewrite (H "env" "environment" eq_refl).
Defined.

Lemma occurrences_app (c : ascii) (a b : string) :
  occurrences c (a +:+ b) = (occurrences c a + occurrences c b)%nat.
Proof.
  induction a as [|x a IH]; [reflexivity|].
  change (String x a +:+ b) with (String x (a +:+ b)).
  cbn [occurrences]. rewrite IH. lia.
Qed.

Lemma formEncodeChar_clean (a : ascii) :
  occurrences "&" (formEncodeChar a) = 0%nat
  /\ occurrences "=" (formEncodeChar a) = 0%nat.
Proof.
  destruct a as [[] [] [] [] [] [] [] []]; vm_compute; split; reflexivity.
Qed.

Lemma uriComponentChar_clean (a : ascii) :
  let encoded :=
    if isUnreservedURIComponent a then String a "" else percentEncode a in
  occurrences "&" encoded = 0%nat /\ occurrences "=" encoded = 0%nat.
Proof.
  destruct a as [[] [] [] [] [] [] [] []]; vm_compute; split; reflexivity.
Qed.

Lemma formEncode_clean (s : string) :
  occurrences "&" (formEncode s) = 0%nat
  /\ occurrences "=" (formEncode s) = 0%nat.
Proof.
  unfold formEncode. induction s as [|a s [IH1 IH2]]; [now split|].
  cbn [concatMap]. rewrite !occurrences_app, IH1, IH2.
  destruct (formEncodeChar_clean a) as [-> ->]. now split.
Qed.

Lemma encodeURIComponent_clean (s : string) :
  occurrences "&" (encodeURIComponent s) = 0%nat
  /\ occurrences "=" (encodeURIComponent s) = 0%nat.
Proof.
  unfold encodeURIComponent. induction s as [|a s [IH1 IH2]]; [now split|].
  cbn [concatMap]. rewrite !occurrences_app, IH1, IH2.
  destruct (uriComponentChar_clean a) as [-> ->]. now split.
Qed.

Lemma pair_text_counts (kv : string * string) :
  occurrences "&" (formEncode (fst kv) +:+ "=" +:+ formEncode (snd kv)) = 0%nat
  /\ occurrences "=" (formEncode (fst kv) +:+ "=" +:+ formEncode (snd kv)) =
     1%nat.
Proof.
  rewrite !occurrences_app.
  destruct (formEncode_clean (fst kv)) as [-> ->].
  destruct (formEncode_clean (snd kv)) as [-> ->]. now split.
Qed.

Lemma toString_counts (params : URLSearchParams) :
  occurrences "&" (URLSearchParams_toString params) = pred (length params)
  /\ occurrences "=" (URLSearchParams_toString params) = length params.
Proof.
  unfold URLSearchParams_toString.
  set (text := fun kv : string * string =>
                 formEncode (fst kv) +:+ "=" +:+ formEncode (snd kv)).
  induction params as [|kv params [IH1 IH2]]; [now split|].
  destruct (pair_text_counts kv) as [H1 H2]. fold (text kv) in H1, H2.
  destruct params as [|kv' params].
  - cbn [map join length pred]. now split.
  - change (join "&" (map text (kv :: kv' :: params)))
      with (text kv +:+ "&" +:+ join "&" (map text (kv' :: params))).
    generalize dependent (join "&" (map text (kv' :: params))).
    generalize dependent (text kv). intros t H1 H2 rest IH1 IH2.
    rewrite !occurrences_app, H1, H2, IH1, IH2.
    cbn [length pred occurrences]. split; reflexivity.
Qed.

(** Whatever characters the retriever path, the keys and the values hold,
    the query of the request has one [=] for the path and one for every
    pair, and one [&] in front of every pair: no value can add a parameter
    of its own. *)
Theorem query_separators (props : Props) (path : string)
  (params : URLSearchParams) :
  requestUrl props path params =
    curUrl props +:+ "/jobs/composer/evaluate_dynamic_text?"
      +:+ queryOf path params
  /\ occurrences "&" (queryOf path params) = length params
  /\ occurrences "=" (queryOf path params) = S (length params).
Proof.
  split; [reflexivity|].
  destruct (toString_counts params) as [Hamp Heq].
  destruct (encodeURIComponent_clean path) as [Pamp Peq].
  unfold queryOf.
  destruct (String.eqb (URLSearchParams_toString params) "") eqn:E.
  - apply String.eqb_eq in E. rewrite E in Heq. cbn [occurrences] in Heq.
    rewrite !occurrences_app, Pamp, Peq, <- Heq. now split.
  - rewrite !occurrences_app, Pamp, Peq, Hamp, Heq.
    assert (Hlen : length params <> 0%nat).
    { intros Hz. destruct params; [|discriminate Hz].
      discriminate E. }
    cbn [occurrences]. cbn. split; lia.
Qed.

(** ** Selecting an option *)

(** Selecting an option of an evaluated group is a matter of the group
    alone: the selection is held, the flag of an invalid selection is down,
    and although [fetchOptions] is a new function for the new selection, no
    request is issued and no timer armed. *)
Theorem selecting_an_option_requests_nothing (props : Props)
  (fv0 : gmap string Value) (events : list Event) (sys : System)
  (newValue : string) :
  history props fv0 events = Some sys ->
  isEvaluated (state sys) = true ->
  exists sys',
    step props sys (RadioChanged newValue) = Some sys'
    /\ state sys' =
       {| st_options := st_options (state sys); st_value := newValue;
          isLoading := isLoading (state sys); isEvaluated := true;
          isValueInvalid := false |}
    /\ log sys' = log sys
    /\ timers sys' = timers sys
    /\ inFlight sys' = inFlight sys.
Proof.
  intros H Heval. apply history_rested in H. destruct H as (T & _ & _).
  cbn [step]. change renderBudget with (S 7).
  destruct (settle_without_fetch 7 props
              (withState sys (handleValueChange (state sys) newValue)))
    as (sys' & Hs & Hst & Htm & Hlog & Hfl & _).
  - exact (tracked_irrelevant props sys _ eq_refl eq_refl T).
  - unfold initialFetchRuns, withState, handleValueChange, setIsValueInvalid,
      setValue. cbn [state isEvaluated]. rewrite Heval. apply andb_false_r.
  - exists sys'. rewrite Hs, Hst, Htm, Hlog, Hfl.
    unfold withState, handleValueChange, setIsValueInvalid, setValue.
    cbn [state timers log inFlight st_options st_value isLoading isEvaluated
         isValueInvalid]. rewrite Heval. repeat split.
Qed.

Lemma selecting_an_option_requests_nothing_witness :
  exists sys sys',
    history partitionProps (environmentIs "gpu")
      [FetchSettled 0 (optionsResponse ["normal"; "debug"])] = Some sys
    /\ step partitionProps sys (RadioChanged "debug") = Some sys'
    /\ st_value (state sys') = "debug"
    /\ log sys' = log sys.
Proof.
  destruct (history_total partitionProps (environmentIs "gpu")
              [FetchSettled 0 (optionsResponse ["normal"; "debug"])])
    as [sys H].
  assert (Heval : from_option (fun sys => isEvaluated (state sys) = true) True
                    (history partitionProps (environmentIs "gpu")
                       [FetchSettled 0
                          (optionsResponse ["normal"; "debug"])])).
  { vm_compute. reflexivity. }
  rewrite H in Heval. cbn [from_option] in Heval.
  destruct (selecting_an_option_requests_nothing partitionProps
              (environmentIs "gpu") _ sys "debug" H Heval)
    as (sys' & Hs & Hst & Hlog & _).
  exists sys, sys'. split; [exact H|]. split; [exact Hs|].
  split; [now rewrite Hst|exact Hlog].
Defined.

End RadioGroupRunsFacts.

(* ===================================================================== *)
(** * Properties of editing *)
(* ===================================================================== *)

Module EditingFacts.
Import MultiPane.
Import Editing.
Import MultiPaneFacts.

(** ** Related pane lists sort alike *)

Section RelatedPanes.

Variable R : Pane -> Pane -> Prop.
Hypothesis R_order : forall p q, R p q -> order p = order q.
Hypothesis R_set_order :
  forall p q o, R p q -> R (set_order p o) (set_order q o).

Lemma related_normalize (index : nat) (ps qs : list Pane) :
  List.Forall2 R ps qs ->
  List.Forall2 R (mapi_from normalizePane index ps)
                 (mapi_from normalizePane index qs).
Proof.
  intros H. revert index. induction H as [|p q ps qs Hpq _ IH]; intros index;
    cbn [mapi_from]; constructor; [|apply IH].
  unfold normalizePane. rewrite <- (R_order p q Hpq).
  destruct (order p =? 0); [now apply R_set_order|exact Hpq].
Qed.

Lemma related_insert (x y : Pane) (l l' : list Pane) :
  R x y -> List.Forall2 R l l' ->
  List.Forall2 R (insert_by compareOrder x l) (insert_by compareOrder y l').
Proof.
  intros Hxy H. induction H as [|p q l l' Hpq Hl IH]; cbn [insert_by].
  - repeat constructor. exact Hxy.
  - unfold compareOrder.
    rewrite <- (R_order x y Hxy), <- (R_order p q Hpq).
    destruct (order x - order p <=? 0); repeat constructor; assumption.
Qed.

Lemma related_sort (l l' : list Pane) :
  List.Forall2 R l l' ->
  List.Forall2 R (js_sort compareOrder l) (js_sort compareOrder l').
Proof.
  induction 1 as [|p q l l' Hpq _ IH]; [constructor|].
  cbn [js_sort fold_right]. now apply related_insert.
Qed.

Lemma related_included (l l' : list Pane) :
  List.Forall2 R l l' ->
  List.Forall2 R (List.filter isIncluded l) (List.filter isIncluded l').
Proof.
  induction 1 as [|p q l l' Hpq _ IH]; [constructor|].
  cbn [List.filter].
  assert (E : isIncluded q = isIncluded p).
  { unfold isIncluded. now rewrite (R_order p q Hpq). }
  rewrite E. destruct (isIncluded p); [now constructor|exact IH].
Qed.

Lemma related_sorted (ps qs : list Pane) :
  List.Forall2 R ps qs ->
  List.Forall2 R (getSortedPanes (Some ps)) (getSortedPanes (Some qs)).
Proof.
  intros H. unfold getSortedPanes.
  now apply related_included, related_sort, related_normalize.
Qed.

End RelatedPanes.

(** ** Committing an edit *)

Lemma commitContent_cons (p : Pane) (ps : list Pane) (n c : string) :
  commitContent (p :: ps) n c =
  if String.eqb (name p) n then set_content p c :: ps
  else p :: commitContent ps n c.
Proof.
  unfold commitContent. cbn [findIndex].
  destruct (String.eqb (name p) n); [reflexivity|].
  destruct (findIndex (fun q => String.eqb (name q) n) ps) as [i|];
    [|reflexivity].
  cbn. now destruct (ps !! i).
Qed.

Lemma commitContent_nil (n c : string) : commitContent [] n c = [].
Proof. reflexivity. Qed.

Lemma commitContent_sameButContent (ps : list Pane) (n c : string) :
  List.Forall2 sameButContent ps (commitContent ps n c).
Proof.
  assert (Hrefl : forall l, List.Forall2 sameButContent l l).
  { induction l; constructor; [repeat split|assumption]. }
  induction ps as [|p ps IH]; [constructor|].
  rewrite commitContent_cons. destruct (String.eqb (name p) n).
  - constructor; [repeat split|apply Hrefl].
  - constructor; [repeat split|exact IH].
Qed.

Lemma commitContent_absent (ps : list Pane) (n c : string) :
  (forall p, In p ps -> name p <> n) -> commitContent ps n c = ps.
Proof.
  induction ps as [|p ps IH]; intros H; [reflexivity|].
  rewrite commitContent_cons.
  destruct (String.eqb (name p) n) eqn:E.
  - apply String.eqb_eq in E. now apply (H p (or_introl eq_refl)) in E.
  - rewrite IH; [reflexivity|]. intros q Hq. apply H. now right.
Qed.

Lemma Forall2_map_eq {A B : Type} (R : A -> A -> Prop) (f : A -> B)
  (l l' : list A) :
  (forall x y, R x y -> f x = f y) ->
  List.Forall2 R l l' -> map f l = map f l'.
Proof.
  intros Hf. induction 1 as [|x y l l' Hxy _ IH]; [reflexivity|].
  cbn [map]. now rewrite (Hf x y Hxy), IH.
Qed.

Lemma commitContent_lookup (ps : list Pane) (n c : string) (i : nat)
  (p : Pane) :
  commitContent ps n c !! i = Some p ->
  exists q, ps !! i = Some q /\ (p = q \/ (name q = n /\ p = set_content q c)).
Proof.
  revert i. induction ps as [|q ps IH]; intros i; [discriminate|].
  rewrite commitContent_cons.
  destruct (String.eqb (name q) n) eqn:E.
  - apply String.eqb_eq in E. destruct i as [|i]; cbn.
    + intros [= <-]. exists q. split; [reflexivity|]. now right.
    + intros H. exists p. split; [exact H|]. now left.
  - destruct i as [|i]; cbn.
    + intros [= <-]. exists q. split; [reflexivity|]. now left.
    + apply IH.
Qed.

(** Committing an edit changes no name, no order and no preview name and
    keeps every pane at its place in the array, so the panes are shown in
    the same sequence and under the same tabs before and after; a pane is
    as before or is a pane of the edited name with the new content; and
    when no pane bears the name any more, nothing is changed. *)
Theorem commit_keeps_pane_sequence (ps : list Pane) (n c : string) :
  map name (getSortedPanes (Some (commitContent ps n c))) =
    map name (getSortedPanes (Some ps))
  /\ map order (getSortedPanes (Some (commitContent ps n c))) =
     map order (getSortedPanes (Some ps))
  /\ map preview_name (getSortedPanes (Some (commitContent ps n c))) =
     map preview_name (getSortedPanes (Some ps))
  /\ length (commitContent ps n c) = length ps
  /\ map name (commitContent ps n c) = map name ps
  /\ map order (commitContent ps n c) = map order ps
  /\ map preview_name (commitContent ps n c) = map preview_name ps
  /\ (forall i p,
        commitContent ps n c !! i = Some p ->
        exists q,
          ps !! i = Some q
          /\ (p = q \/ (name q = n /\ p = set_content q c)))
  /\ ((forall p, In p ps -> name p <> n) -> commitContent ps n c = ps).
Proof.
  pose proof (commitContent_sameButContent ps n c) as H.
  assert (Hs : List.Forall2 sameButContent
                 (getSortedPanes (Some ps))
                 (getSortedPanes (Some (commitContent ps n c)))).
  { apply related_sorted; [| |exact H].
    - intros p q (_ & Ho & _). now symmetry.
    - intros p q o (Hn & _ & Hp). repeat split; assumption. }
  assert (Hname : forall l l', List.Forall2 sameButContent l l' ->
                               map name l' = map name l).
  { intros l l' Hl. symmetry.
    apply (Forall2_map_eq sameButContent); [|exact Hl].
    intros p q (Hn & _). now symmetry. }
  assert (Horder : forall l l', List.Forall2 sameButContent l l' ->
                                map order l' = map order l).
  { intros l l' Hl. symmetry.
    apply (Forall2_map_eq sameButContent); [|exact Hl].
    intros p q (_ & Ho & _). now symmetry. }
  assert (Hpreview : forall l l', List.Forall2 sameButContent l l' ->
                                  map preview_name l' = map preview_name l).
  { intros l l' Hl. symmetry.
    apply (Forall2_map_eq sameButContent); [|exact Hl].
    intros p q (_ & _ & Hp). now symmetry. }
  split; [now apply Hname|]. split; [now apply Horder|].
  split; [now apply Hpreview|].
  split; [symmetry; exact (List.Forall2_length H)|].
  split; [now apply Hname|]. split; [now apply Horder|].
  split; [now apply Hpreview|].
  split; [apply commitContent_lookup|apply commitContent_absent].
Qed.

Lemma commit_keeps_pane_sequence_witness :
  map preview_name
      (getSortedPanes
         (Some (commitContent [paneA; paneDriver] "driver" "echo bye"))) =
    ["driver.sh"; "a.txt"]
  /\ commitContent [paneA; paneDriver] "driver" "echo bye" =
     [paneA; set_content paneDriver "echo bye"]
  /\ commitContent [paneA; paneDriver] "gone.txt" "text" = [paneA; paneDriver].
Proof.
  destruct (commit_keeps_pane_sequence [paneA; paneDriver] "driver"
              "echo bye") as (_ & _ & Hpreview & _ & _ & _ & _ & Hat & _).
  destruct (commit_keeps_pane_sequence [paneA; paneDriver] "gone.txt" "text")
    as (_ & _ & _ & _ & _ & _ & _ & _ & Habsent).
  split; [rewrite Hpreview; reflexivity|]. split.
  - destruct (Hat 1%nat (set_content paneDriver "echo bye") eq_refl)
      as (q & Hq & _).
    reflexivity.
  - apply Habsent. intros p [<-|[<-|[]]]; discriminate.
Defined.

(** ** An edit and the snapshot of the panes *)

Lemma withContent_order (n c : string) (p : Pane) :
  order (withContent n c p) = order p.
Proof. unfold withContent. now destruct (String.eqb (name p) n). Qed.

Lemma withContent_name (n c : string) (p : Pane) :
  name (withContent n c p) = name p.
Proof. unfold withContent. now destruct (String.eqb (name p) n). Qed.

Lemma withContent_set_order (n c : string) (p : Pane) (o : Z) :
  withContent n c (set_order p o) = set_order (withContent n c p) o.
Proof.
  unfold withContent. cbn [name set_order].
  now destruct (String.eqb (name p) n).
Qed.

Lemma withContent_other (n c : string) (ps : list Pane) :
  ~ In n (map name ps) -> map (withContent n c) ps = ps.
Proof.
  induction ps as [|p ps IH]; intros H; [reflexivity|].
  cbn [map] in *.
  assert (H1 : name p <> n /\ ~ In n (map name ps)).
  { split; intros Hx; apply H; [left|right]; assumption. }
  destruct H1 as [Hp Hps]. rewrite (IH Hps). f_equal.
  unfold withContent. destruct (String.eqb (name p) n) eqn:E; [|reflexivity].
  apply String.eqb_eq in E. contradiction.
Qed.

Lemma commitContent_map (ps : list Pane) (n c : string) :
  List.NoDup (map name ps) ->
  commitContent ps n c = map (withContent n c) ps.
Proof.
  induction ps as [|p ps IH]; intros Hnd; [reflexivity|].
  cbn [map] in Hnd. inversion Hnd as [|x l Hnotin Hnd']; subst.
  rewrite commitContent_cons. cbn [map]. unfold withContent at 1.
  destruct (String.eqb (name p) n) eqn:E.
  - apply String.eqb_eq in E. subst n. now rewrite withContent_other.
  - now rewrite IH.
Qed.

Lemma sorted_map_withContent (n c : string) (ps : list Pane) :
  getSortedPanes (Some (map (withContent n c) ps)) =
  map (withContent n c) (getSortedPanes (Some ps)).
Proof.
  set (R := fun p q : Pane => q = withContent n c p).
  assert (Hmap : forall l l', List.Forall2 R l l' ->
                              l' = map (withContent n c) l).
  { induction 1 as [|p q l l' Hpq _ IH]; [reflexivity|].
    cbn [map]. now rewrite Hpq, IH. }
  apply Hmap, related_sorted.
  - intros p q ->. symmetry. apply withContent_order.
  - intros p q o ->. unfold R. symmetry. apply withContent_set_order.
  - induction ps; constructor; [reflexivity|assumption].
Qed.

Lemma lookup_map {A B : Type} (f : A -> B) (l : list A) (i : nat) :
  map f l !! i = option_map f (l !! i).
Proof.
  revert i. induction l as [|x l IH]; intros [|i]; try reflexivity.
  cbn. apply IH.
Qed.

(** When the panes bear distinct names, the text committed for the editor
    at an index is what the snapshot of the panes holds at that index
    afterwards, and every other pane keeps its text and its place. *)
Theorem edit_reaches_snapshot (ps : list Pane) (index : nat) (pane : Pane)
  (newContent : string) :
  List.NoDup (map name ps) ->
  getSortedPanes (Some ps) !! index = Some pane ->
  let after := commitContent ps (name pane) newContent in
  getPaneRefs (Some after) =
    map (fun q =>
           {| current :=
                Some {| elem_pane_name := name q;
                        value := if String.eqb (name q) (name pane)
                                 then newContent else contentOrEmpty q |} |})
        (getSortedPanes (Some ps))
  /\ getPaneRefs (Some after) !! index =
     Some {| current := Some {| elem_pane_name := name pane;
                                value := newContent |} |}.
Proof.
  intros Hnd Hat. cbv zeta.
  assert (Hrefs :
    getPaneRefs (Some (commitContent ps (name pane) newContent)) =
    map (fun q =>
           {| current :=
                Some {| elem_pane_name := name q;
                        value := if String.eqb (name q) (name pane)
                                 then newContent else contentOrEmpty q |} |})
        (getSortedPanes (Some ps))).
  { unfold getPaneRefs.
    rewrite (commitContent_map ps _ _ Hnd), sorted_map_withContent, map_map.
    apply map_ext. intros q. rewrite withContent_name.
    unfold withContent. now destruct (String.eqb (name q) (name pane)). }
  split; [exact Hrefs|].
  rewrite Hrefs, lookup_map, Hat. cbn [option_map].
  now rewrite String.eqb_refl.
Qed.

Lemma edit_reaches_snapshot_witness :
  getPaneRefs (Some (commitContent [paneA; paneDriver] "driver" "echo bye"))
  !! 0%nat =
  Some {| current := Some {| elem_pane_name := "driver";
                             value := "echo bye" |} |}.
Proof.
  apply (edit_reaches_snapshot [paneA; paneDriver] 0 paneDriver "echo bye").
  - vm_compute. repeat constructor; cbn; intuition discriminate.
  - reflexivity.
Defined.

(** The commit looks a pane up by its name and takes the first it finds:
    of two panes that bear one name, the earlier in the array receives the
    text typed into the editor of the later, which keeps its own. *)
Theorem commit_goes_to_first_of_name (before mid rest : list Pane)
  (first second : Pane) (newContent : string) :
  name first = name second ->
  (forall q, In q before -> name q <> name second) ->
  commitContent (before ++ first :: mid ++ second :: rest)
                (name second) newContent =
  before ++ set_content first newContent :: mid ++ second :: rest.
Proof.
  intros Hname Hbefore.
  induction before as [|q before IH]; cbn [app]; rewrite commitContent_cons.
  - now rewrite Hname, String.eqb_refl.
  - destruct (String.eqb (name q) (name second)) eqn:E.
    + apply String.eqb_eq in E. now apply (Hbefore q (or_introl eq_refl)) in E.
    + rewrite IH; [reflexivity|]. intros r Hr. apply Hbefore. now right.
Qed.

Lemma commit_goes_to_first_of_name_witness :
  commitContent [paneB; paneA; set_order paneA 5] "a.txt" "typed" =
  [paneB; set_content paneA "typed"; set_order paneA 5].
Proof.
  apply (commit_goes_to_first_of_name [paneB] [] [] paneA
           (set_order paneA 5) "typed").
  - reflexivity.
  - intros q [<-|[]]. discriminate.
Defined.

(** ** Keystrokes and the delayed commit *)

Lemma last_cons_default {A : Type} (a d : A) (l : list A) :
  List.last (a :: l) d = List.last l a.
Proof.
  revert a d. induction l as [|b l IH]; intros a d; [reflexivity|].
  change (List.last (a :: b :: l) d) with (List.last (b :: l) d).
  rewrite IH. symmetry. apply IH.
Qed.

Lemma burst_from (hasOnChange : Pane -> bool) (ps : list Pane) (index : nat)
  (pane : Pane) :
  getSortedPanes (Some ps) !! index = Some pane ->
  forall (more : list (nat * string)) (ref : gmap nat nat)
         (id nid clk : nat) (lg : list (nat * EditEffect)) (text : string),
    ref !! index = Some id ->
    List.Forall (fun gap => (gap < contentDelay)%nat) (map fst more) ->
    let final :=
      editRun hasOnChange
        {| panes := ps;
           pending := [{| edit_id := id;
                          edit_due := (clk + contentDelay)%nat;
                          edit_index := index; edit_pane := pane;
                          edit_content := text |}];
           timeoutsRef := ref; nextEditId := nid; editClock := clk;
           editLog := lg |}
        (keystrokes index more ++ [Waited contentDelay]) in
    let t := (clk + typingTime more + contentDelay)%nat in
    panes final = commitContent ps (name pane) (lastText text more)
    /\ pending final = []
    /\ editClock final = t
    /\ editLog final =
       lg ++ (t, SetPanes (name pane) (lastText text more))
          :: (if hasOnChange pane
              then [(t, PaneOnChange (name pane) (lastText text more))]
              else []).
Proof.
  intros Hat more.
  induction more as [|[gap text'] more IH];
    intros ref id nid clk lg text Href Hgaps; cbv zeta.
  - cbn [keystrokes flat_map app]. unfold editRun.
    cbn [fold_left editStep]. unfold elapse.
    cbn [pending editClock List.filter edit_due].
    rewrite Nat.leb_refl. cbn [fold_left]. unfold fireEdit, cancelEdit.
    cbn [panes pending timeoutsRef nextEditId editClock editLog edit_id
         edit_due edit_index edit_pane edit_content List.filter].
    rewrite Nat.eqb_refl. cbn [negb].
    unfold typingTime, lastText. cbn [map list_sum fold_right List.last].
    rewrite Nat.add_0_r. repeat split.
  - cbn [map fst] in Hgaps. inversion Hgaps as [|g gs Hgap Hgaps']; subst.
    cbn [keystrokes flat_map app fst snd]. fold (keystrokes index more).
    unfold editRun. cbn [fold_left editStep].
    fold (editRun hasOnChange).
    assert (Hwait :
      elapse hasOnChange gap
        {| panes := ps;
           pending := [{| edit_id := id;
                          edit_due := (clk + contentDelay)%nat;
                          edit_index := index; edit_pane := pane;
                          edit_content := text |}];
           timeoutsRef := ref; nextEditId := nid; editClock := clk;
           editLog := lg |} =
      {| panes := ps;
         pending := [{| edit_id := id;
                        edit_due := (clk + contentDelay)%nat;
                        edit_index := index; edit_pane := pane;
                        edit_content := text |}];
         timeoutsRef := ref; nextEditId := nid;
         editClock := (clk + gap)%nat; editLog := lg |}).
    { unfold elapse. cbn [pending editClock List.filter edit_due].
      assert (E : Nat.leb (clk + contentDelay) (clk + gap) = false).
      { apply Nat.leb_gt. lia. }
      rewrite E. reflexivity. }
    assert (Htyped :
      handleContentChange index text'
        {| panes := ps;
           pending := [{| edit_id := id;
                          edit_due := (clk + contentDelay)%nat;
                          edit_index := index; edit_pane := pane;
                          edit_content := text |}];
           timeoutsRef := ref; nextEditId := nid;
           editClock := (clk + gap)%nat; editLog := lg |} =
      {| panes := ps;
         pending := [{| edit_id := nid;
                        edit_due := (clk + gap + contentDelay)%nat;
                        edit_index := index; edit_pane := pane;
                        edit_content := text' |}];
         timeoutsRef := <[index := nid]> ref; nextEditId := S nid;
         editClock := (clk + gap)%nat; editLog := lg |}).
    { unfold handleContentChange.
      cbn [panes pending timeoutsRef nextEditId editClock editLog].
      rewrite Hat, Href. unfold cancelEdit.
      cbn [List.filter edit_id]. rewrite Nat.eqb_refl. reflexivity. }
    rewrite Hwait, Htyped.
    destruct (IH (<[index := nid]> ref) nid (S nid) (clk + gap)%nat lg text')
      as (Hp & Hpe & Hc & Hl).
    + apply lookup_insert_eq.
    + exact Hgaps'.
    + unfold editRun in *. rewrite Hp, Hpe, Hc, Hl.
      assert (Elast : lastText text ((gap, text') :: more) =
                      lastText text' more).
      { unfold lastText. cbn [map snd]. apply last_cons_default. }
      assert (Etime : (clk + gap + typingTime more + contentDelay)%nat =
                      (clk + typingTime ((gap, text') :: more)
                       + contentDelay)%nat).
      { unfold typingTime.
        change (list_sum (map fst ((gap, text') :: more)))
          with (gap + list_sum (map fst more))%nat.
        lia. }
      rewrite Elast, Etime. repeat split.
Qed.

(** A burst of keystrokes into one editor, each less than the delay after
    the one before, commits once: the delay after the last keystroke the
    panes receive the last text, and none of the texts in between. *)
Theorem burst_commits_last_text_once (hasOnChange : Pane -> bool)
  (ps : list Pane) (index : nat) (pane : Pane) (first : string)
  (more : list (nat * string)) :
  getSortedPanes (Some ps) !! index = Some pane ->
  List.Forall (fun gap => (gap < contentDelay)%nat) (map fst more) ->
  let final :=
    editRun hasOnChange (freshEditor ps)
            (Typed index first :: keystrokes index more
             ++ [Waited contentDelay]) in
  let t := (typingTime more + contentDelay)%nat in
  panes final = commitContent ps (name pane) (lastText first more)
  /\ pending final = []
  /\ editClock final = t
  /\ editLog final =
     (t, SetPanes (name pane) (lastText first more))
     :: (if hasOnChange pane
         then [(t, PaneOnChange (name pane) (lastText first more))]
         else []).
Proof.
  intros Hat Hgaps. cbv zeta.
  change (editRun hasOnChange (freshEditor ps)
            (Typed index first :: keystrokes index more
             ++ [Waited contentDelay]))
    with (editRun hasOnChange (handleContentChange index first (freshEditor ps))
            (keystrokes index more ++ [Waited contentDelay])).
  unfold handleContentChange, freshEditor.
  cbn [panes pending timeoutsRef nextEditId editClock editLog].
  rewrite Hat. rewrite lookup_empty. cbn [app].
  exact (burst_from hasOnChange ps index pane Hat more
           (<[index := 1%nat]> ∅) 1 2 0 [] first
           (lookup_insert_eq _ _ _) Hgaps).
Qed.

Lemma burst_commits_last_text_once_witness :
  panes (editRun (fun _ => false) (freshEditor [paneA; paneDriver])
           [Typed 0 "e"; Waited 100; Typed 0 "ec"; Waited 299;
            Typed 0 "echo"; Waited 300]) =
  commitContent [paneA; paneDriver] "driver" "echo".
Proof.
  apply (burst_commits_last_text_once (fun _ => false) [paneA; paneDriver]
           0 paneDriver "e" [(100%nat, "ec"); (299%nat, "echo")]).
  - reflexivity.
  - repeat constructor; unfold contentDelay; cbn [fst]; lia.
Defined.

(** ** One timer for an editor *)

Lemma NoDup_snoc {A : Type} (l : list A) (x : A) :
  List.NoDup l -> ~ In x l -> List.NoDup (l ++ [x]).
Proof.
  induction 1 as [|y l Hy Hl IH]; intros Hx; cbn [app].
  - constructor; [easy|constructor].
  - constructor.
    + intros Hin. apply in_app_or in Hin. destruct Hin as [Hin|[->|[]]].
      * contradiction.
      * apply Hx. now left.
    + apply IH. intros Hin. apply Hx. now right.
Qed.

Lemma NoDup_map_filter {A B : Type} (f : A -> B) (keep : A -> bool)
  (l : list A) :
  List.NoDup (map f l) -> List.NoDup (map f (List.filter keep l)).
Proof.
  induction l as [|x l IH]; intros H; [constructor|].
  cbn [map] in H. inversion H as [|y ys Hx Hl]; subst.
  cbn [List.filter]. destruct (keep x); [|now apply IH].
  cbn [map]. constructor; [|now apply IH].
  intros Hin. apply Hx. apply in_map_iff in Hin.
  destruct Hin as (z & Hz & Hin). apply filter_In in Hin.
  apply in_map_iff. exists z. tauto.
Qed.

Lemma cancelEdit_In (id : nat) (ts : list EditTimer) (t : EditTimer) :
  In t (cancelEdit id ts) <-> In t ts /\ edit_id t <> id.
Proof.
  unfold cancelEdit. rewrite filter_In, negb_true_iff, Nat.eqb_neq.
  reflexivity.
Qed.

Lemma registered_typed (index : nat) (newContent : string) (ed : Editor) :
  registered ed -> registered (handleContentChange index newContent ed).
Proof.
  intros [Hreg Hnd]. unfold handleContentChange.
  destruct (getSortedPanes (Some (panes ed)) !! index) as [pane|];
    [|now split].
  set (cleared := match timeoutsRef ed !! index with
                  | Some id => cancelEdit id (pending ed)
                  | None => pending ed
                  end).
  assert (Hcleared : forall t, In t cleared ->
                               In t (pending ed) /\ edit_index t <> index).
  { intros t Hin. subst cleared.
    destruct (timeoutsRef ed !! index) as [id|] eqn:E.
    - apply cancelEdit_In in Hin. destruct Hin as [Hin Hne].
      split; [exact Hin|]. intros Hi. apply Hne.
      destruct (Hreg t Hin) as [Ht _]. rewrite Hi, E in Ht. congruence.
    - split; [exact Hin|]. intros Hi.
      destruct (Hreg t Hin) as [Ht _]. rewrite Hi, E in Ht. discriminate. }
  assert (Hnd' : List.NoDup (map edit_id cleared)).
  { subst cleared. destruct (timeoutsRef ed !! index); [|exact Hnd].
    now apply NoDup_map_filter. }
  split; cbn [pending timeoutsRef nextEditId].
  - intros t Hin. apply in_app_or in Hin. destruct Hin as [Hin|[<-|[]]].
    + destruct (Hcleared t Hin) as [Hp Hne].
      destruct (Hreg t Hp) as [Ht Hlt].
      rewrite lookup_insert_ne by congruence. split; [exact Ht|lia].
    + cbn [edit_index edit_id]. rewrite lookup_insert_eq. split; [easy|lia].
  - rewrite map_app. cbn [map edit_id]. apply NoDup_snoc; [exact Hnd'|].
    intros Hin. apply in_map_iff in Hin. destruct Hin as (t & Hid & Hin).
    destruct (Hcleared t Hin) as [Hp _]. destruct (Hreg t Hp) as [_ Hlt]. lia.
Qed.

Lemma registered_fired (hasOnChange : Pane -> bool) (ed : Editor)
  (t : EditTimer) :
  registered ed -> In t (pending ed) ->
  registered (fireEdit hasOnChange ed t).
Proof.
  intros [Hreg Hnd] Ht. destruct (Hreg t Ht) as [Hreft _].
  split; cbn [fireEdit pending timeoutsRef nextEditId].
  - intros t' Hin. apply cancelEdit_In in Hin. destruct Hin as [Hin Hne].
    destruct (Hreg t' Hin) as [Hr Hlt]. split; [|exact Hlt].
    rewrite lookup_delete_ne; [exact Hr|].
    intros Hi. apply Hne. rewrite Hi in Hreft. congruence.
  - now apply NoDup_map_filter.
Qed.

Lemma registered_fold (hasOnChange : Pane -> bool) (due : list EditTimer) :
  forall ed,
    registered ed ->
    List.NoDup (map edit_id due) ->
    (forall t, In t due -> In t (pending ed)) ->
    registered (fold_left (fireEdit hasOnChange) due ed).
Proof.
  induction due as [|t due IH]; intros ed Hreg Hnd Hin; [exact Hreg|].
  cbn [fold_left]. cbn [map] in Hnd.
  inversion Hnd as [|x xs Hx Hnd']; subst.
  apply IH; [|exact Hnd'|].
  - apply registered_fired; [exact Hreg|]. apply Hin. now left.
  - intros t' Ht'. cbn [fireEdit pending]. apply cancelEdit_In.
    split; [apply Hin; now right|].
    intros Hid. apply Hx. rewrite <- Hid. now apply in_map.
Qed.

Lemma registered_waited (hasOnChange : Pane -> bool) (ms : nat)
  (ed : Editor) :
  registered ed -> registered (elapse hasOnChange ms ed).
Proof.
  intros Hreg. unfold elapse.
  match goal with
  | |- context [fold_left _ ?due ed] =>
      pose proof (registered_fold hasOnChange due ed Hreg) as H
  end.
  destruct H as [H1 H2].
  - apply NoDup_map_filter. apply Hreg.
  - intros t Ht. now apply filter_In in Ht.
  - split; assumption.
Qed.

Lemma registered_run (hasOnChange : Pane -> bool) (events : list EditEvent) :
  forall ed, registered ed -> registered (editRun hasOnChange ed events).
Proof.
  unfold editRun.
  induction events as [|ev events IH]; intros ed Hreg; [exact Hreg|].
  cbn [fold_left]. apply IH. destruct ev as [index text|ms]; cbn [editStep].
  - now apply registered_typed.
  - now apply registered_waited.
Qed.

(** Whatever is typed into whichever editors and however long the pauses
    are, no editor ever has two commits pending: a keystroke replaces the
    timer of its editor and leaves those of the other editors alone, and
    every pending timer is the one its editor has on record. *)
Theorem one_pending_commit_per_editor (hasOnChange : Pane -> bool)
  (ps : list Pane) (events : list EditEvent) :
  let ed := editRun hasOnChange (freshEditor ps) events in
  List.NoDup (map edit_index (pending ed))
  /\ (forall t, In t (pending ed) ->
        timeoutsRef ed !! edit_index t = Some (edit_id t)).
Proof.
  cbv zeta.
  assert (Hreg : registered (editRun hasOnChange (freshEditor ps) events)).
  { apply registered_run. split; [intros t []|constructor]. }
  destruct Hreg as [Hreg Hnd]. split; [|intros t Ht; now apply Hreg].
  generalize dependent (editRun hasOnChange (freshEditor ps) events).
  intros ed Hreg. induction (pending ed) as [|t ts IH]; intros Hnd;
    [constructor|].
  cbn [map] in *. inversion Hnd as [|x xs Hx Hnd']; subst.
  constructor.
  - intros Hin. apply Hx. apply in_map_iff in Hin.
    destruct Hin as (t' & Hi & Hin). apply in_map_iff. exists t'.
    split; [|exact Hin].
    destruct (Hreg t (or_introl eq_refl)) as [Ht _].
    destruct (Hreg t' (or_intror Hin)) as [Ht' _].
    rewrite Hi, Ht in Ht'. congruence.
  - apply IH; [|exact Hnd']. intros t' Hin. apply Hreg. now right.
Qed.

(** ** The active pane *)

Lemma mounted_to_asked (p sortedLength : nat) :
  (0 < p)%nat ->
  commitActive (Some p) sortedLength mountedActive =
  (askedPane p sortedLength, true).
Proof.
  intros Hp. unfold commitActive, mountedActive, askedPane.
  cbn [activePane seenByParentSync seenByBoundsCheck].
  assert (E : Nat.eqb p 0 = false) by (apply Nat.eqb_neq; lia).
  assert (L : Nat.leb sortedLength 0 && Nat.ltb 0 sortedLength = false).
  { destruct sortedLength; reflexivity. }
  rewrite E. cbn [andb negb]. rewrite L, E. reflexivity.
Qed.

Lemma asked_to_first (p sortedLength : nat) :
  (sortedLength <= p)%nat -> (0 < sortedLength)%nat ->
  commitActive (Some p) sortedLength (askedPane p sortedLength) =
  (firstPane p sortedLength, true).
Proof.
  intros Hle Hpos. unfold commitActive, askedPane, firstPane.
  cbn [activePane seenByParentSync seenByBoundsCheck sameOptNat].
  assert (E0 : Nat.eqb 0 p = false) by (apply Nat.eqb_neq; lia).
  assert (L : Nat.leb sortedLength p = true) by (apply Nat.leb_le; lia).
  assert (P : Nat.ltb 0 sortedLength = true) by (apply Nat.ltb_lt; lia).
  rewrite !Nat.eqb_refl, E0, L, P. cbn [andb negb]. rewrite E0. reflexivity.
Qed.

Lemma first_to_asked (p sortedLength : nat) :
  (sortedLength <= p)%nat -> (0 < sortedLength)%nat ->
  commitActive (Some p) sortedLength (firstPane p sortedLength) =
  (askedPane p sortedLength, true).
Proof.
  intros Hle Hpos. unfold commitActive, askedPane, firstPane.
  cbn [activePane seenByParentSync seenByBoundsCheck sameOptNat].
  assert (E : Nat.eqb p 0 = false) by (apply Nat.eqb_neq; lia).
  assert (L : Nat.leb sortedLength 0 = false) by (apply Nat.leb_gt; lia).
  rewrite !Nat.eqb_refl, E, L. cbn [andb negb]. rewrite E. reflexivity.
Qed.

Lemma asked_never_settles (p sortedLength : nat) :
  (sortedLength <= p)%nat -> (0 < sortedLength)%nat ->
  forall fuel,
    settleActive fuel (Some p) sortedLength (askedPane p sortedLength) = None
    /\ settleActive fuel (Some p) sortedLength (firstPane p sortedLength) =
       None.
Proof.
  intros Hle Hpos. induction fuel as [|fuel [IH1 IH2]]; [now split|].
  cbn [settleActive].
  rewrite (asked_to_first p sortedLength Hle Hpos),
          (first_to_asked p sortedLength Hle Hpos).
  now split.
Qed.

(** A parent that controls the active pane gets the pane it asks for within
    two renders when that pane is there (or there are no panes at all).
    When it asks for a pane beyond the last one, the two effects undo each
    other without end: one sets the pane asked for, the other sets the
    first pane, and the renders never stop. *)
Theorem controlled_active_pane (p sortedLength : nat) :
  ((p < sortedLength)%nat \/ sortedLength = 0%nat ->
   exists s,
     settleActive 2 (Some p) sortedLength mountedActive = Some s
     /\ activePane s = p)
  /\ ((sortedLength <= p)%nat -> (0 < sortedLength)%nat ->
      forall fuel,
        settleActive fuel (Some p) sortedLength mountedActive = None).
Proof.
  split.
  - intros Hin. destruct p as [|p].
    + cbn [settleActive]. unfold commitActive, mountedActive.
      cbn [activePane seenByParentSync seenByBoundsCheck Nat.eqb andb negb].
      assert (L : Nat.leb sortedLength 0 && Nat.ltb 0 sortedLength = false).
      { destruct sortedLength; reflexivity. }
      rewrite L. cbn [Nat.eqb negb]. eexists. split; reflexivity.
    + cbn [settleActive]. rewrite mounted_to_asked by lia.
      unfold commitActive, askedPane.
      cbn [activePane seenByParentSync seenByBoundsCheck sameOptNat].
      assert (L : Nat.leb sortedLength (S p) && Nat.ltb 0 sortedLength = false).
      { destruct Hin as [Hlt| ->]; [|reflexivity].
        assert (E : Nat.leb sortedLength (S p) = false)
          by (apply Nat.leb_gt; lia).
        now rewrite E. }
      rewrite !Nat.eqb_refl. cbn [Nat.eqb andb negb].
      rewrite L, Nat.eqb_refl. cbn [negb]. eexists. split; reflexivity.
  - intros Hle Hpos [|fuel]; [reflexivity|].
    cbn [settleActive]. rewrite mounted_to_asked by lia.
    apply (asked_never_settles p sortedLength Hle Hpos).
Qed.

Lemma controlled_active_pane_witness :
  (exists s,
     settleActive 2 (Some 1%nat) 2 mountedActive = Some s
     /\ activePane s = 1%nat)
  /\ settleActive 100 (Some 2%nat) 2 mountedActive = None.
Proof.
  destruct (controlled_active_pane 1 2) as [H _].
  destruct (controlled_active_pane 2 2) as [_ H'].
  split.
  - apply H. left. lia.
  - apply H'; lia.
Defined.

(** Left to itself, the editor keeps the active pane among the panes: the
    pane the user picked stays active while it is there, and when the panes
    become so few that it is not, the first pane is active instead. *)
Theorem uncontrolled_active_pane_in_bounds (index sortedLength shorter : nat) :
  (index < sortedLength)%nat ->
  (0 < shorter)%nat ->
  exists s0 s1 s2,
    settleActive 1 None sortedLength mountedActive = Some s0
    /\ settleActive 1 None sortedLength (handlePaneChange index s0) = Some s1
    /\ activePane s1 = index
    /\ settleActive 2 None shorter s1 = Some s2
    /\ activePane s2 = (if Nat.leb shorter index then 0%nat else index)
    /\ (activePane s2 < shorter)%nat.
Proof.
  intros Hin Hpos.
  assert (L0 : Nat.leb sortedLength 0 = false) by (apply Nat.leb_gt; lia).
  assert (L1 : Nat.leb sortedLength index = false) by (apply Nat.leb_gt; lia).
  assert (L2 : Nat.leb shorter 0 = false) by (apply Nat.leb_gt; lia).
  assert (P : Nat.ltb 0 shorter = true) by (apply Nat.ltb_lt; lia).
  exists {| activePane := 0; seenByParentSync := Some (None, 0%nat);
            seenByBoundsCheck := Some (0%nat, sortedLength) |},
         {| activePane := index; seenByParentSync := Some (None, index);
            seenByBoundsCheck := Some (index, sortedLength) |}.
  assert (H0 : settleActive 1 None sortedLength mountedActive =
               Some {| activePane := 0;
                       seenByParentSync := Some (None, 0%nat);
                       seenByBoundsCheck := Some (0%nat, sortedLength) |}).
  { cbn [settleActive]. unfold commitActive, mountedActive.
    cbn [activePane seenByParentSync seenByBoundsCheck andb negb].
    rewrite L0. cbn [andb Nat.eqb negb]. reflexivity. }
  assert (H1 : settleActive 1 None sortedLength
                 (handlePaneChange index
                    {| activePane := 0;
                       seenByParentSync := Some (None, 0%nat);
                       seenByBoundsCheck := Some (0%nat, sortedLength) |}) =
               Some {| activePane := index;
                       seenByParentSync := Some (None, index);
                       seenByBoundsCheck := Some (index, sortedLength) |}).
  { cbn [settleActive]. unfold commitActive, handlePaneChange.
    cbn [activePane seenByParentSync seenByBoundsCheck sameOptNat].
    rewrite L1, andb_false_r. cbn [andb]. rewrite Nat.eqb_refl.
    cbn [negb]. reflexivity. }
  destruct (Nat.leb shorter index) eqn:L; eexists;
    (split; [exact H0|split; [exact H1|split; [reflexivity|]]]).
  - assert (Hle : (shorter <= index)%nat) by now apply Nat.leb_le.
    assert (E : Nat.eqb sortedLength shorter = false)
      by (apply Nat.eqb_neq; lia).
    assert (E0 : Nat.eqb 0 index = false) by (apply Nat.eqb_neq; lia).
    assert (E1 : Nat.eqb index 0 = false) by (apply Nat.eqb_neq; lia).
    cbn [settleActive]. unfold commitActive at 1.
    cbn [activePane seenByParentSync seenByBoundsCheck sameOptNat].
    rewrite !Nat.eqb_refl, E, L, P. cbn [andb negb]. rewrite E0.
    cbn [negb]. unfold commitActive.
    cbn [activePane seenByParentSync seenByBoundsCheck sameOptNat].
    rewrite E1, L2. cbn [andb negb Nat.eqb].
    split; [reflexivity|split; [reflexivity|exact Hpos]].
  - assert (Hlt : (index < shorter)%nat) by now apply Nat.leb_gt.
    cbn [settleActive]. unfold commitActive at 1.
    cbn [activePane seenByParentSync seenByBoundsCheck sameOptNat].
    rewrite L, andb_false_r. cbn [andb]. rewrite Nat.eqb_refl. cbn [negb].
    split; [reflexivity|split; [reflexivity|exact Hlt]].
Qed.

Lemma uncontrolled_active_pane_in_bounds_witness :
  exists s0 s1 s2,
    settleActive 1 None 3 mountedActive = Some s0
    /\ settleActive 1 None 3 (handlePaneChange 2 s0) = Some s1
    /\ activePane s1 = 2%nat
    /\ settleActive 2 None 2 s1 = Some s2
    /\ activePane s2 = 0%nat
    /\ (activePane s2 < 2)%nat.
Proof.
  apply (uncontrolled_active_pane_in_bounds 2 3 2); lia.
Defined.

(** ** Highlighting *)

Lemma toLowerCase_app (s t : string) :
  toLowerCase (s +:+ t) = toLowerCase s +:+ toLowerCase t.
Proof.
  induction s as [|a s IH]; [reflexivity|].
  change (String a s +:+ t) with (String a (s +:+ t)).
  cbn [toLowerCase]. now rewrite IH.
Qed.

Lemma prefix_app (part rest : string) :
  String.prefix part (part +:+ rest) = true.
Proof.
  induction part as [|a part IH]; [now destruct rest|].
  change (String a part +:+ rest) with (String a (part +:+ rest)).
  cbn [String.prefix]. destruct (ascii_dec a a); [exact IH|congruence].
Qed.

Lemma includes_unfold (part s : string) :
  includes part s =
  String.prefix part s
  || match s with
     | EmptyString => false
     | String _ rest => includes part rest
     end.
Proof. now destruct s. Qed.

Lemma endsWith_unfold (suffix s : string) :
  endsWith suffix s =
  String.eqb s suffix
  || match s with
     | EmptyString => false
     | String _ rest => endsWith suffix rest
     end.
Proof. now destruct s. Qed.

Lemma includes_app (part pre post : string) :
  includes part (pre +:+ part +:+ post) = true.
Proof.
  induction pre as [|a pre IH].
  - change ("" +:+ part +:+ post) with (part +:+ post).
    now rewrite includes_unfold, prefix_app.
  - change (String a pre +:+ part +:+ post)
      with (String a (pre +:+ part +:+ post)).
    rewrite includes_unfold, IH. apply orb_true_r.
Qed.

Lemma endsWith_app (suffix pre : string) :
  endsWith suffix (pre +:+ suffix) = true.
Proof.
  induction pre as [|a pre IH].
  - change ("" +:+ suffix) with suffix.
    now rewrite endsWith_unfold, String.eqb_refl.
  - change (String a pre +:+ suffix) with (String a (pre +:+ suffix)).
    rewrite endsWith_unfold, IH. apply orb_true_r.
Qed.

(** The editor picks the highlighting from the preview name of a pane.  A
    name that holds the word python, in whatever case and wherever in the
    name, or ends in .py, is highlighted as Python, whatever else the name
    says: the test for Python comes first, so a name such as
    python_notes.md is not taken for Markdown.  Without a name the
    highlighting is that of a shell script. *)
Theorem python_is_tested_first (pre mid post : string) :
  (toLowerCase mid = "python" ->
   getLanguageExtension (Some (pre +:+ mid +:+ post)) = Python)
  /\ (toLowerCase mid = ".py" ->
      getLanguageExtension (Some (pre +:+ mid)) = Python)
  /\ getLanguageExtension None = Shell
  /\ getLanguageExtension (Some "") = Shell.
Proof.
  split; [|split; [|split; reflexivity]].
  - intros Hmid.
    assert (H : includes "python" (toLowerCase (pre +:+ mid +:+ post)) = true).
    { rewrite !toLowerCase_app, Hmid. apply includes_app. }
    destruct (pre +:+ mid +:+ post) as [|a s]; [discriminate H|].
    unfold getLanguageExtension. cbv zeta. rewrite H.
    now rewrite orb_true_r.
  - intros Hmid.
    assert (H : endsWith ".py" (toLowerCase (pre +:+ mid)) = true).
    { rewrite toLowerCase_app, Hmid. apply endsWith_app. }
    destruct (pre +:+ mid) as [|a s]; [discriminate H|].
    unfold getLanguageExtension. cbv zeta. now rewrite H.
Qed.

Lemma python_is_tested_first_witness :
  getLanguageExtension (Some "My_Python_notes.md") = Python
  /\ getLanguageExtension (Some "run.PY") = Python.
Proof.
  destruct (python_is_tested_first "My_" "Python" "_notes.md") as [H _].
  destruct (python_is_tested_first "run" ".PY" "") as (_ & H' & _).
  split; [exact (H eq_refl)|exact (H' eq_refl)].
Defined.

(** ** While the typing goes on *)

Lemma short_wait (hasOnChange : Pane -> bool) (ps : list Pane)
  (t : EditTimer) (ref : gmap nat nat) (nid clk gap : nat)
  (lg : list (nat * EditEffect)) :
  (clk + gap < edit_due t)%nat ->
  elapse hasOnChange gap
    {| panes := ps; pending := [t]; timeoutsRef := ref; nextEditId := nid;
       editClock := clk; editLog := lg |} =
  {| panes := ps; pending := [t]; timeoutsRef := ref; nextEditId := nid;
     editClock := (clk + gap)%nat; editLog := lg |}.
Proof.
  intros Hdue. unfold elapse. cbn [pending editClock List.filter].
  assert (E : Nat.leb (edit_due t) (clk + gap) = false)
    by (apply Nat.leb_gt; exact Hdue).
  now rewrite E.
Qed.

Lemma typed_again (ps : list Pane) (index : nat) (pane : Pane)
  (t : EditTimer) (ref : gmap nat nat) (nid clk : nat)
  (lg : list (nat * EditEffect)) (text : string) :
  getSortedPanes (Some ps) !! index = Some pane ->
  ref !! index = Some (edit_id t) ->
  handleContentChange index text
    {| panes := ps; pending := [t]; timeoutsRef := ref; nextEditId := nid;
       editClock := clk; editLog := lg |} =
  {| panes := ps;
     pending := [{| edit_id := nid; edit_due := (clk + contentDelay)%nat;
                    edit_index := index; edit_pane := pane;
                    edit_content := text |}];
     timeoutsRef := <[index := nid]> ref; nextEditId := S nid;
     editClock := clk; editLog := lg |}.
Proof.
  intros Hat Href. unfold handleContentChange.
  cbn [panes pending timeoutsRef nextEditId editClock editLog].
  rewrite Hat, Href. unfold cancelEdit. cbn [List.filter].
  now rewrite Nat.eqb_refl.
Qed.

Lemma typing_from (hasOnChange : Pane -> bool) (ps : list Pane) (index : nat)
  (pane : Pane) :
  getSortedPanes (Some ps) !! index = Some pane ->
  forall (more : list (nat * string)) (ref : gmap nat nat)
         (id nid clk : nat) (lg : list (nat * EditEffect)) (text : string),
    ref !! index = Some id ->
    List.Forall (fun gap => (gap < contentDelay)%nat) (map fst more) ->
    exists ref' id' nid',
      editRun hasOnChange
        {| panes := ps;
           pending := [{| edit_id := id;
                          edit_due := (clk + contentDelay)%nat;
                          edit_index := index; edit_pane := pane;
                          edit_content := text |}];
           timeoutsRef := ref; nextEditId := nid; editClock := clk;
           editLog := lg |}
        (keystrokes index more) =
      {| panes := ps;
         pending := [{| edit_id := id';
                        edit_due :=
                          (clk + typingTime more + contentDelay)%nat;
                        edit_index := index; edit_pane := pane;
                        edit_content := lastText text more |}];
         timeoutsRef := ref'; nextEditId := nid';
         editClock := (clk + typingTime more)%nat; editLog := lg |}.
Proof.
  intros Hat more.
  induction more as [|[gap text'] more IH];
    intros ref id nid clk lg text Href Hgaps.
  - exists ref, id, nid. unfold typingTime, lastText.
    cbn [keystrokes flat_map editRun fold_left map list_sum fold_right
         List.last].
    now rewrite Nat.add_0_r.
  - cbn [map fst] in Hgaps. inversion Hgaps as [|g gs Hgap Hgaps']; subst.
    cbn [keystrokes flat_map app fst snd]. fold (keystrokes index more).
    unfold editRun. cbn [fold_left editStep]. fold (editRun hasOnChange).
    rewrite short_wait by (cbn [edit_due]; lia).
    rewrite (typed_again ps index pane _ ref nid (clk + gap) lg text' Hat)
      by exact Href.
    destruct (IH (<[index := nid]> ref) nid (S nid) (clk + gap)%nat lg text'
                 (lookup_insert_eq _ _ _) Hgaps')
      as (ref' & id' & nid' & Hrun).
    exists ref', id', nid'. unfold editRun in Hrun. rewrite Hrun.
    assert (Elast : lastText text ((gap, text') :: more) =
                    lastText text' more).
    { unfold lastText. cbn [map snd]. apply last_cons_default. }
    assert (Etime : (clk + gap + typingTime more)%nat =
                    (clk + typingTime ((gap, text') :: more))%nat).
    { unfold typingTime.
      change (list_sum (map fst ((gap, text') :: more)))
        with (gap + list_sum (map fst more))%nat.
      lia. }
    now rewrite Elast, Etime.
Qed.

(** As long as the keystrokes into an editor follow each other within the
    delay, nothing of what was typed has reached the panes: the pane list,
    and with it the snapshot a submission would read, is the one from before
    the first keystroke, and one commit, of the last text, is pending. *)
Theorem typing_has_not_reached_the_panes (hasOnChange : Pane -> bool)
  (ps : list Pane) (index : nat) (pane : Pane) (first : string)
  (more : list (nat * string)) :
  getSortedPanes (Some ps) !! index = Some pane ->
  List.Forall (fun gap => (gap < contentDelay)%nat) (map fst more) ->
  let now :=
    editRun hasOnChange (freshEditor ps)
            (Typed index first :: keystrokes index more) in
  panes now = ps
  /\ getPaneRefs (Some (panes now)) = getPaneRefs (Some ps)
  /\ editLog now = []
  /\ exists t,
       pending now = [t]
       /\ edit_content t = lastText first more
       /\ edit_due t = (typingTime more + contentDelay)%nat.
Proof.
  intros Hat Hgaps. cbv zeta.
  change (editRun hasOnChange (freshEditor ps)
            (Typed index first :: keystrokes index more))
    with (editRun hasOnChange (handleContentChange index first (freshEditor ps))
            (keystrokes index more)).
  unfold handleContentChange, freshEditor.
  cbn [panes pending timeoutsRef nextEditId editClock editLog].
  rewrite Hat, lookup_empty. cbn [app].
  destruct (typing_from hasOnChange ps index pane Hat more
              (<[index := 1%nat]> ∅) 1 2 0 [] first
              (lookup_insert_eq _ _ _) Hgaps)
    as (ref' & id' & nid' & Hrun).
  rewrite Hrun. cbn [panes editLog pending].
  repeat split. eexists. repeat split.
Qed.

Lemma typing_has_not_reached_the_panes_witness :
  getPaneRefs
    (Some (panes (editRun (fun _ => false) (freshEditor [paneA; paneDriver])
                    [Typed 0 "e"; Waited 100; Typed 0 "ec"; Waited 299;
                     Typed 0 "echo"]))) =
  getPaneRefs (Some [paneA; paneDriver]).
Proof.
  apply (typing_has_not_reached_the_panes (fun _ => false)
           [paneA; paneDriver] 0 paneDriver "e"
           [(100%nat, "ec"); (299%nat, "echo")]).
  - reflexivity.
  - repeat constructor; unfold contentDelay; cbn [fst]; lia.
Defined.

End EditingFacts.

(* ===================================================================== *)
(** * Properties of the registry *)
(* ===================================================================== *)

Module RegistryFacts.
Import Registry.

Lemma lookupComponent_In (map : list (string * Component)) (type : string)
  (c : Component) :
  lookupComponent map type = Some c -> In (type, c) map.
Proof.
  induction map as [|[k c'] map IH]; [discriminate|].
  cbn [lookupComponent]. destruct (String.eqb k type) eqn:E.
  - apply String.eqb_eq in E. intros [= ->]. subst k. now left.
  - intros H. right. now apply IH.
Qed.

(** The types listed as containers are exactly the types the registry
    resolves to a container component; the component for unknown elements,
    though exported, is under no type; and no type is registered twice, so
    that the order of the entries plays no part in a lookup. *)
Theorem containers_are_the_registered_containers (type : string) :
  (In type Containers <->
   exists c, lookupComponent componentsMap type = Some c
             /\ isContainerComponent c = true)
  /\ lookupComponent componentsMap type <> Some UnknownElement
  /\ List.NoDup (List.map fst componentsMap).
Proof.
  split; [split|split].
  - intros H. cbn [Containers In] in H.
    repeat (destruct H as [<-|H]; [eexists; split; reflexivity|]).
    destruct H.
  - intros (c & Hc & Hcont). apply lookupComponent_In in Hc.
    cbn [componentsMap In] in Hc.
    repeat (destruct Hc as [[= <- <-]|Hc];
            [first [discriminate Hcont | cbn; tauto]|]).
    destruct Hc.
  - intros H. apply lookupComponent_In in H. cbn [componentsMap In] in H.
    repeat (destruct H as [H|H]; [discriminate H|]).
    destruct H.
  - cbn [componentsMap List.map fst].
    repeat (constructor; [cbn [In]; intuition discriminate|]).
    constructor.
Qed.

End RegistryFacts.
